(** * PRECEDENT front end: session manager, case-intake form, analysis workflow

    A shallow embedding of the React components of the PRECEDENT client
    (AuthContext, LoginPage, Dashboard) and the properties of their handlers.

    - JavaScript strings are sequences of UTF-16 code units ([list N]);
      [length] is the [.length] of the source.
    - JSON / JavaScript values are the inductive type [value].
    - A handler is a program of type [prog S A] over the React state [S] of
      its component: it reads and updates that state, accesses
      [localStorage] and the default headers of the [api] client, posts to
      the backend (where an [async] handler suspends) and may throw.
    - [exec] runs a handler to completion against a backend oracle; [run]
      runs it up to its first [await], which is what the event loop does.
    - The browser holds [localStorage] together with its quota, so that
      [setItem] can throw; ToString can throw as well.
    - A view is the tree its render function returns, or a TypeError;
      [rendered] is the text React makes of the tree, or React's own
      error on a child that is an object. *)

From Stdlib Require Import String Ascii QArith.
From stdpp Require Import gmap list pretty.

Local Open Scope nat_scope.
Local Open Scope list_scope.

(** ** JavaScript strings and values *)

Module JS.

Definition jsstring := list N.

(** An ASCII literal of the source as a sequence of code units. *)
Fixpoint js (s : string) : jsstring :=
  match s with
  | EmptyString => []
  | String a s' => N_of_ascii a :: js s'
  end.

Arguments js : simpl never.

(** WhiteSpace and LineTerminator code points of ECMAScript, all of which
    are single UTF-16 code units: TAB, LF, VT, FF, CR, SP, NBSP, the
    Unicode space separators, LS, PS and ZWNBSP. *)
Definition is_white_space (c : N) : bool :=
  ((9 <=? c) && (c <=? 13) || (c =? 32) || (c =? 160) || (c =? 5760)
   || (8192 <=? c) && (c <=? 8202) || (c =? 8232) || (c =? 8233)
   || (c =? 8239) || (c =? 8287) || (c =? 12288) || (c =? 65279))%N.

Fixpoint trimStart (s : jsstring) : jsstring :=
  match s with
  | [] => []
  | c :: s' => if is_white_space c then trimStart s' else s
  end.

Definition trimEnd (s : jsstring) : jsstring := rev (trimStart (rev s)).

(** [String.prototype.trim] *)
Definition trim (s : jsstring) : jsstring := trimEnd (trimStart s).

(** [String.prototype.replace] with a one-code-unit string pattern: only
    the first occurrence is replaced. *)
Fixpoint replace (pat by_ : N) (s : jsstring) : jsstring :=
  match s with
  | [] => []
  | c :: s' => if (c =? pat)%N then by_ :: s' else c :: replace pat by_ s'
  end.

#[local] Unset Elimination Schemes.
Inductive value : Type :=
| VUndefined
| VNull
| VBool (b : bool)
| VNum (q : Q)
| VStr (s : jsstring)
| VArr (items : list value)
| VObj (props : list (jsstring * value)).
#[local] Set Elimination Schemes.

(** The own enumerable properties of an object are kept in enumeration
    order, so [Object.entries] is the list itself. *)

Definition str_truthy (s : jsstring) : bool :=
  match s with [] => false | _ => true end.

(** ToBoolean *)
Definition truthy (v : value) : bool :=
  match v with
  | VUndefined | VNull => false
  | VBool b => b
  | VNum q => negb (Qnum q =? 0)%Z
  | VStr s => str_truthy s
  | VArr _ | VObj _ => true
  end.

(** [a || b] *)
Definition or_else (a b : value) : value := if truthy a then a else b.

Fixpoint assoc (k : jsstring) (props : list (jsstring * value)) : value :=
  match props with
  | [] => VUndefined
  | (k', v) :: rest => if decide (k = k') then v else assoc k rest
  end.

(** [v.k] for the property names of this program, none of which is an
    array index or defined by a prototype: the own property of an
    object, [undefined] on any other value that can be dereferenced, and
    a TypeError ([None]) on [null] and [undefined]. *)
Definition get (v : value) (k : jsstring) : option value :=
  match v with
  | VUndefined | VNull => None
  | VObj props => Some (assoc k props)
  | _ => Some VUndefined
  end.

(** [v?.k] *)
Definition get_opt (v : value) (k : jsstring) : value :=
  match v with
  | VObj props => assoc k props
  | _ => VUndefined
  end.

End JS.
Import JS.

(** ** Effects and handler programs *)

Inductive toast_kind := ToastSuccess | ToastError | ToastInfo.

(** An axios response; only [data] is read by the source. *)
Record response := mkResponse { data : value }.

(** A thrown value. Everything thrown in this program is an Error object
    (an axios error from a rejected request, a TypeError, or the
    DOMException of a refused write to [localStorage]), and the source
    reads only its [response], which is [undefined] ([None]) when no
    response was received, on a TypeError and on a DOMException. *)
Record error := mkError { err_response : option response }.

Definition TypeError : error := mkError None.

(** The DOMException [localStorage.setItem] throws when the store does
    not take the new entry. *)
Definition QuotaExceededError : error := mkError None.

(** [error.response?.data?.k] *)
Definition error_data (e : error) (k : jsstring) : value :=
  match err_response e with
  | Some r => get_opt (data r) k
  | None => VUndefined
  end.

(** What a handler does to the outside world, in order. A call of
    [setItem] is recorded whether or not the store takes the entry. *)
Inductive effect : Type :=
| LsGetItem (key : jsstring)
| LsSetItem (key val : jsstring)
| LsRemoveItem (key : jsstring)
| HttpPost (url : jsstring) (body : value)
| Toast (kind : toast_kind) (msg : value)
| ConsoleError (label : jsstring) (err : error).

Definition is_request (e : effect) : bool :=
  match e with HttpPost _ _ => true | _ => false end.

Definition is_storage_access (e : effect) : bool :=
  match e with
  | LsGetItem _ | LsSetItem _ _ | LsRemoveItem _ => true
  | _ => false
  end.

(** The key of [localStorage] an effect reads or writes. *)
Definition storage_key (e : effect) : option jsstring :=
  match e with
  | LsGetItem key | LsSetItem key _ | LsRemoveItem key => Some key
  | _ => None
  end.

(** The browser-side mutable state outside React: [localStorage],
    [api.defaults.headers.common['Authorization']], and the quota of the
    store: [accepts entries key val] tells whether the store, holding
    [entries], takes [setItem(key, val)]; when it does not, [setItem]
    throws and the store is left as it was. *)
Record Browser := mkBrowser {
  localStorage : gmap jsstring jsstring;
  authorization : option jsstring;
  accepts : gmap jsstring jsstring -> jsstring -> jsstring -> bool
}.

(** A store that never runs out of room. *)
Definition unlimited : gmap jsstring jsstring -> jsstring -> jsstring -> bool :=
  fun _ _ _ => true.

Definition fresh_browser : Browser := mkBrowser ∅ None unlimited.

(** How the promise of [api.post] settles. *)
Inductive outcome :=
| Resolved (r : response)
| Rejected (err : error).

Inductive prog (S A : Type) : Type :=
| Ret (a : A)
| Throw (e : error)
| GetState (k : S -> prog S A)
| SetState (f : S -> S) (k : prog S A)
| GetItem (key : jsstring) (k : option jsstring -> prog S A)
| SetItem (key val : jsstring) (k : bool -> prog S A)
| RemoveItem (key : jsstring) (k : prog S A)
| SetAuthorization (h : option jsstring) (k : prog S A)
| Post (url : jsstring) (body : value) (k : outcome -> prog S A)
| Emit (e : effect) (k : prog S A).

Arguments Ret {S A} a.
Arguments Throw {S A} e.
Arguments GetState {S A} k.
Arguments SetState {S A} f k.
Arguments GetItem {S A} key k.
Arguments SetItem {S A} key val k.
Arguments RemoveItem {S A} key k.
Arguments SetAuthorization {S A} h k.
Arguments Post {S A} url body k.
Arguments Emit {S A} e k.

Fixpoint bind {S A B} (p : prog S A) (f : A -> prog S B) : prog S B :=
  match p with
  | Ret a => f a
  | Throw e => Throw e
  | GetState k => GetState (fun s => bind (k s) f)
  | SetState g k => SetState g (bind k f)
  | GetItem key k => GetItem key (fun v => bind (k v) f)
  | SetItem key val k => SetItem key val (fun ok => bind (k ok) f)
  | RemoveItem key k => RemoveItem key (bind k f)
  | SetAuthorization h k => SetAuthorization h (bind k f)
  | Post url body k => Post url body (fun o => bind (k o) f)
  | Emit e k => Emit e (bind k f)
  end.

#[global] Instance prog_ret {S} : MRet (prog S) := fun A a => Ret a.
#[global] Instance prog_bind {S} : MBind (prog S) := fun A B f p => bind p f.

(** [try { p } catch (error) { h error }] *)
Fixpoint try_catch {S A} (p : prog S A) (h : error -> prog S A) : prog S A :=
  match p with
  | Ret a => Ret a
  | Throw e => h e
  | GetState k => GetState (fun s => try_catch (k s) h)
  | SetState g k => SetState g (try_catch k h)
  | GetItem key k => GetItem key (fun v => try_catch (k v) h)
  | SetItem key val k => SetItem key val (fun ok => try_catch (k ok) h)
  | RemoveItem key k => RemoveItem key (try_catch k h)
  | SetAuthorization hd k => SetAuthorization hd (try_catch k h)
  | Post url body k => Post url body (fun o => try_catch (k o) h)
  | Emit e k => Emit e (try_catch k h)
  end.

(** [try { p } finally { f }]: [f] runs on every exit of [p], normal,
    by [return] or by exception. *)
Fixpoint finally {S A} (p : prog S A) (f : prog S unit) : prog S A :=
  match p with
  | Ret a => bind f (fun _ => Ret a)
  | Throw e => bind f (fun _ => Throw e)
  | GetState k => GetState (fun s => finally (k s) f)
  | SetState g k => SetState g (finally k f)
  | GetItem key k => GetItem key (fun v => finally (k v) f)
  | SetItem key val k => SetItem key val (fun ok => finally (k ok) f)
  | RemoveItem key k => RemoveItem key (finally k f)
  | SetAuthorization hd k => SetAuthorization hd (finally k f)
  | Post url body k => Post url body (fun o => finally (k o) f)
  | Emit e k => Emit e (finally k f)
  end.

Definition try_catch_finally {S A}
    (p : prog S A) (h : error -> prog S A) (f : prog S unit) : prog S A :=
  finally (try_catch p h) f.

(** Primitive statements. *)
Definition get_state {S} : prog S S := GetState Ret.
Definition set_state {S} (f : S -> S) : prog S unit := SetState f (Ret tt).
Definition localStorage_getItem {S} (key : jsstring) : prog S (option jsstring) :=
  GetItem key Ret.
(** [localStorage.setItem(key, val)] for a string [val]; the
    continuation of [SetItem] is told whether the store took the entry. *)
Definition localStorage_setItem {S} (key val : jsstring) : prog S unit :=
  SetItem key val (fun ok => if ok then Ret tt else Throw QuotaExceededError).
Definition localStorage_removeItem {S} (key : jsstring) : prog S unit :=
  RemoveItem key (Ret tt).
Definition set_authorization {S} (h : option jsstring) : prog S unit :=
  SetAuthorization h (Ret tt).
Definition toast {S} (kind : toast_kind) (msg : value) : prog S unit :=
  Emit (Toast kind msg) (Ret tt).
Definition console_error {S} (label : jsstring) (err : error) : prog S unit :=
  Emit (ConsoleError label err) (Ret tt).

(** [await api.post(url, body)]: the handler suspends; a rejected promise
    is rethrown at the [await]. *)
Definition api_post {S} (url : jsstring) (body : value) : prog S response :=
  Post url body (fun o =>
    match o with
    | Resolved r => Ret r
    | Rejected err => Throw err
    end).

(** A property read that throws a TypeError on [null] / [undefined]. *)
Definition read {S} (v : value) (k : jsstring) : prog S value :=
  match get v k with
  | Some x => Ret x
  | None => Throw TypeError
  end.

(** *** Semantics *)

Inductive result (A : Type) : Type :=
| Returned (a : A)
| Thrown (e : error).
Arguments Returned {A} a.
Arguments Thrown {A} e.

Record final (S A : Type) := mkFinal {
  res : result A;
  state : S;
  browser : Browser;
  log : list effect
}.
Arguments mkFinal {S A}.
Arguments res {S A}.
Arguments state {S A}.
Arguments browser {S A}.
Arguments log {S A}.

Definition with_storage (f : gmap jsstring jsstring -> gmap jsstring jsstring)
    (b : Browser) : Browser :=
  mkBrowser (f (localStorage b)) (authorization b) (accepts b).

Definition with_authorization (h : option jsstring) (b : Browser) : Browser :=
  mkBrowser (localStorage b) h (accepts b).

(** The same run with the effects [l] in front of its log. *)
Definition after_effects {S A} (l : list effect) (r : final S A) : final S A :=
  mkFinal (res r) (state r) (browser r) (l ++ log r).

Section Exec.
Context {S A : Type}.
(** The backend: how the promise of each request settles. *)
Variable net : jsstring -> value -> outcome.

(** Runs a handler to completion. *)
Fixpoint exec (p : prog S A) (s : S) (b : Browser) : final S A :=
  match p with
  | Ret a => mkFinal (Returned a) s b []
  | Throw e => mkFinal (Thrown e) s b []
  | GetState k => exec (k s) s b
  | SetState f k => exec k (f s) b
  | GetItem key k =>
      after_effects [LsGetItem key] (exec (k (localStorage b !! key)) s b)
  | SetItem key val k =>
      after_effects [LsSetItem key val]
        (if accepts b (localStorage b) key val
         then exec (k true) s (with_storage (insert key val) b)
         else exec (k false) s b)
  | RemoveItem key k =>
      after_effects [LsRemoveItem key] (exec k s (with_storage (delete key) b))
  | SetAuthorization h k => exec k s (with_authorization h b)
  | Post url body k =>
      after_effects [HttpPost url body] (exec (k (net url body)) s b)
  | Emit e k => after_effects [e] (exec k s b)
  end.
End Exec.

(** What the event loop sees of one activation of a handler: it ran to
    its end, or it is parked at an [await] with the rest of its body. *)
Inductive activation (S A : Type) : Type :=
| Finished (r : result A)
| Suspended (k : outcome -> prog S A).
Arguments Finished {S A} r.
Arguments Suspended {S A} k.

Record partial (S A : Type) := mkPartial {
  act : activation S A;
  pstate : S;
  pbrowser : Browser;
  plog : list effect
}.
Arguments mkPartial {S A}.
Arguments act {S A}.
Arguments pstate {S A}.
Arguments pbrowser {S A}.
Arguments plog {S A}.

Definition pafter_effects {S A} (l : list effect) (r : partial S A) : partial S A :=
  mkPartial (act r) (pstate r) (pbrowser r) (l ++ plog r).

(** Runs a handler up to its first [await]. *)
Fixpoint run {S A} (p : prog S A) (s : S) (b : Browser) : partial S A :=
  match p with
  | Ret a => mkPartial (Finished (Returned a)) s b []
  | Throw e => mkPartial (Finished (Thrown e)) s b []
  | GetState k => run (k s) s b
  | SetState f k => run k (f s) b
  | GetItem key k =>
      pafter_effects [LsGetItem key] (run (k (localStorage b !! key)) s b)
  | SetItem key val k =>
      pafter_effects [LsSetItem key val]
        (if accepts b (localStorage b) key val
         then run (k true) s (with_storage (insert key val) b)
         else run (k false) s b)
  | RemoveItem key k =>
      pafter_effects [LsRemoveItem key] (run k s (with_storage (delete key) b))
  | SetAuthorization h k => run k s (with_authorization h b)
  | Post url body k => mkPartial (Suspended k) s b [HttpPost url body]
  | Emit e k => pafter_effects [e] (run k s b)
  end.

(** A handler of a component run inside a larger state, of which the
    component's state is the part [get] / [set] select. *)
Fixpoint zoom {S T A} (get : T -> S) (set : S -> T -> T) (p : prog S A)
    : prog T A :=
  match p with
  | Ret a => Ret a
  | Throw e => Throw e
  | GetState k => GetState (fun t => zoom get set (k (get t)))
  | SetState f k => SetState (fun t => set (f (get t)) t) (zoom get set k)
  | GetItem key k => GetItem key (fun v => zoom get set (k v))
  | SetItem key val k => SetItem key val (fun ok => zoom get set (k ok))
  | RemoveItem key k => RemoveItem key (zoom get set k)
  | SetAuthorization h k => SetAuthorization h (zoom get set k)
  | Post url body k => Post url body (fun o => zoom get set (k o))
  | Emit e k => Emit e (zoom get set k)
  end.

(** [p] accesses [localStorage] at [key] only. *)
Fixpoint confined {S A} (key : jsstring) (p : prog S A) : Prop :=
  match p with
  | Ret _ | Throw _ => True
  | GetState k => forall s, confined key (k s)
  | SetState _ k => confined key k
  | GetItem key' k => key' = key /\ forall v, confined key (k v)
  | SetItem key' _ k => key' = key /\ forall ok, confined key (k ok)
  | RemoveItem key' k => key' = key /\ confined key k
  | SetAuthorization _ k => confined key k
  | Post _ _ k => forall o, confined key (k o)
  | Emit e k => is_storage_access e = false /\ confined key k
  end.

(** ** Dashboard.js *)

Module Dashboard.

Record FormData := mkFormData {
  crime_code : jsstring;
  jurisdiction : jsstring;
  additional_info : jsstring
}.

(** The [name] attribute of the three inputs of the form. *)
Inductive field := Crime_code | Jurisdiction | Additional_info.

Definition field_name (f : field) : jsstring :=
  match f with
  | Crime_code => js "crime_code"
  | Jurisdiction => js "jurisdiction"
  | Additional_info => js "additional_info"
  end.

(** [{ ...prev, [name]: value }] *)
Definition set_field (f : field) (v : jsstring) (prev : FormData) : FormData :=
  match f with
  | Crime_code => mkFormData v (jurisdiction prev) (additional_info prev)
  | Jurisdiction => mkFormData (crime_code prev) v (additional_info prev)
  | Additional_info => mkFormData (crime_code prev) (jurisdiction prev) v
  end.

(** The form data as the JSON body of a request. *)
Definition formData_value (fd : FormData) : value :=
  VObj [ (js "crime_code", VStr (crime_code fd));
         (js "jurisdiction", VStr (jurisdiction fd));
         (js "additional_info", VStr (additional_info fd)) ].

(** The [useState] cells of the component. *)
Record State := mkState {
  activeTab : jsstring;
  formData : FormData;
  loading : bool;
  confirmation : value;
  analysis : value;
  errors : gmap jsstring jsstring
}.

Definition emptyForm : FormData := mkFormData [] [] [].

(** The state at mount: the arguments of the [useState] calls. *)
Definition initial : State :=
  mkState (js "form") emptyForm false VNull VNull ∅.

Definition with_activeTab (v : jsstring) (s : State) : State :=
  mkState v (formData s) (loading s) (confirmation s) (analysis s) (errors s).
Definition with_formData (f : FormData -> FormData) (s : State) : State :=
  mkState (activeTab s) (f (formData s)) (loading s) (confirmation s) (analysis s) (errors s).
Definition with_loading (v : bool) (s : State) : State :=
  mkState (activeTab s) (formData s) v (confirmation s) (analysis s) (errors s).
Definition with_confirmation (v : value) (s : State) : State :=
  mkState (activeTab s) (formData s) (loading s) v (analysis s) (errors s).
Definition with_analysis (v : value) (s : State) : State :=
  mkState (activeTab s) (formData s) (loading s) (confirmation s) v (errors s).
Definition with_errors
    (f : gmap jsstring jsstring -> gmap jsstring jsstring) (s : State) : State :=
  mkState (activeTab s) (formData s) (loading s) (confirmation s) (analysis s) (f (errors s)).

Definition setActiveTab (v : jsstring) : prog State unit := set_state (with_activeTab v).
Definition setFormData (f : FormData -> FormData) : prog State unit :=
  set_state (with_formData f).
Definition setLoading (v : bool) : prog State unit := set_state (with_loading v).
Definition setConfirmation (v : value) : prog State unit := set_state (with_confirmation v).
Definition setAnalysis (v : value) : prog State unit := set_state (with_analysis v).
Definition setErrors
    (f : gmap jsstring jsstring -> gmap jsstring jsstring) : prog State unit :=
  set_state (with_errors f).

(** [Object.keys(o)] of an object used as a map. *)
Definition Object_keys (o : gmap jsstring jsstring) : list jsstring :=
  (map_to_list o).*1.

(** [errors[name]] as a condition: absent and empty are both falsy. *)
Definition has_error (errs : gmap jsstring jsstring) (name : jsstring) : bool :=
  match errs !! name with
  | Some m => str_truthy m
  | None => false
  end.

(** Lines 21-35. The handler closes over the [errors] of the render in
    which it was created. *)
Definition handleInputChange (name : field) (v : jsstring) : prog State unit :=
  st ← get_state;
  setFormData (set_field name v);;
  if has_error (errors st) (field_name name)
  then setErrors (fun prev => <[field_name name := []]> prev)
  else mret tt.

(** Lines 37-54. *)
Definition validateForm : prog State bool :=
  st ← get_state;
  let formData := formData st in
  let newErrors : gmap jsstring jsstring := ∅ in
  let newErrors :=
    if negb (str_truthy (trim (crime_code formData)))
    then <[js "crime_code" := js "Crime/Penal Code is required"]> newErrors
    else newErrors in
  let newErrors :=
    if negb (str_truthy (trim (jurisdiction formData)))
    then <[js "jurisdiction" := js "Jurisdiction is required"]> newErrors
    else newErrors in
  let newErrors :=
    if str_truthy (additional_info formData)
       && (1000 <? length (additional_info formData))
    then <[js "additional_info" :=
             js "Additional information must be 1000 characters or less"]> newErrors
    else newErrors in
  setErrors (fun _ => newErrors);;
  mret (length (Object_keys newErrors) =? 0).

(** Lines 56-76. [e.preventDefault()] only stops the browser from
    reloading the page. *)
Definition handleSubmitForConfirmation : prog State unit :=
  st ← get_state;
  valid ← validateForm;
  if negb valid then mret tt else
  try_catch_finally
    (setLoading true;;
     response ← api_post (js "/legal/confirm") (formData_value (formData st));
     setConfirmation (data response);;
     setActiveTab (js "confirmation");;
     toast ToastSuccess (VStr (js "Please review and confirm your information")))
    (fun error =>
       let errorMessage :=
         or_else (error_data error (js "error"))
                 (VStr (js "Failed to process request")) in
       toast ToastError errorMessage;;
       console_error (js "Confirmation error:") error)
    (setLoading false).

(** Lines 78-95. *)
Definition handleConfirmAndAnalyze : prog State unit :=
  st ← get_state;
  try_catch_finally
    (setLoading true;;
     setActiveTab (js "analyzing");;
     response ← api_post (js "/legal/analyze") (formData_value (formData st));
     setAnalysis (data response);;
     setActiveTab (js "results");;
     toast ToastSuccess (VStr (js "Analysis completed successfully!")))
    (fun error =>
       let errorMessage :=
         or_else (error_data error (js "error")) (VStr (js "Analysis failed")) in
       toast ToastError errorMessage;;
       console_error (js "Analysis error:") error;;
       setActiveTab (js "confirmation"))
    (setLoading false).

(** Lines 97-107. *)
Definition resetForm : prog State unit :=
  setFormData (fun _ => mkFormData [] [] []);;
  setConfirmation VNull;;
  setAnalysis VNull;;
  setErrors (fun _ => ∅);;
  setActiveTab (js "form").

(** The inline handler of the "Back to Edit" button, line 271. *)
Definition backToEdit : prog State unit := setActiveTab (js "form").

(** *** The results view

    What [renderResults] hands to React: elements with their class name,
    literal text, and the JavaScript values of the [{...}] children.
    Event handlers and [key] attributes are left out. A TypeError thrown
    while rendering is [None]. *)

#[local] Unset Elimination Schemes.
Inductive node : Type :=
| Element (tag className : string) (children : list node)
| Text (s : string)
| Child (v : value).
#[local] Set Elimination Schemes.

Definition icon (name : string) : node := Element name "" [].

(** [typeof v === 'object'] *)
Definition typeof_object (v : value) : bool :=
  match v with
  | VNull | VArr _ | VObj _ => true
  | _ => false
  end.

(** The decimal string of an array index. *)
Definition index_key (i : nat) : jsstring := js (pretty i).

(** [Object.entries(v)]: the properties of an object, the indexed
    elements of an array, the indexed code units of a string, nothing for
    a number or boolean, and a TypeError on [null] and [undefined]. *)
Definition Object_entries (v : value) : option (list (jsstring * value)) :=
  match v with
  | VUndefined | VNull => None
  | VObj props => Some props
  | VArr items => Some (imap (fun i x => (index_key i, x)) items)
  | VStr s => Some (imap (fun i c => (index_key i, VStr [c])) s)
  | VBool _ | VNum _ => Some []
  end.

(** [{v?.map((item, index) => f(item))}]: [undefined] when [v] is null or
    undefined, the mapped elements when it is an array, and a TypeError
    otherwise, as no other JSON value has a [map] method. *)
Definition optional_map (v : value) (f : value -> option node)
    : option (list node) :=
  match v with
  | VUndefined | VNull => Some [Child VUndefined]
  | VArr items => mapM f items
  | _ => None
  end.

Definition list_item (item : value) : option node :=
  Some (Element "li" "" [Child item]).

Section Render.
(** [String.prototype.toUpperCase], whose Unicode case tables are the
    runtime's. *)
Variable toUpperCase : jsstring -> jsstring.

Definition underscore : N := 95.
Definition space : N := 32.

(** Lines 372-374. *)
Definition renderPenaltyDetail (entry : jsstring * value) : node :=
  let '(key, value) := entry in
  Element "li" ""
    [ Element "strong" "" [Child (VStr (replace underscore space key)); Text ":"];
      Text " "; Child value ].

(** Lines 368-379. *)
Definition renderPenalty (entry : jsstring * value) : option node :=
  let '(type, penalty) := entry in
  detail ←
    (if typeof_object penalty then
       entries ← Object_entries penalty;
       Some (Element "ul" "" (List.map renderPenaltyDetail entries))
     else Some (Element "span" "" [Child penalty]));
  Some (Element "div" "penalty-type"
          [ Element "strong" ""
              [ Child (VStr (toUpperCase (replace underscore space type)));
                Text ":" ];
            detail ]).

(** Lines 349-385. *)
Definition renderLegalExplanation (analysis : value) : option (list node) :=
  legal_explanation ← get analysis (js "legal_explanation");
  if truthy legal_explanation then
    crime_name ← get legal_explanation (js "crime_name");
    simple_explanation ← get legal_explanation (js "simple_explanation");
    must_prove ← get legal_explanation (js "what_prosecution_must_prove");
    proofs ← optional_map must_prove list_item;
    penalties ← get legal_explanation (js "penalties");
    entries ← Object_entries (or_else penalties (VObj []));
    penalty_types ← mapM renderPenalty entries;
    Some
      [ Element "h4" "" [Child crime_name];
        Element "p" "simple-explanation" [Child simple_explanation];
        Element "div" "legal-details"
          [ Element "div" "detail-section"
              [ Element "h5" "" [Text "What the Prosecution Must Prove:"];
                Element "ul" "" proofs ];
            Element "div" "detail-section"
              [ Element "h5" "" [Text "Potential Penalties:"];
                Element "div" "penalties" penalty_types ] ] ]
  else Some [Child legal_explanation].

(** Lines 416-422. *)
Definition renderDefense (defense : value) : option node :=
  strategy ← get defense (js "strategy");
  success_rate ← get defense (js "success_rate");
  frequency ← get defense (js "frequency");
  Some (Element "div" "defense-item"
          [ Element "strong" "" [Child strategy];
            Element "div" "defense-stats"
              [ Element "span" "" [Text "Success Rate: "; Child success_rate; Text "%"];
                Element "span" "" [Text "Frequency: "; Child frequency; Text "%"] ] ]).

(** Lines 396-426. *)
Definition renderAnalytics (analysis : value) : option (list node) :=
  analytics ← get analysis (js "analytics");
  if truthy analytics then
    jurisdiction_stats ← get analytics (js "jurisdiction_stats");
    success_rates ← get analytics (js "success_rates");
    common_defenses ← get analytics (js "common_defenses");
    defenses ← optional_map common_defenses renderDefense;
    Some
      [ Element "div" "analytics-stats"
          [ Element "div" "stat-item"
              [ Element "span" "stat-value"
                  [Child (get_opt jurisdiction_stats (js "total_cases_last_year"))];
                Element "span" "stat-label" [Text "Cases Last Year"] ];
            Element "div" "stat-item"
              [ Element "span" "stat-value"
                  [Child (get_opt jurisdiction_stats (js "conviction_rate")); Text "%"];
                Element "span" "stat-label" [Text "Conviction Rate"] ];
            Element "div" "stat-item"
              [ Element "span" "stat-value"
                  [Child (get_opt success_rates (js "dismissal")); Text "%"];
                Element "span" "stat-label" [Text "Dismissal Rate"] ] ];
        Element "div" "common-defenses"
          (Element "h5" "" [Text "Common Defense Strategies:"] :: defenses) ]
  else Some [Child analytics].

(** Lines 443-455. *)
Definition renderCase (case_item : value) : option node :=
  case_name ← get case_item (js "case_name");
  relevance_score ← get case_item (js "relevance_score");
  key_issue ← get case_item (js "key_issue");
  outcome ← get case_item (js "outcome");
  summary ← get case_item (js "summary");
  legal_principle ← get case_item (js "legal_principle");
  citation ← get case_item (js "citation");
  Some (Element "div" "case-item"
          [ Element "div" "case-header"
              [ Element "h5" "" [Child case_name];
                Element "span" "relevance-score"
                  [Child relevance_score; Text "% relevant"] ];
            Element "div" "case-details"
              [ Element "p" "" [Element "strong" "" [Text "Key Issue:"]; Text " "; Child key_issue];
                Element "p" "" [Element "strong" "" [Text "Outcome:"]; Text " "; Child outcome];
                Element "p" "" [Element "strong" "" [Text "Summary:"]; Text " "; Child summary];
                Element "p" ""
                  [Element "strong" "" [Text "Legal Principle:"]; Text " ";
                   Child legal_principle];
                Element "p" "" [Element "strong" "" [Text "Citation:"]; Text " "; Child citation] ] ]).

(** Lines 437-459. *)
Definition renderPrecedents (analysis : value) : option (list node) :=
  precedents ← get analysis (js "precedents");
  if truthy precedents then
    total_cases_found ← get precedents (js "total_cases_found");
    cases ← get precedents (js "cases");
    case_items ← optional_map cases renderCase;
    Some
      [ Element "p" "cases-found"
          [Child total_cases_found; Text " relevant cases found"];
        Element "div" "precedent-cases" case_items ]
  else Some [Child precedents].

(** Lines 464-490. *)
Definition renderSummary (analysis : value) : option node :=
  summary ← get analysis (js "summary");
  if truthy summary then
    key_points ← get summary (js "key_points");
    points ← optional_map key_points list_item;
    recommended_actions ← get summary (js "recommended_actions");
    actions ← optional_map recommended_actions list_item;
    Some (Element "div" "result-card summary-card"
            [ Element "div" "result-card-header"
                [icon "Lightbulb"; Element "h3" "" [Text "Executive Summary"]];
              Element "div" "result-card-content"
                [ Element "div" "key-points"
                    [Element "h5" "" [Text "Key Points:"]; Element "ul" "" points];
                  Element "div" "recommended-actions"
                    [ Element "h5" "" [Text "Recommended Actions:"];
                      Element "ul" "" actions ] ] ])
  else Some (Child summary).

Definition result_card (icon_name title : string) (content : list node) : node :=
  Element "div" "result-card"
    [ Element "div" "result-card-header"
        [icon icon_name; Element "h3" "" [Text title]];
      Element "div" "result-card-content" content ].

(** Lines 331-504. *)
Definition renderResults (analysis : value) : option node :=
  if truthy analysis then
    legal ← renderLegalExplanation analysis;
    analytics ← renderAnalytics analysis;
    precedents ← renderPrecedents analysis;
    summary ← renderSummary analysis;
    Some (Element "div" "results-section fade-in"
            [ Element "div" "results-header"
                [ Element "CheckCircle" "success-icon" [];
                  Element "h2" "" [Text "Analysis Complete"];
                  Element "p" "" [Text "Comprehensive legal analysis for your case"] ];
              Element "div" "results-content"
                [ result_card "FileText" "Legal Decompiler" legal;
                  result_card "BarChart3" "Analytics Engine" analytics;
                  result_card "Search" "Precedent Explorer" precedents;
                  summary;
                  Element "div" "results-actions"
                    [Element "button" "btn btn-primary" [Text "New Analysis"]] ] ])
  else Some (Element "div" "results-section fade-in" [Child analysis]).

End Render.

(** The values of the [{...}] children of a tree, in document order. *)
Fixpoint children_of (n : node) : list value :=
  match n with
  | Element _ _ children => flat_map children_of children
  | Text _ => []
  | Child v => [v]
  end.

(** [toUpperCase] on strings of ASCII code units, where it maps a-z to
    A-Z. The examples upper-case no other string. *)
Definition ascii_toUpperCase (s : jsstring) : jsstring :=
  List.map (fun c => if ((97 <=? c) && (c <=? 122))%N then (c - 32)%N else c) s.

(** *** What React displays

    React turns the [{...}] children of a tree into text: nothing for
    [undefined], [null], a boolean and the empty string; a non-empty
    string as it is; a number as its decimal string; an array as its
    elements in turn. A plain object is not a valid child: on one React
    throws ("Objects are not valid as a React child") and the view does
    not render. *)

Section Display.
(** Number::toString, as in [AuthContext.ToString]. *)
Variable Number_toString : Q -> jsstring.

(** The text of one [{...}] child; [None] when React throws. *)
Fixpoint child_text (v : value) : option (list jsstring) :=
  match v with
  | VUndefined | VNull | VBool _ => Some []
  | VStr s => Some (if str_truthy s then [s] else [])
  | VNum q => Some [Number_toString q]
  | VArr items =>
      (fix each (l : list value) : option (list jsstring) :=
         match l with
         | [] => Some []
         | x :: l' =>
             match child_text x, each l' with
             | Some a, Some b => Some (a ++ b)
             | _, _ => None
             end
         end) items
  | VObj _ => None
  end.

(** The text of a sequence of [{...}] children. *)
Fixpoint texts (vs : list value) : option (list jsstring) :=
  match vs with
  | [] => Some []
  | v :: vs' =>
      match child_text v, texts vs' with
      | Some a, Some b => Some (a ++ b)
      | _, _ => None
      end
  end.

(** The text React displays for the [{...}] children of a tree, in
    document order; [None] when it throws. *)
Fixpoint displayed (n : node) : option (list jsstring) :=
  match n with
  | Element _ _ children =>
      (fix each (l : list node) : option (list jsstring) :=
         match l with
         | [] => Some []
         | c :: l' =>
             match displayed c, each l' with
             | Some a, Some b => Some (a ++ b)
             | _, _ => None
             end
         end) children
  | Text _ => Some []
  | Child v => child_text v
  end.

(** The outcome of rendering a view: the text displayed for its
    [{...}] children, or [None] when the render function throws or
    React does. *)
Definition rendered (view : option node) : option (list jsstring) :=
  view ≫= displayed.

End Display.

(** A value React accepts as a child: no object, nor an array that
    holds one at any depth. *)
Fixpoint renderable (v : value) : bool :=
  match v with
  | VObj _ => false
  | VArr items => forallb renderable items
  | _ => true
  end.

(** *** The content of the results view

    The values the results view is to display for a response, section
    by section and in document order. A section or a list the response
    lacks is displayed as [undefined]. *)

(** The items of a list of the response, each displayed as [fields]
    says. On a value that is neither absent nor an array the view
    throws. *)
Definition listed (v : value) (fields : value -> list value) : list value :=
  match v with
  | VArr items => flat_map fields items
  | _ => [VUndefined]
  end.

Definition itself (item : value) : list value := [item].

Section Content.
Variable toUpperCase : jsstring -> jsstring.

(** An entry of a penalty object: its key with the first underscore
    turned into a space, then its value. *)
Definition penalty_detail_values (entry : jsstring * value) : list value :=
  [VStr (replace underscore space entry.1); entry.2].

(** An entry of the penalties: its key with the first underscore turned
    into a space and upper-cased, then its value, or the entries of its
    value if that is an object. *)
Definition penalty_values (entry : jsstring * value) : list value :=
  VStr (toUpperCase (replace underscore space entry.1))
  :: (if typeof_object entry.2
      then flat_map penalty_detail_values (default [] (Object_entries entry.2))
      else [entry.2]).

Definition legal_values (analysis : value) : list value :=
  let le := get_opt analysis (js "legal_explanation") in
  if truthy le then
    [get_opt le (js "crime_name"); get_opt le (js "simple_explanation")]
    ++ listed (get_opt le (js "what_prosecution_must_prove")) itself
    ++ flat_map penalty_values
         (default [] (Object_entries (or_else (get_opt le (js "penalties")) (VObj []))))
  else [le].

Definition defense_values (defense : value) : list value :=
  [ get_opt defense (js "strategy"); get_opt defense (js "success_rate");
    get_opt defense (js "frequency") ].

Definition analytics_values (analysis : value) : list value :=
  let an := get_opt analysis (js "analytics") in
  if truthy an then
    [ get_opt (get_opt an (js "jurisdiction_stats")) (js "total_cases_last_year");
      get_opt (get_opt an (js "jurisdiction_stats")) (js "conviction_rate");
      get_opt (get_opt an (js "success_rates")) (js "dismissal") ]
    ++ listed (get_opt an (js "common_defenses")) defense_values
  else [an].

Definition case_values (case_item : value) : list value :=
  [ get_opt case_item (js "case_name"); get_opt case_item (js "relevance_score");
    get_opt case_item (js "key_issue"); get_opt case_item (js "outcome");
    get_opt case_item (js "summary"); get_opt case_item (js "legal_principle");
    get_opt case_item (js "citation") ].

Definition precedents_values (analysis : value) : list value :=
  let pr := get_opt analysis (js "precedents") in
  if truthy pr then
    get_opt pr (js "total_cases_found") :: listed (get_opt pr (js "cases")) case_values
  else [pr].

Definition summary_values (analysis : value) : list value :=
  let su := get_opt analysis (js "summary") in
  if truthy su then
    listed (get_opt su (js "key_points")) itself
    ++ listed (get_opt su (js "recommended_actions")) itself
  else [su].

(** The four sections in order; a falsy response is displayed itself. *)
Definition results_values (analysis : value) : list value :=
  if truthy analysis then
    legal_values analysis ++ analytics_values analysis
    ++ precedents_values analysis ++ summary_values analysis
  else [analysis].

End Content.

(** *** Vocabulary of the statements about the results view *)

(** [v] occurs in [w]: it is [w], an element of an array in [w], or the
    value of a property of an object in [w]. *)
Inductive subvalue (v : value) : value -> Prop :=
| subvalue_refl : subvalue v v
| subvalue_item items x : x ∈ items -> subvalue v x -> subvalue v (VArr items)
| subvalue_prop props k x : (k, x) ∈ props -> subvalue v x -> subvalue v (VObj props).

(** A value of the response, or [undefined]. *)
Definition known_in (response v : value) : Prop :=
  v = VUndefined \/ subvalue v response.

(** Every string in [v], property names included. *)
Fixpoint strings_of (v : value) : list jsstring :=
  match v with
  | VStr s => [s]
  | VArr items => flat_map strings_of items
  | VObj props => flat_map (fun kx => fst kx :: strings_of (snd kx)) props
  | _ => []
  end.

(** Every string the view displays is a string of the response. *)
Definition verbatim (response : value) (tree : node) : Prop :=
  forall s, VStr s ∈ children_of tree -> s ∈ strings_of response.

(** [(k, x)] is an entry of [Object.entries(w)]. *)
Definition entry_of (w : value) (k : jsstring) (x : value) : Prop :=
  exists entries, Object_entries w = Some entries /\ (k, x) ∈ entries.

(** [response.legal_explanation?.penalties], the value whose entries
    the penalties section lists. *)
Definition penalties_of (response : value) : value :=
  get_opt (get_opt response (js "legal_explanation")) (js "penalties").

(** Where a displayed value comes from. It is a value of the response
    as it is, or [undefined] for a field the response lacks. Or it
    belongs to the penalties section: an entry [(type, penalty)] of the
    penalties is shown as [type] with its first underscore turned into a
    space and upper-cased, followed by [penalty] as it is or, if
    [penalty] is an object, by its entries, each as its key with the
    first underscore turned into a space, followed by its value. *)
Inductive shown_from (toUpperCase : jsstring -> jsstring) (response : value)
    : value -> Prop :=
| shown_value v : subvalue v response -> shown_from toUpperCase response v
| shown_absent : shown_from toUpperCase response VUndefined
| shown_category type penalty :
    entry_of (penalties_of response) type penalty ->
    shown_from toUpperCase response
      (VStr (toUpperCase (replace underscore space type)))
| shown_penalty type penalty :
    entry_of (penalties_of response) type penalty ->
    shown_from toUpperCase response penalty
| shown_detail type penalty key x :
    entry_of (penalties_of response) type penalty ->
    typeof_object penalty = true ->
    entry_of penalty key x ->
    shown_from toUpperCase response (VStr (replace underscore space key)).

(** *** The component under the event loop

    A user event runs its handler up to the first [await]; the rest of the
    handler is parked until the request settles, and then runs against the
    state of that moment. The component stays mounted: logging out and a
    render that throws, which unmount it, end a run and add no state. *)

Inductive event : Type :=
| InputChange (name : field) (v : jsstring)
| Submit
| BackToEdit
| ProceedWithAnalysis
| NewAnalysis
| Settle (i : nat) (o : outcome).

Definition handler (e : event) : prog State unit :=
  match e with
  | InputChange name v => handleInputChange name v
  | Submit => handleSubmitForConfirmation
  | BackToEdit => backToEdit
  | ProceedWithAnalysis => handleConfirmAndAnalyze
  | NewAnalysis => resetForm
  | Settle _ _ => mret tt
  end.

Definition tab_is (s : State) (tab : string) : bool :=
  bool_decide (activeTab s = js tab).

(** Which controls the render of state [s] offers: the form and its
    inputs on the form tab ([disabled={loading}]), the two buttons of the
    confirmation tab once [confirmation] is set ([disabled={loading}]),
    and the "New Analysis" button of the results tab once [analysis] is
    set. *)
Definition enabled (s : State) (e : event) : bool :=
  match e with
  | InputChange _ _ | Submit => tab_is s "form" && negb (loading s)
  | BackToEdit | ProceedWithAnalysis =>
      tab_is s "confirmation" && truthy (confirmation s) && negb (loading s)
  | NewAnalysis => tab_is s "results" && truthy (analysis s)
  | Settle _ _ => true
  end.

Record config := mkConfig {
  cstate : State;
  cbrowser : Browser;
  pending : list (outcome -> prog State unit)
}.

Definition mount (b : Browser) : config := mkConfig initial b [].

Definition dispatch (p : prog State unit) (c : config)
    (parked : list (outcome -> prog State unit)) : config * list effect :=
  let r := run p (cstate c) (cbrowser c) in
  (mkConfig (pstate r) (pbrowser r)
     match act r with
     | Finished _ => parked
     | Suspended k => parked ++ [k]
     end,
   plog r).

Definition step (c : config) (e : event) : option (config * list effect) :=
  match e with
  | Settle i o =>
      match pending c !! i with
      | Some k => Some (dispatch (k o) c (delete i (pending c)))
      | None => None
      end
  | _ =>
      if enabled (cstate c) e
      then Some (dispatch (handler e) c (pending c))
      else None
  end.

Inductive reachable : config -> Prop :=
| reachable_mount b : reachable (mount b)
| reachable_step c e c' l :
    reachable c -> step c e = Some (c', l) -> reachable c'.

Fixpoint steps (c : config) (es : list event) : option config :=
  match es with
  | [] => Some c
  | e :: es' =>
      match step c e with
      | Some (c', _) => steps c' es'
      | None => None
      end
  end.

(** *** Sample data *)

Definition sample_confirmation : value :=
  VObj [ (js "summary", VStr (js "DUI charge in California"));
         (js "key_details", VArr [VStr (js "Vehicle Code 23152")]);
         (js "questions", VArr [VStr (js "Is this a first offense?")]);
         (js "next_steps", VStr (js "Proceed with the analysis")) ].

Definition sample_analysis : value :=
  VObj
    [ (js "legal_explanation",
       VObj [ (js "crime_name", VStr (js "Driving Under the Influence"));
              (js "simple_explanation", VStr (js "Driving while impaired"));
              (js "what_prosecution_must_prove",
               VArr [VStr (js "You were driving"); VStr (js "You were impaired")]);
              (js "penalties",
               VObj [ (js "first_offense",
                       VObj [(js "max_fine", VStr (js "$1,000"))]) ]) ]);
      (js "summary",
       VObj [ (js "key_points", VArr [VStr (js "Misdemeanor")]);
              (js "recommended_actions", VArr [VStr (js "Consult an attorney")]) ]) ].

Definition sample_form : FormData :=
  mkFormData (js "DUI") (js "California") [].

Definition filled_in : State := with_formData (fun _ => sample_form) initial.

(** A backend that answers every request with the sample confirmation,
    and one that is unreachable. *)
Definition confirming : jsstring -> value -> outcome :=
  fun _ _ => Resolved (mkResponse sample_confirmation).
Definition unreachable : jsstring -> value -> outcome :=
  fun _ _ => Rejected (mkError None).

(** The user fills in the two required fields and submits; the backend
    answers with a confirmation. *)
Definition to_confirmation : list event :=
  [ InputChange Crime_code (js "DUI");
    InputChange Jurisdiction (js "California");
    Submit;
    Settle 0 (Resolved (mkResponse sample_confirmation)) ].

Definition at_confirmation : config :=
  mkConfig
    (mkState (js "confirmation") sample_form false sample_confirmation VNull ∅)
    fresh_browser [].

Definition at_results : config :=
  mkConfig
    (mkState (js "results") sample_form false sample_confirmation sample_analysis ∅)
    fresh_browser [].

(** *** Vocabulary of the statements about the workflow *)

Definition crime_code_missing (fd : FormData) : Prop := trim (crime_code fd) = [].
Definition jurisdiction_missing (fd : FormData) : Prop := trim (jurisdiction fd) = [].
Definition additional_info_too_long (fd : FormData) : Prop :=
  1000 < length (additional_info fd).

(** What [validateForm] returns and which [errors] it sets. *)
Definition validation_of (fd : FormData) (accepted : bool)
    (errs : gmap jsstring jsstring) : Prop :=
  (accepted = true <->
     trim (crime_code fd) <> [] /\ trim (jurisdiction fd) <> []
     /\ length (additional_info fd) <= 1000)
  /\ (errs !! js "crime_code" = Some (js "Crime/Penal Code is required")
      <-> crime_code_missing fd)
  /\ (errs !! js "jurisdiction" = Some (js "Jurisdiction is required")
      <-> jurisdiction_missing fd)
  /\ (errs !! js "additional_info"
        = Some (js "Additional information must be 1000 characters or less")
      <-> additional_info_too_long fd)
  /\ (forall k, is_Some (errs !! k) ->
        k = js "crime_code" /\ crime_code_missing fd
        \/ k = js "jurisdiction" /\ jurisdiction_missing fd
        \/ k = js "additional_info" /\ additional_info_too_long fd).

(** The linear order of the workflow. *)
Definition tab_rank (tab : jsstring) : option nat :=
  if decide (tab = js "form") then Some 0
  else if decide (tab = js "confirmation") then Some 1
  else if decide (tab = js "analyzing") then Some 2
  else if decide (tab = js "results") then Some 3
  else None.

Definition known_tab (tab : jsstring) : Prop :=
  tab = js "form" \/ tab = js "confirmation"
  \/ tab = js "analyzing" \/ tab = js "results".

(** A move that does not go back in the linear order. *)
Definition forward (a b : jsstring) : Prop :=
  exists m n, tab_rank a = Some m /\ tab_rank b = Some n /\ m <= n.

(** The moves of [activeTab] that the handlers make. *)
Definition edge (a b : jsstring) : Prop :=
  a = b
  \/ a = js "form" /\ b = js "confirmation"
  \/ a = js "confirmation" /\ b = js "analyzing"
  \/ a = js "analyzing" /\ b = js "results"
  \/ a = js "confirmation" /\ b = js "form"
  \/ a = js "analyzing" /\ b = js "confirmation"
  \/ a = js "results" /\ b = js "form".

(** What the event loop observes when the request of
    [handleSubmitForConfirmation] settles with [o] in state [s]. *)
Definition submit_settled (o : outcome) (s : State) (b : Browser)
    : partial State unit :=
  match o with
  | Resolved r =>
      mkPartial (Finished (Returned tt))
        (with_loading false
           (with_activeTab (js "confirmation") (with_confirmation (data r) s)))
        b
        [Toast ToastSuccess (VStr (js "Please review and confirm your information"))]
  | Rejected e =>
      mkPartial (Finished (Returned tt)) (with_loading false s) b
        [Toast ToastError
           (or_else (error_data e (js "error")) (VStr (js "Failed to process request")));
         ConsoleError (js "Confirmation error:") e]
  end.

(** The same for the request of [handleConfirmAndAnalyze]. *)
Definition analyze_settled (o : outcome) (s : State) (b : Browser)
    : partial State unit :=
  match o with
  | Resolved r =>
      mkPartial (Finished (Returned tt))
        (with_loading false
           (with_activeTab (js "results") (with_analysis (data r) s)))
        b
        [Toast ToastSuccess (VStr (js "Analysis completed successfully!"))]
  | Rejected e =>
      mkPartial (Finished (Returned tt))
        (with_loading false (with_activeTab (js "confirmation") s)) b
        [Toast ToastError
           (or_else (error_data e (js "error")) (VStr (js "Analysis failed")));
         ConsoleError (js "Analysis error:") e]
  end.

(** [k] is the rest of handler [p], as parked at its [await]. *)
Definition parked_by (p : prog State unit) (k : outcome -> prog State unit) : Prop :=
  exists s b, act (run p s b) = Suspended k.

(** No request is in flight. *)
Definition idle (c : config) : Prop :=
  pending c = [] /\ loading (cstate c) = false
  /\ known_tab (activeTab (cstate c)).

(** Exactly one request is in flight, sent by handler [p], and the
    component shows [tab] with its controls disabled. *)
Definition awaiting (p : prog State unit) (tab : string) (c : config) : Prop :=
  exists k, pending c = [k] /\ parked_by p k
            /\ loading (cstate c) = true /\ activeTab (cstate c) = js tab.

Definition inv (c : config) : Prop :=
  idle c
  \/ awaiting handleSubmitForConfirmation "form" c
  \/ awaiting handleConfirmAndAnalyze "analyzing" c.

(** *** The confirmation view *)

(** [v.map((item, index) => f(item))] with no [?.]: the mapped elements of
    an array, and a TypeError on any other JSON value, which is null or
    undefined or has no [map] method. *)
Definition mapped (v : value) (f : value -> node) : option (list node) :=
  match v with
  | VArr items => Some (List.map f items)
  | _ => None
  end.

(** Lines 247-250 and 259. *)
Definition renderDetail (detail : value) : node :=
  Element "li" "" [icon "CheckCircle"; Child detail].
Definition renderQuestion (question : value) : node :=
  Element "li" "" [Child question].

(** Lines 228-295. The text of the second button is a literal of the
    source on either branch of [loading]. *)
Definition renderConfirmation (loading : bool) (confirmation : value)
    : option node :=
  let header :=
    Element "div" "confirmation-header"
      [ Element "AlertCircle" "confirmation-icon" [];
        Element "h2" "" [Text "Confirm Your Information"];
        Element "p" ""
          [Text "Please review the details before proceeding with analysis"] ] in
  if truthy confirmation then
    summary ← get confirmation (js "summary");
    key_details ← get confirmation (js "key_details");
    details ← mapped key_details renderDetail;
    questions ← get confirmation (js "questions");
    asked ← mapped questions renderQuestion;
    next_steps ← get confirmation (js "next_steps");
    Some (Element "div" "confirmation-section fade-in"
            [ header;
              Element "div" "confirmation-content"
                [ Element "div" "confirmation-summary"
                    [ Element "h3" "" [Text "AI Analysis Summary:"];
                      Element "p" "" [Child summary] ];
                  Element "div" "confirmation-details"
                    [ Element "h3" "" [Text "Key Details:"];
                      Element "ul" "" details ];
                  Element "div" "confirmation-questions"
                    [ Element "h3" "" [Text "Please Verify:"];
                      Element "ul" "" asked ];
                  Element "div" "confirmation-next"
                    [ Element "h3" "" [Text "Next Steps:"];
                      Element "p" "" [Child next_steps] ];
                  Element "div" "confirmation-actions"
                    [ Element "button" "btn btn-secondary" [Text "Back to Edit"];
                      Element "button" "btn btn-primary"
                        (if loading
                         then [ Element "div" "loading-spinner" [];
                                Text "Analyzing..." ]
                         else [Text "Proceed with Analysis"]) ] ] ])
  else Some (Element "div" "confirmation-section fade-in"
               [header; Child confirmation]).

(** *** Further vocabulary *)

(** The elements of an array. *)
Definition items_of (v : value) : list value :=
  match v with VArr items => items | _ => [] end.

(** The values the confirmation view is to display for an answer, in
    document order: the summary, the key details, the questions and the
    next steps; a falsy answer is displayed itself. *)
Definition confirmation_values (confirmation : value) : list value :=
  if truthy confirmation then
    [get_opt confirmation (js "summary")]
    ++ items_of (get_opt confirmation (js "key_details"))
    ++ items_of (get_opt confirmation (js "questions"))
    ++ [get_opt confirmation (js "next_steps")]
  else [confirmation].

(** [formData[name]] *)
Definition get_field (f : field) (fd : FormData) : jsstring :=
  match f with
  | Crime_code => crime_code fd
  | Jurisdiction => jurisdiction fd
  | Additional_info => additional_info fd
  end.

(** The form data passes the rules of [validateForm]. *)
Definition valid_form (fd : FormData) : Prop :=
  trim (crime_code fd) <> [] /\ trim (jurisdiction fd) <> []
  /\ length (additional_info fd) <= 1000.

Definition is_array (v : value) : bool :=
  match v with VArr _ => true | _ => false end.

Definition is_null (v : value) : bool :=
  match v with VNull => true | _ => false end.

Definition nullish (v : value) : bool :=
  match v with VUndefined | VNull => true | _ => false end.

(** [v] is absent or an array all of whose items satisfy [each]. *)
Definition listable (each : value -> bool) (v : value) : bool :=
  match v with
  | VUndefined | VNull => true
  | VArr items => forallb each items
  | _ => false
  end.

Definition any_item (item : value) : bool := true.
Definition object_item (item : value) : bool := negb (nullish item).

(** No entry of the penalties is [null]. *)
Definition penalties_shape (penalties : value) : bool :=
  match Object_entries (or_else penalties (VObj [])) with
  | Some entries => forallb (fun kx => negb (is_null (snd kx))) entries
  | None => false
  end.

(** The shape of a response that the results view can render: under
    each of its four sections that is present, every list is absent or
    an array, no defense or case is null or undefined, and no penalty is
    null. *)
Definition results_shape (analysis : value) : bool :=
  if truthy analysis then
    (let le := get_opt analysis (js "legal_explanation") in
     if truthy le
     then listable any_item (get_opt le (js "what_prosecution_must_prove"))
          && penalties_shape (get_opt le (js "penalties"))
     else true)
    && (let an := get_opt analysis (js "analytics") in
        if truthy an
        then listable object_item (get_opt an (js "common_defenses"))
        else true)
    && (let pr := get_opt analysis (js "precedents") in
        if truthy pr then listable object_item (get_opt pr (js "cases")) else true)
    && (let su := get_opt analysis (js "summary") in
        if truthy su
        then listable any_item (get_opt su (js "key_points"))
             && listable any_item (get_opt su (js "recommended_actions"))
        else true)
  else true.

(** The ways the component handles an event: what it logs and the state
    it moves to. *)
Inductive transition (s : State) : event -> list effect -> State -> Prop :=
| input_changed name v s' :
    activeTab s = js "form" -> loading s = false ->
    formData s' = set_field name v (formData s) ->
    activeTab s' = activeTab s -> loading s' = loading s ->
    confirmation s' = confirmation s -> analysis s' = analysis s ->
    transition s (InputChange name v) [] s'
| submit_rejected errs :
    activeTab s = js "form" -> loading s = false ->
    validation_of (formData s) false errs ->
    transition s Submit [] (with_errors (fun _ => errs) s)
| submit_sent errs :
    activeTab s = js "form" -> loading s = false ->
    validation_of (formData s) true errs ->
    transition s Submit
      [HttpPost (js "/legal/confirm") (formData_value (formData s))]
      (with_loading true (with_errors (fun _ => errs) s))
| edit_again :
    activeTab s = js "confirmation" -> loading s = false ->
    transition s BackToEdit [] (with_activeTab (js "form") s)
| analysis_sent :
    activeTab s = js "confirmation" -> loading s = false ->
    transition s ProceedWithAnalysis
      [HttpPost (js "/legal/analyze") (formData_value (formData s))]
      (with_activeTab (js "analyzing") (with_loading true s))
| started_over :
    activeTab s = js "results" -> loading s = false ->
    transition s NewAnalysis []
      (mkState (js "form") emptyForm false VNull VNull ∅)
| confirm_settled i o b :
    activeTab s = js "form" -> loading s = true ->
    transition s (Settle i o)
      (plog (submit_settled o s b)) (pstate (submit_settled o s b))
| analyze_settled_ i o b :
    activeTab s = js "analyzing" -> loading s = true ->
    transition s (Settle i o)
      (plog (analyze_settled o s b)) (pstate (analyze_settled o s b)).

(** A state in which no control of the dashboard does anything. *)
Definition stranded (c : config) : Prop := forall e, step c e = None.

(** The state of the component while the request of a submitted form is
    in flight. *)
Definition submitted : config :=
  match steps (mount fresh_browser)
          [ InputChange Crime_code (js "DUI");
            InputChange Jurisdiction (js "California");
            Submit ] with
  | Some c => c
  | None => mount fresh_browser
  end.

(** The state while the analysis of the sample form is in flight. *)
Definition analyzing : config :=
  match step at_confirmation ProceedWithAnalysis with
  | Some (c, _) => c
  | None => at_confirmation
  end.

Definition to_empty_confirmation : list event :=
  [ InputChange Crime_code (js "DUI");
    InputChange Jurisdiction (js "California");
    Submit;
    Settle 0 (Resolved (mkResponse VNull)) ].

Definition at_empty_confirmation : config :=
  mkConfig (mkState (js "confirmation") sample_form false VNull VNull ∅)
    fresh_browser [].

End Dashboard.

(** ** AuthContext.js *)

Module AuthContext.

Record State := mkState {
  user : value;
  loading : bool;
  isAuthenticated : bool
}.

Definition initial : State := mkState VNull true false.

Definition setUser (v : value) : prog State unit :=
  set_state (fun s => mkState v (loading s) (isAuthenticated s)).
Definition setLoading (v : bool) : prog State unit :=
  set_state (fun s => mkState (user s) v (isAuthenticated s)).
Definition setIsAuthenticated (v : bool) : prog State unit :=
  set_state (fun s => mkState (user s) (loading s) v).

Definition precedent_token : jsstring := js "precedent_token".

(** [if (token)] on the result of [getItem]: [null] and the empty string
    are falsy. *)
Definition token_truthy (token : option jsstring) : bool :=
  match token with
  | Some t => str_truthy t
  | None => false
  end.

(** [`Bearer ${t}`] *)
Definition bearer (t : jsstring) : jsstring := js "Bearer " ++ t.

(** Lines 24-44. *)
Definition checkAuthStatus : prog State unit :=
  try_catch_finally
    (token ← localStorage_getItem precedent_token;
     match token with
     | Some t =>
         if str_truthy t then
           response ← api_post (js "/auth/verify") (VObj [(js "token", VStr t)]);
           success ← read (data response) (js "success");
           if truthy success then
             username ← read (data response) (js "username");
             setUser (VObj [(js "username", username)]);;
             setIsAuthenticated true;;
             set_authorization (Some (bearer t))
           else
             localStorage_removeItem precedent_token
         else mret tt
     | None => mret tt
     end)
    (fun error =>
       console_error (js "Auth check failed:") error;;
       localStorage_removeItem precedent_token)
    (setLoading false).

(** The object [login] resolves to. *)
Record LoginResult := mkLoginResult {
  success : bool;
  message : value
}.

Section ToString.
(** Number::toString, the one part of ToString that is floating-point
    formatting. *)
Variable Number_toString : Q -> jsstring.

Definition join_comma (parts : list jsstring) : jsstring :=
  match parts with
  | [] => []
  | p :: ps => p ++ concat (List.map (fun q => js "," ++ q) ps)
  end.

(** Whether an object has an own property [k]. *)
Definition has_own (k : jsstring) (props : list (jsstring * value)) : bool :=
  existsb (fun entry => bool_decide (entry.1 = k)) props.

(** ToString, as applied by [localStorage.setItem] and by a template
    literal; [None] is a TypeError. An array is joined by
    [Array.prototype.join], which converts its elements in turn. An
    object goes through OrdinaryToPrimitive: without an own [toString]
    it inherits [Object.prototype.toString]; an own [toString] of a JSON
    object is not callable, and [valueOf] (own and not callable, or the
    inherited one, which returns the object) gives no primitive either,
    so the conversion throws. *)
Fixpoint ToString (v : value) : option jsstring :=
  match v with
  | VUndefined => Some (js "undefined")
  | VNull => Some (js "null")
  | VBool true => Some (js "true")
  | VBool false => Some (js "false")
  | VNum q => Some (Number_toString q)
  | VStr s => Some s
  | VArr items =>
      join_comma <$>
        (fix elements (l : list value) : option (list jsstring) :=
           match l with
           | [] => Some []
           | x :: l' =>
               match match x with
                     | VUndefined | VNull => Some []
                     | _ => ToString x
                     end with
               | Some part =>
                   match elements l' with
                   | Some parts => Some (part :: parts)
                   | None => None
                   end
               | None => None
               end
           end) items
  | VObj props =>
      if has_own (js "toString") props then None
      else Some (js "[object Object]")
  end.

(** A conversion to a string inside a handler. *)
Definition to_string (v : value) : prog State jsstring :=
  match ToString v with
  | Some text => Ret text
  | None => Throw TypeError
  end.

(** Lines 46-80. *)
Definition login (username password : jsstring) : prog State LoginResult :=
  try_catch_finally
    (setLoading true;;
     response ← api_post (js "/auth/login")
                  (VObj [(js "username", VStr username);
                         (js "password", VStr password)]);
     success ← read (data response) (js "success");
     if truthy success then
       token ← read (data response) (js "token");
       returnedUsername ← read (data response) (js "username");
       stored ← to_string token;
       localStorage_setItem precedent_token stored;;
       setUser (VObj [(js "username", returnedUsername)]);;
       setIsAuthenticated true;;
       header ← to_string token;
       set_authorization (Some (bearer header));;
       toast ToastSuccess (VStr (js "Login successful! Welcome to PRECEDENT."));;
       mret (mkLoginResult true VUndefined)
     else
       shown ← read (data response) (js "message");
       toast ToastError (or_else shown (VStr (js "Login failed")));;
       message ← read (data response) (js "message");
       mret (mkLoginResult false message))
    (fun error =>
       let errorMessage :=
         or_else (error_data error (js "message"))
                 (VStr (js "Login failed. Please try again.")) in
       toast ToastError errorMessage;;
       mret (mkLoginResult false errorMessage))
    (setLoading false).
End ToString.

(** Number::toString on the integers of magnitude below 10^21, which
    print in plain decimal. The examples convert no other number. *)
Definition integer_toString (q : Q) : jsstring :=
  js (pretty (Qnum q `div` Z.pos (Qden q))%Z).

(** Lines 82-88. *)
Definition logout : prog State unit :=
  localStorage_removeItem precedent_token;;
  set_authorization None;;
  setUser VNull;;
  setIsAuthenticated false;;
  toast ToastInfo (VStr (js "You have been logged out.")).

(** *** Vocabulary of the statements about the session *)

(** The verify endpoint reports success for token [t]. *)
Definition verified (net : jsstring -> value -> outcome) (t : jsstring) : Prop :=
  exists answer,
    net (js "/auth/verify") (VObj [(js "token", VStr t)]) = Resolved answer
    /\ truthy (get_opt (data answer) (js "success")) = true.

Definition login_request (username password : jsstring) : value :=
  VObj [(js "username", VStr username); (js "password", VStr password)].

(** The login endpoint reports success with [answer]. *)
Definition logged_in (net : jsstring -> value -> outcome)
    (username password : jsstring) (answer : response) : Prop :=
  net (js "/auth/login") (login_request username password) = Resolved answer
  /\ truthy (get_opt (data answer) (js "success")) = true.

(** The token of [answer] can be kept in the browser [b]: it converts
    to the string [text], and the store takes [text] under the key of
    the session. *)
Definition storable (Number_toString : Q -> jsstring) (b : Browser)
    (answer : response) (text : jsstring) : Prop :=
  ToString Number_toString (get_opt (data answer) (js "token")) = Some text
  /\ accepts b (localStorage b) precedent_token text = true.

(** The text of [login]'s [catch] branch for an error without a
    message of its own. *)
Definition login_fallback : value := VStr (js "Login failed. Please try again.").

(** The message of a failed [login] whose request settled as [o]: the
    [message] of the body when the body reports a failure, which is
    [undefined] if the body carries none; the fallback text when the
    body is [null] or [undefined] (reading it throws) and when it
    reports success (the failure is then that of storing the token);
    the message of the error response, or the fallback text, when the
    request was rejected. *)
Definition login_message (o : outcome) : value :=
  match o with
  | Resolved answer =>
      match get (data answer) (js "success") with
      | Some reported =>
          if truthy reported then login_fallback
          else get_opt (data answer) (js "message")
      | None => login_fallback
      end
  | Rejected e => or_else (error_data e (js "message")) login_fallback
  end.

(** The body of the answer, if the endpoint answered. *)
Definition data_of (o : outcome) : value :=
  match o with
  | Resolved answer => data answer
  | Rejected _ => VUndefined
  end.

(** The endpoint answered with a body that reports a failure. *)
Definition refused (o : outcome) : Prop :=
  exists answer reported,
    o = Resolved answer
    /\ get (data answer) (js "success") = Some reported
    /\ truthy reported = false.

(** A token is stored: [getItem] gives a non-empty string. *)
Definition has_token (b : Browser) : Prop :=
  token_truthy (localStorage b !! precedent_token) = true.

(** *** Sample data *)

(** The initial state once a handler has cleared [loading]. *)
Definition initial_loaded : State := mkState VNull false false.

Definition signed_in : State :=
  mkState (VObj [(js "username", VStr (js "onebaldegg"))]) false true.

Definition with_token : Browser :=
  mkBrowser {[ precedent_token := js "abc123" ]} (Some (bearer (js "abc123")))
    unlimited.

(** A login endpoint that refuses without giving a reason. *)
Definition refusing : jsstring -> value -> outcome :=
  fun _ _ => Resolved (mkResponse (VObj [(js "success", VBool false)])).

(** An endpoint that accepts every login and every token. *)
Definition accepting : jsstring -> value -> outcome :=
  fun _ _ => Resolved (mkResponse
    (VObj [ (js "success", VBool true);
            (js "token", VStr (js "abc123"));
            (js "username", VStr (js "onebaldegg")) ])).

(** An endpoint that accepts every login with a token that is an object
    with a [toString] entry, [{"toString": 1}]. *)
Definition accepting_oddly : jsstring -> value -> outcome :=
  fun _ _ => Resolved (mkResponse
    (VObj [ (js "success", VBool true);
            (js "token", VObj [(js "toString", VNum 1)]);
            (js "username", VStr (js "onebaldegg")) ])).

(** A browser whose store is full. *)
Definition full_browser : Browser := mkBrowser ∅ None (fun _ _ _ => false).

(** *** The session under a sequence of calls *)

Inductive call : Type :=
| CallCheckAuthStatus
| CallLogin (username password : jsstring)
| CallLogout.

Definition invoke (Number_toString : Q -> jsstring) (c : call) : prog State unit :=
  match c with
  | CallCheckAuthStatus => checkAuthStatus
  | CallLogin username password =>
      bind (login Number_toString username password) (fun _ => Ret tt)
  | CallLogout => logout
  end.

(** The states of the provider and the browser after a page load, where
    the [api] client has no Authorization header yet and the store has
    any contents and any quota, and any calls of the three functions,
    each against any backend. *)
Inductive session (Number_toString : Q -> jsstring) : State -> Browser -> Prop :=
| session_load ls quota :
    session Number_toString initial (mkBrowser ls None quota)
| session_call s b net c :
    session Number_toString s b ->
    session Number_toString
      (state (exec net (invoke Number_toString c) s b))
      (browser (exec net (invoke Number_toString c) s b)).

(** The flag, the user and the header say the same thing. *)
Definition coherent (s : State) (b : Browser) : Prop :=
  if isAuthenticated s
  then (exists name, user s = VObj [(js "username", name)])
       /\ (exists t, authorization b = Some (bearer t))
  else user s = VNull /\ authorization b = None.

End AuthContext.

(** ** LoginPage.js *)

Module LoginPage.

Record FormData := mkFormData {
  username : jsstring;
  password : jsstring
}.

Inductive field := Username | Password.

Definition field_name (f : field) : jsstring :=
  match f with
  | Username => js "username"
  | Password => js "password"
  end.

Definition set_field (f : field) (v : jsstring) (prev : FormData) : FormData :=
  match f with
  | Username => mkFormData v (password prev)
  | Password => mkFormData (username prev) v
  end.

Record State := mkState {
  formData : FormData;
  showPassword : bool;
  errors : gmap jsstring value
}.

Definition initial : State := mkState (mkFormData [] []) false ∅.

Definition setFormData (f : FormData -> FormData) : prog State unit :=
  set_state (fun s => mkState (f (formData s)) (showPassword s) (errors s)).
Definition setShowPassword (v : bool) : prog State unit :=
  set_state (fun s => mkState (formData s) v (errors s)).
Definition setErrors
    (f : gmap jsstring value -> gmap jsstring value) : prog State unit :=
  set_state (fun s => mkState (formData s) (showPassword s) (f (errors s))).

Definition has_error (errs : gmap jsstring value) (name : jsstring) : bool :=
  match errs !! name with
  | Some m => truthy m
  | None => false
  end.

(** Lines 16-30. *)
Definition handleChange (name : field) (v : jsstring) : prog State unit :=
  st ← get_state;
  setFormData (set_field name v);;
  if has_error (errors st) (field_name name)
  then setErrors (fun prev => <[field_name name := VStr []]> prev)
  else mret tt.

(** Lines 32-45. *)
Definition validateForm : prog State bool :=
  st ← get_state;
  let formData := formData st in
  let newErrors : gmap jsstring value := ∅ in
  let newErrors :=
    if negb (str_truthy (trim (username formData)))
    then <[js "username" := VStr (js "Username is required")]> newErrors
    else newErrors in
  let newErrors :=
    if negb (str_truthy (trim (password formData)))
    then <[js "password" := VStr (js "Password is required")]> newErrors
    else newErrors in
  setErrors (fun _ => newErrors);;
  mret (length (map_to_list newErrors).*1 =? 0).

(** The page together with the AuthContext it consumes through
    [useAuth]. *)
Definition Ctx : Type := AuthContext.State * State.

Definition in_auth {A} (p : prog AuthContext.State A) : prog Ctx A :=
  zoom fst (fun a c => (a, snd c)) p.
Definition in_page {A} (p : prog State A) : prog Ctx A :=
  zoom snd (fun l c => (fst c, l)) p.

(** Lines 47-61; [login] is the function the context provides. *)
Definition handleSubmit
    (login : jsstring -> jsstring -> prog AuthContext.State AuthContext.LoginResult)
    : prog Ctx unit :=
  ctx ← get_state;
  let formData := formData (snd ctx) in
  valid ← in_page validateForm;
  if negb valid then mret tt else
  result ← in_auth (login (username formData) (password formData));
  if negb (AuthContext.success result)
  then in_page (setErrors (fun _ =>
         {[ js "general" :=
              or_else (AuthContext.message result)
                (VStr (js "Login failed. Please check your credentials.")) ]}))
  else mret tt.

(** The inline handler of the show-password button. *)
Definition togglePassword : prog State unit :=
  st ← get_state;
  setShowPassword (negb (showPassword st)).

(** *** Further vocabulary *)

Definition get_field (f : field) (fd : FormData) : jsstring :=
  match f with
  | Username => username fd
  | Password => password fd
  end.

Definition sample_page : State :=
  mkState (mkFormData (js "onebaldegg") (js "4life")) false ∅.

End LoginPage.

(** ** The whole client *)

Module App.

Record State := mkState {
  auth : AuthContext.State;
  loginPage : LoginPage.State;
  dashboard : Dashboard.State
}.

Definition initial : State :=
  mkState AuthContext.initial LoginPage.initial Dashboard.initial.

Definition in_auth {A} (p : prog AuthContext.State A) : prog State A :=
  zoom auth (fun a s => mkState a (loginPage s) (dashboard s)) p.
Definition in_login {A} (p : prog LoginPage.State A) : prog State A :=
  zoom loginPage (fun l s => mkState (auth s) l (dashboard s)) p.
Definition in_login_ctx {A} (p : prog LoginPage.Ctx A) : prog State A :=
  zoom (fun s => (auth s, loginPage s))
       (fun c s => mkState (fst c) (snd c) (dashboard s)) p.
Definition in_dashboard {A} (p : prog Dashboard.State A) : prog State A :=
  zoom dashboard (fun d s => mkState (auth s) (loginPage s) d) p.

(** Every function of the three components that runs in response to an
    event or is exported through the context. *)
Inductive operation : Type :=
| CheckAuthStatus
| Login (username password : jsstring)
| Logout
| LoginHandleChange (name : LoginPage.field) (v : jsstring)
| LoginValidateForm
| LoginHandleSubmit
| LoginTogglePassword
| HandleInputChange (name : Dashboard.field) (v : jsstring)
| ValidateForm
| HandleSubmitForConfirmation
| HandleConfirmAndAnalyze
| ResetForm
| BackToEdit.

Definition discard {S A} (p : prog S A) : prog S unit := p;; mret tt.

Section Operations.
Variable Number_toString : Q -> jsstring.

Definition perform (op : operation) : prog State unit :=
  match op with
  | CheckAuthStatus => in_auth AuthContext.checkAuthStatus
  | Login u p => discard (in_auth (AuthContext.login Number_toString u p))
  | Logout => in_auth AuthContext.logout
  | LoginHandleChange name v => in_login (LoginPage.handleChange name v)
  | LoginValidateForm => discard (in_login LoginPage.validateForm)
  | LoginHandleSubmit =>
      in_login_ctx (LoginPage.handleSubmit (AuthContext.login Number_toString))
  | LoginTogglePassword => in_login LoginPage.togglePassword
  | HandleInputChange name v => in_dashboard (Dashboard.handleInputChange name v)
  | ValidateForm => discard (in_dashboard Dashboard.validateForm)
  | HandleSubmitForConfirmation => in_dashboard Dashboard.handleSubmitForConfirmation
  | HandleConfirmAndAnalyze => in_dashboard Dashboard.handleConfirmAndAnalyze
  | ResetForm => in_dashboard Dashboard.resetForm
  | BackToEdit => in_dashboard Dashboard.backToEdit
  end.
End Operations.

End App.

(** * Properties *)

(** ** Strings *)

Lemma str_truthy_true (s : jsstring) : str_truthy s = true <-> s <> [].
Proof. destruct s; simpl; split; congruence. Qed.

Lemma str_truthy_false (s : jsstring) : str_truthy s = false <-> s = [].
Proof. destruct s; simpl; split; congruence. Qed.

Example trim_padded :
  trim (js "  DUI " ++ [10%N; 160%N]) = js "DUI".
Proof. reflexivity. Qed.

Example trim_blank : trim [32%N; 9%N; 8232%N; 65279%N] = [].
Proof. reflexivity. Qed.

(** Two different ASCII literals are different strings. *)
Ltac js_ne :=
  let H := fresh in intros H; vm_compute in H; discriminate H.

Ltac lookup_inserts :=
  repeat first
    [ rewrite lookup_insert_eq
    | rewrite lookup_insert_ne by js_ne
    | rewrite lookup_empty ].

(** ** Running programs *)

Section RunLemmas.
Context {S : Type}.

Lemma exec_bind {A B} net (p : prog S A) (f : A -> prog S B) s b :
  exec net (bind p f) s b =
  let r := exec net p s b in
  match res r with
  | Returned a => after_effects (log r) (exec net (f a) (state r) (browser r))
  | Thrown e => mkFinal (Thrown e) (state r) (browser r) (log r)
  end.
Proof.
  revert s b.
  induction p as [a|e|k IH|g k IH|key k IH|key val k IH|key k IH|h k IH
                 |url body k IH|e k IH];
    intros s b; cbn [bind exec]; rewrite ?IH; cbn zeta.
  all: try destruct (accepts b _ _ _).
  all: try (destruct (res _); unfold after_effects; cbn; f_equal; done).
  all: cbn; try done.
  destruct (exec net (f a) s b); done.
Qed.

Lemma run_bind {A B} (p : prog S A) (f : A -> prog S B) s b :
  run (bind p f) s b =
  let r := run p s b in
  match act r with
  | Finished (Returned a) =>
      pafter_effects (plog r) (run (f a) (pstate r) (pbrowser r))
  | Finished (Thrown e) =>
      mkPartial (Finished (Thrown e)) (pstate r) (pbrowser r) (plog r)
  | Suspended k =>
      mkPartial (Suspended (fun o => bind (k o) f)) (pstate r) (pbrowser r) (plog r)
  end.
Proof.
  revert s b.
  induction p as [a|e|k IH|g k IH|key k IH|key val k IH|key k IH|h k IH
                 |url body k IH|e k IH];
    intros s b; cbn [bind run]; rewrite ?IH; cbn zeta.
  all: try destruct (accepts b _ _ _).
  all: try (destruct (act _) as [[]|]; unfold pafter_effects; cbn; f_equal; done).
  all: cbn; try done.
  destruct (run (f a) s b); done.
Qed.

End RunLemmas.

(** ** Case-intake validation *)

Section Validation.
Import Dashboard.

Lemma too_long_test (s : jsstring) :
  str_truthy s && (1000 <? length s) = true <-> 1000 < length s.
Proof.
  rewrite andb_true_iff, Nat.ltb_lt, str_truthy_true.
  split; [tauto |]. intros H. split; [| done].
  destruct s; simpl in *; [lia | done].
Qed.

Lemma Object_keys_length (m : gmap jsstring jsstring) :
  (length (Object_keys m) =? 0) = true <-> m = ∅.
Proof.
  unfold Object_keys.
  by rewrite length_fmap, Nat.eqb_eq, length_zero_iff_nil, map_to_list_empty_iff.
Qed.

Lemma validateForm_runs (s : State) (b : Browser) :
  exists (accepted : bool) (errs : gmap jsstring jsstring),
    (forall net, exec net validateForm s b
       = mkFinal (Returned accepted) (with_errors (fun _ => errs) s) b [])
    /\ run validateForm s b
       = mkPartial (Finished (Returned accepted)) (with_errors (fun _ => errs) s) b []
    /\ validation_of (formData s) accepted errs.
Proof.
  unfold validation_of, crime_code_missing, jurisdiction_missing,
    additional_info_too_long.
  destruct s as [tab [cc ju ai] ld conf an errs0].
  eexists _, _. split; [intros net; reflexivity |]. split; [reflexivity |].
  cbv beta zeta. cbn [formData crime_code jurisdiction additional_info].
  rewrite Object_keys_length.
  pose proof (str_truthy_false (trim cc)) as Hc.
  pose proof (str_truthy_false (trim ju)) as Hj.
  pose proof (too_long_test ai) as Ha.
  destruct (str_truthy (trim cc)) eqn:Ec;
    destruct (str_truthy (trim ju)) eqn:Ej;
    destruct (str_truthy ai && (1000 <? length ai)) eqn:Ea;
    cbn [negb].
  all: split; [ split; [ intros E; try (by apply insert_non_empty in E);
                                intuition (congruence || lia)
                              | intros (? & ? & ?); intuition (congruence || lia) ] |].
  all: lookup_inserts.
  all: (split; [| split; [| split ]]); try (intuition (congruence || lia)).
  all: intros k [m Hm].
  all: repeat match goal with
         | H : <[_:=_]> _ !! _ = Some _ |- _ =>
             apply lookup_insert_Some in H; destruct H as [[<- _]|[_ H]]
         end.
  all: try (rewrite lookup_empty in Hm; discriminate Hm).
  all: intuition (congruence || lia).
Qed.

(** C1. [validateForm] returns [true] exactly when the trimmed
    [crime_code] and the trimmed [jurisdiction] are non-empty and
    [additional_info] has at most 1000 code units. In every case it
    replaces [errors] by a map that holds, for each of the three fields,
    that field's message if the field violates its rule and nothing
    otherwise, and that has no other key; it changes nothing else and
    sends nothing. *)
Theorem validateForm_accepts_iff net (s : State) (b : Browser) :
  exists (accepted : bool) (errs : gmap jsstring jsstring),
    exec net validateForm s b
      = mkFinal (Returned accepted) (with_errors (fun _ => errs) s) b []
    /\ (accepted = true <->
          trim (crime_code (formData s)) <> []
          /\ trim (jurisdiction (formData s)) <> []
          /\ length (additional_info (formData s)) <= 1000)
    /\ (errs !! js "crime_code" = Some (js "Crime/Penal Code is required")
          <-> crime_code_missing (formData s))
    /\ (errs !! js "jurisdiction" = Some (js "Jurisdiction is required")
          <-> jurisdiction_missing (formData s))
    /\ (errs !! js "additional_info"
          = Some (js "Additional information must be 1000 characters or less")
          <-> additional_info_too_long (formData s))
    /\ (forall k, is_Some (errs !! k) ->
          k = js "crime_code" /\ crime_code_missing (formData s)
          \/ k = js "jurisdiction" /\ jurisdiction_missing (formData s)
          \/ k = js "additional_info" /\ additional_info_too_long (formData s)).
Proof.
  destruct (validateForm_runs s b) as (accepted & errs & He & _ & Hv).
  exists accepted, errs. split; [apply He | exact Hv].
Qed.

End Validation.

(** ** The analysis workflow *)

Section Workflow.
Import Dashboard.

Lemma submit_runs (s : State) (b : Browser) :
  exists (accepted : bool) (errs : gmap jsstring jsstring),
    validation_of (formData s) accepted errs
    /\ if accepted
       then exists k,
         run handleSubmitForConfirmation s b
           = mkPartial (Suspended k)
               (with_loading true (with_errors (fun _ => errs) s)) b
               [HttpPost (js "/legal/confirm") (formData_value (formData s))]
         /\ forall o s' b', run (k o) s' b' = submit_settled o s' b'
       else
         run handleSubmitForConfirmation s b
           = mkPartial (Finished (Returned tt)) (with_errors (fun _ => errs) s) b [].
Proof.
  destruct (validateForm_runs s b) as (accepted & errs & _ & Hr & Hv).
  exists accepted, errs. split; [exact Hv |].
  unfold handleSubmitForConfirmation.
  cbn [mbind prog_bind bind get_state run].
  change (validateForm ≫= ?f) with (bind validateForm f).
  rewrite run_bind, Hr. cbn zeta. cbn [act pstate pbrowser plog].
  destruct accepted; cbn [negb].
  - eexists. split; [reflexivity |]. intros [r|e] s' b'; reflexivity.
  - reflexivity.
Qed.

Lemma analyze_runs (s : State) (b : Browser) :
  exists k,
    run handleConfirmAndAnalyze s b
      = mkPartial (Suspended k)
          (with_activeTab (js "analyzing") (with_loading true s)) b
          [HttpPost (js "/legal/analyze") (formData_value (formData s))]
    /\ forall o s' b', run (k o) s' b' = analyze_settled o s' b'.
Proof.
  eexists. split; [reflexivity |]. intros [r|e] s' b'; reflexivity.
Qed.

(** The rest of either handler behaves the same whichever activation
    parked it. *)
Lemma submit_settles k (o : outcome) (s : State) (b : Browser) :
  parked_by handleSubmitForConfirmation k ->
  run (k o) s b = submit_settled o s b.
Proof.
  intros (s0 & b0 & Hk).
  destruct (submit_runs s0 b0) as (accepted & errs & _ & Hrun).
  destruct accepted.
  - destruct Hrun as (k0 & Hrun & Hsettle). rewrite Hrun in Hk. cbn in Hk.
    injection Hk as <-. apply Hsettle.
  - rewrite Hrun in Hk. discriminate Hk.
Qed.

Lemma analyze_settles k (o : outcome) (s : State) (b : Browser) :
  parked_by handleConfirmAndAnalyze k ->
  run (k o) s b = analyze_settled o s b.
Proof.
  intros (s0 & b0 & Hk).
  destruct (analyze_runs s0 b0) as (k0 & Hrun & Hsettle).
  rewrite Hrun in Hk. cbn in Hk. injection Hk as <-. apply Hsettle.
Qed.

Lemma inputChange_runs name v (s : State) (b : Browser) :
  exists s',
    run (handleInputChange name v) s b = mkPartial (Finished (Returned tt)) s' b []
    /\ activeTab s' = activeTab s /\ loading s' = loading s
    /\ confirmation s' = confirmation s /\ analysis s' = analysis s
    /\ formData s' = set_field name v (formData s).
Proof.
  unfold handleInputChange. cbn [mbind prog_bind bind get_state run].
  destruct (has_error (errors s) (field_name name));
    (eexists; split; [reflexivity |]); done.
Qed.

Lemma tab_is_true (s : State) tab : tab_is s tab = true -> activeTab s = js tab.
Proof. unfold tab_is. apply bool_decide_eq_true_1. Qed.

Ltac edge_solver := unfold edge, known_tab; cbn; intuition congruence.

Lemma reset_runs (s : State) (b : Browser) :
  run resetForm s b
    = mkPartial (Finished (Returned tt))
        (mkState (js "form") emptyForm (loading s) VNull VNull ∅) b [].
Proof. reflexivity. Qed.

Lemma backToEdit_runs (s : State) (b : Browser) :
  run backToEdit s b
    = mkPartial (Finished (Returned tt)) (with_activeTab (js "form") s) b [].
Proof. reflexivity. Qed.

Lemma idle_enabled (c : config) e :
  inv c -> (forall i o, e <> Settle i o) -> enabled (cstate c) e = true -> idle c.
Proof.
  intros [Hi|[(k & Hp & Hk & Hl & Ht)|(k & Hp & Hk & Hl & Ht)]] Hne Hen; [done | |].
  all: destruct e; cbn [enabled] in Hen; rewrite ?Hl, ?andb_false_r in Hen;
    try discriminate Hen; try (by edestruct Hne).
  all: apply andb_true_iff in Hen as [Hen _]; apply tab_is_true in Hen;
    rewrite Hen in Ht; vm_compute in Ht; discriminate Ht.
Qed.

(** One step of the event loop keeps the invariant and moves
    [activeTab] along one of the listed edges. *)
Lemma step_inv c e c' l :
  inv c -> step c e = Some (c', l) ->
  inv c' /\ edge (activeTab (cstate c)) (activeTab (cstate c')).
Proof.
  intros Hinv Hstep.
  destruct e as [name v| | | | |i o]; unfold step in Hstep.
  6: {
    destruct c as [s b pend].
    destruct Hinv as [(Hp & _)|[(k & Hp & Hk & Hl & Ht)|(k & Hp & Hk & Hl & Ht)]];
      cbn [cstate pending] in *; subst pend.
    - discriminate Hstep.
    - destruct i as [|i]; [| discriminate Hstep]. cbn in Hstep.
      injection Hstep as <- <-. unfold dispatch. cbn [cstate cbrowser].
      rewrite (submit_settles k o s b Hk).
      destruct o as [r|e]; cbn; (split; [left; unfold idle; cbn |]).
      all: try rewrite Ht; try edge_solver.
    - destruct i as [|i]; [| discriminate Hstep]. cbn in Hstep.
      injection Hstep as <- <-. unfold dispatch. cbn [cstate cbrowser].
      rewrite (analyze_settles k o s b Hk).
      destruct o as [r|e]; cbn; (split; [left; unfold idle; cbn |]).
      all: try rewrite Ht; try edge_solver. }
  all: destruct (enabled (cstate c) _) eqn:Hen; [| discriminate Hstep].
  all: apply idle_enabled in Hen as Hidle; [| done | done].
  all: destruct c as [s b pend]; destruct Hidle as (Hp & Hl & Ht).
  all: cbn [cstate cbrowser pending] in *; subst pend.
  all: unfold dispatch, handler in Hstep; cbn [cstate cbrowser] in Hstep.
  - destruct (inputChange_runs name v s b) as (s' & Hr & Ht' & Hl' & _).
    rewrite Hr in Hstep. cbn [act pstate pbrowser plog] in Hstep.
    injection Hstep as <- <-. cbn [cstate]. rewrite Ht'. split; [| by left].
    left. unfold idle. cbn [cstate pending]. by rewrite Hl', Ht'.
  - apply andb_true_iff in Hen as [Hen _]; apply tab_is_true in Hen.
    destruct (submit_runs s b) as (accepted & errs & _ & Hr).
    destruct accepted.
    + destruct Hr as (k & Hr & _).
      assert (Hk : parked_by handleSubmitForConfirmation k)
        by (exists s, b; by rewrite Hr).
      rewrite Hr in Hstep. cbn [act pstate pbrowser plog] in Hstep.
      injection Hstep as <- <-. cbn [cstate]. split; [| by left].
      right; left. exists k. cbn. done.
    + rewrite Hr in Hstep. cbn [act pstate pbrowser plog] in Hstep.
      injection Hstep as <- <-. cbn [cstate]. split; [| by left].
      left. unfold idle. cbn. done.
  - apply andb_true_iff in Hen as [Hen _]. apply andb_true_iff in Hen as [Hen _].
    apply tab_is_true in Hen.
    rewrite backToEdit_runs in Hstep. cbn [act pstate pbrowser plog] in Hstep.
    injection Hstep as <- <-. cbn [cstate]. split.
    + left. unfold idle. cbn. split; [done|]. split; [done|]. by left.
    + rewrite Hen. edge_solver.
  - apply andb_true_iff in Hen as [Hen _]. apply andb_true_iff in Hen as [Hen _].
    apply tab_is_true in Hen.
    destruct (analyze_runs s b) as (k & Hr & _).
    assert (Hk : parked_by handleConfirmAndAnalyze k)
      by (exists s, b; by rewrite Hr).
    rewrite Hr in Hstep. cbn [act pstate pbrowser plog] in Hstep.
    injection Hstep as <- <-. cbn [cstate]. split.
    + right; right. exists k. cbn. done.
    + rewrite Hen. edge_solver.
  - apply andb_true_iff in Hen as [Hen _]. apply tab_is_true in Hen.
    rewrite reset_runs in Hstep. cbn [act pstate pbrowser plog] in Hstep.
    injection Hstep as <- <-. cbn [cstate]. split.
    + left. unfold idle. cbn. split; [done|]. split; [done|]. by left.
    + rewrite Hen. edge_solver.
Qed.

Lemma inv_mount b : inv (mount b).
Proof. left. unfold idle. cbn. split; [done|]. split; [done|]. by left. Qed.

Lemma reachable_inv c : reachable c -> inv c.
Proof.
  induction 1 as [b|c e c' l _ IH Hstep]; [apply inv_mount |].
  by destruct (step_inv c e c' l IH Hstep).
Qed.

Lemma inv_known_tab c : inv c -> known_tab (activeTab (cstate c)).
Proof.
  intros [(_ & _ & Ht)|[(k & _ & _ & _ & Ht)|(k & _ & _ & _ & Ht)]];
    [done | |]; rewrite Ht; unfold known_tab; tauto.
Qed.

Lemma steps_reachable es : forall c c',
  reachable c -> steps c es = Some c' -> reachable c'.
Proof.
  induction es as [|e es IH]; intros c c' Hc Hs; cbn in Hs.
  - by injection Hs as <-.
  - destruct (step c e) as [[c1 l]|] eqn:He; [| discriminate Hs].
    eapply IH; [| exact Hs]. by eapply reachable_step.
Qed.

Example to_confirmation_runs :
  steps (mount fresh_browser) to_confirmation = Some at_confirmation.
Proof. vm_compute. reflexivity. Qed.

Lemma at_confirmation_reachable : reachable at_confirmation.
Proof.
  eapply steps_reachable; [apply (reachable_mount fresh_browser) |].
  apply to_confirmation_runs.
Qed.

Example back_to_edit_step :
  step at_confirmation BackToEdit
  = Some (mkConfig (with_activeTab (js "form") (cstate at_confirmation))
            fresh_browser [], []).
Proof. reflexivity. Qed.

(** C2, as stated, fails: from the confirmation tab the "Back to Edit"
    button takes [activeTab] back to [form]. *)
Lemma workflow_not_forward_only :
  ~ (forall c e c' l,
       reachable c -> step c e = Some (c', l) ->
       forward (activeTab (cstate c)) (activeTab (cstate c'))).
Proof.
  intros H.
  destruct (H _ _ _ _ at_confirmation_reachable back_to_edit_step)
    as (m & n & Hm & Hn & Hle).
  vm_compute in Hm, Hn. injection Hm as <-. injection Hn as <-. lia.
Qed.

(** C2, amended. [activeTab] starts at [form] and only ever holds one of
    the four tab names. A step of the component leaves it unchanged or
    moves it along one of six edges: forward along form, confirmation,
    analyzing, results, or back along confirmation to form ("Back to
    Edit"), analyzing to confirmation (failed analysis) and results to
    form ("New Analysis"). *)
Theorem activeTab_transitions c e c' l :
  reachable c -> step c e = Some (c', l) ->
  activeTab initial = js "form"
  /\ known_tab (activeTab (cstate c))
  /\ known_tab (activeTab (cstate c'))
  /\ edge (activeTab (cstate c)) (activeTab (cstate c')).
Proof.
  intros Hc Hstep. pose proof (reachable_inv c Hc) as Hinv.
  destruct (step_inv c e c' l Hinv Hstep) as [Hinv' Hedge].
  split; [reflexivity |]. split; [by apply inv_known_tab |].
  split; [by apply inv_known_tab | exact Hedge].
Qed.

Lemma activeTab_transitions_witness :
  reachable at_confirmation
  /\ step at_confirmation BackToEdit
     = Some (mkConfig (with_activeTab (js "form") (cstate at_confirmation))
               fresh_browser [], [])
  /\ activeTab initial = js "form"
  /\ known_tab (js "confirmation")
  /\ known_tab (js "form")
  /\ edge (js "confirmation") (js "form").
Proof.
  split; [apply at_confirmation_reachable |]. split; [reflexivity |].
  exact (activeTab_transitions at_confirmation BackToEdit _ _
           at_confirmation_reachable back_to_edit_step).
Defined.

(** The other two backward edges are taken as well. *)
Example failed_analysis_returns :
  steps at_confirmation
    [ProceedWithAnalysis; Settle 0 (Rejected (mkError None))]
  = Some at_confirmation.
Proof. vm_compute. reflexivity. Qed.

Example new_analysis_returns :
  steps at_confirmation
    [ProceedWithAnalysis; Settle 0 (Resolved (mkResponse (VObj []))); NewAnalysis]
  = Some (mount fresh_browser).
Proof. vm_compute. reflexivity. Qed.

(** *** Submitting the form *)

Lemma submit_execs net (s : State) (b : Browser) :
  exists (accepted : bool) (errs : gmap jsstring jsstring),
    exec net validateForm s b
      = mkFinal (Returned accepted) (with_errors (fun _ => errs) s) b []
    /\ exec net handleSubmitForConfirmation s b =
       if accepted then
         let request := HttpPost (js "/legal/confirm") (formData_value (formData s)) in
         match net (js "/legal/confirm") (formData_value (formData s)) with
         | Resolved r =>
             mkFinal (Returned tt)
               (with_loading false
                  (with_activeTab (js "confirmation")
                     (with_confirmation (data r)
                        (with_loading true (with_errors (fun _ => errs) s)))))
               b
               [request;
                Toast ToastSuccess
                  (VStr (js "Please review and confirm your information"))]
         | Rejected e =>
             mkFinal (Returned tt)
               (with_loading false
                  (with_loading true (with_errors (fun _ => errs) s)))
               b
               [request;
                Toast ToastError
                  (or_else (error_data e (js "error"))
                     (VStr (js "Failed to process request")));
                ConsoleError (js "Confirmation error:") e]
         end
       else mkFinal (Returned tt) (with_errors (fun _ => errs) s) b [].
Proof.
  destruct (validateForm_runs s b) as (accepted & errs & He & _ & _).
  exists accepted, errs. split; [apply He |].
  unfold handleSubmitForConfirmation.
  cbn [mbind prog_bind bind get_state exec].
  change (validateForm ≫= ?f) with (bind validateForm f).
  rewrite exec_bind, He. cbn zeta. cbn [res state browser log].
  destruct accepted; cbn [negb]; [| reflexivity].
  cbn. destruct (net _ _) as [r|e]; reflexivity.
Qed.

(** C3. [handleSubmitForConfirmation] posts to /legal/confirm exactly
    when [validateForm] accepted the form. If validation fails, it sends
    nothing and leaves [activeTab] and [confirmation] as they were. If
    validation succeeds, the request carries the form data, and when the
    backend answers, [confirmation] becomes the answer's data and
    [activeTab] becomes [confirmation]. *)
Theorem submit_only_after_validation net (s : State) (b : Browser) accepted :
  res (exec net validateForm s b) = Returned accepted ->
  let r := exec net handleSubmitForConfirmation s b in
  let body := formData_value (formData s) in
  if accepted then
    filter is_request (log r) = [HttpPost (js "/legal/confirm") body]
    /\ match net (js "/legal/confirm") body with
       | Resolved answer =>
           confirmation (state r) = data answer
           /\ activeTab (state r) = js "confirmation"
       | Rejected _ =>
           confirmation (state r) = confirmation s
           /\ activeTab (state r) = activeTab s
       end
  else
    filter is_request (log r) = []
    /\ log r = []
    /\ activeTab (state r) = activeTab s
    /\ confirmation (state r) = confirmation s
    /\ act (run handleSubmitForConfirmation s b) = Finished (Returned tt).
Proof.
  intros Hv.
  destruct (submit_execs net s b) as (acc & errs & He & Hx).
  rewrite He in Hv. cbn in Hv. injection Hv as ->.
  cbn zeta. rewrite Hx.
  destruct accepted.
  - cbn zeta. destruct (net _ _) as [answer|e]; cbn; done.
  - destruct (submit_runs s b) as (acc' & errs' & _ & Hr).
    destruct (validateForm_runs s b) as (acc2 & errs2 & He2 & Hr2 & _).
    assert (acc' = false) as ->.
    { destruct acc'; [| done]. destruct Hr as (k & Hr & _).
      revert Hr. unfold handleSubmitForConfirmation.
      cbn [mbind prog_bind bind get_state run].
      change (validateForm ≫= ?f) with (bind validateForm f).
      rewrite run_bind, Hr2. rewrite He2 in He. injection He as -> _.
      cbn. discriminate. }
    rewrite Hr. cbn. done.
Qed.

Lemma submit_only_after_validation_witness :
  res (exec confirming validateForm filled_in fresh_browser) = Returned true
  /\ filter is_request
       (log (exec confirming handleSubmitForConfirmation filled_in fresh_browser))
     = [HttpPost (js "/legal/confirm") (formData_value sample_form)]
  /\ confirmation
       (state (exec confirming handleSubmitForConfirmation filled_in fresh_browser))
     = sample_confirmation
  /\ activeTab
       (state (exec confirming handleSubmitForConfirmation filled_in fresh_browser))
     = js "confirmation".
Proof.
  split; [vm_compute; reflexivity |].
  apply (submit_only_after_validation confirming filled_in fresh_browser true).
  vm_compute; reflexivity.
Defined.

Example submit_empty_form_sends_nothing :
  exec confirming handleSubmitForConfirmation initial fresh_browser
  = mkFinal (Returned tt)
      (with_errors
         (fun _ => <[js "jurisdiction" := js "Jurisdiction is required"]>
                     (<[js "crime_code" := js "Crime/Penal Code is required"]> ∅))
         initial)
      fresh_browser [].
Proof. vm_compute. reflexivity. Qed.

(** *** A failed analysis *)

Lemma analyze_execs net (s : State) (b : Browser) :
  exec net handleConfirmAndAnalyze s b =
  let request := HttpPost (js "/legal/analyze") (formData_value (formData s)) in
  match net (js "/legal/analyze") (formData_value (formData s)) with
  | Resolved r =>
      mkFinal (Returned tt)
        (with_loading false
           (with_activeTab (js "results")
              (with_analysis (data r)
                 (with_activeTab (js "analyzing") (with_loading true s)))))
        b
        [request; Toast ToastSuccess (VStr (js "Analysis completed successfully!"))]
  | Rejected e =>
      mkFinal (Returned tt)
        (with_loading false
           (with_activeTab (js "confirmation")
              (with_activeTab (js "analyzing") (with_loading true s))))
        b
        [request;
         Toast ToastError
           (or_else (error_data e (js "error")) (VStr (js "Analysis failed")));
         ConsoleError (js "Analysis error:") e]
  end.
Proof.
  unfold handleConfirmAndAnalyze. cbn.
  destruct (net _ _) as [r|e]; reflexivity.
Qed.

(** C10. If the request to /legal/analyze is rejected,
    [handleConfirmAndAnalyze] ends with [activeTab] at [confirmation] and
    with [formData], [confirmation] and [analysis] as they were before
    the handler started; [loading] is off again. *)
Theorem failed_analysis_keeps_data net (s : State) (b : Browser) (e : error) :
  net (js "/legal/analyze") (formData_value (formData s)) = Rejected e ->
  let r := exec net handleConfirmAndAnalyze s b in
  res r = Returned tt
  /\ activeTab (state r) = js "confirmation"
  /\ formData (state r) = formData s
  /\ confirmation (state r) = confirmation s
  /\ analysis (state r) = analysis s
  /\ loading (state r) = false.
Proof.
  intros Hnet. cbn zeta. rewrite analyze_execs. cbn zeta. rewrite Hnet. done.
Qed.

Lemma failed_analysis_keeps_data_witness :
  unreachable (js "/legal/analyze") (formData_value sample_form)
    = Rejected (mkError None)
  /\ let r := exec unreachable handleConfirmAndAnalyze
                (cstate at_confirmation) fresh_browser in
     res r = Returned tt
     /\ activeTab (state r) = js "confirmation"
     /\ formData (state r) = sample_form
     /\ confirmation (state r) = sample_confirmation
     /\ analysis (state r) = VNull
     /\ loading (state r) = false.
Proof.
  split; [reflexivity |].
  exact (failed_analysis_keeps_data unreachable (cstate at_confirmation)
           fresh_browser (mkError None) eq_refl).
Defined.

(** The same under the event loop: while the request is in flight the
    tab is [analyzing]; its rejection is the step back to
    [confirmation], and that step changes nothing else but [loading]. *)
Lemma failed_analysis_step c i e c' l :
  awaiting handleConfirmAndAnalyze "analyzing" c ->
  step c (Settle i (Rejected e)) = Some (c', l) ->
  cstate c' = with_loading false (with_activeTab (js "confirmation") (cstate c))
  /\ pending c' = [].
Proof.
  destruct c as [s b pend]. intros (k & Hp & Hk & _ & _) Hstep.
  cbn [cstate pending] in *. subst pend. unfold step in Hstep.
  cbn [pending] in Hstep.
  destruct i as [|i]; [| discriminate Hstep]. cbn in Hstep.
  injection Hstep as <- <-. unfold dispatch. cbn [cstate cbrowser].
  rewrite (analyze_settles k _ s b Hk). done.
Qed.

(** *** Starting over *)

Lemma reset_execs net (s : State) (b : Browser) :
  exec net resetForm s b
    = mkFinal (Returned tt)
        (mkState (js "form") emptyForm (loading s) VNull VNull ∅) b [].
Proof. reflexivity. Qed.

(** C9. From every reachable state, [resetForm] leaves the three form
    fields empty, [confirmation] and [analysis] null, [errors] empty and
    [activeTab] at [form]. Wherever the "New Analysis" button that calls
    it is rendered, no request is in flight and the resulting state is
    the state at mount. Running it twice is the same as running it once,
    and from any two states that offer the button it gives the same
    state. *)
Theorem resetForm_restores_mount net (c : config) :
  reachable c ->
  let reset s := state (exec net resetForm s (cbrowser c)) in
  formData (reset (cstate c)) = mkFormData [] [] []
  /\ confirmation (reset (cstate c)) = VNull
  /\ analysis (reset (cstate c)) = VNull
  /\ errors (reset (cstate c)) = ∅
  /\ activeTab (reset (cstate c)) = js "form"
  /\ (enabled (cstate c) NewAnalysis = true -> reset (cstate c) = initial)
  /\ reset (reset (cstate c)) = reset (cstate c)
  /\ (forall c2, reachable c2 ->
        enabled (cstate c) NewAnalysis = true ->
        enabled (cstate c2) NewAnalysis = true ->
        reset (cstate c2) = reset (cstate c)).
Proof.
  intros Hc. cbv beta zeta. rewrite !reset_execs. cbn [state].
  repeat (split; [reflexivity |]).
  assert (Hidle : forall c0, reachable c0 ->
            enabled (cstate c0) NewAnalysis = true -> loading (cstate c0) = false).
  { intros c0 Hc0 Hen. apply reachable_inv in Hc0.
    by destruct (idle_enabled c0 NewAnalysis Hc0 ltac:(done) Hen) as (_ & Hl & _). }
  split; [| split; [reflexivity |]].
  - intros Hen. by rewrite (Hidle c Hc Hen).
  - intros c2 Hc2 Hen Hen2. rewrite reset_execs. cbn [state].
    by rewrite (Hidle c Hc Hen), (Hidle c2 Hc2 Hen2).
Qed.

Example to_results_runs :
  steps at_confirmation
    [ProceedWithAnalysis; Settle 0 (Resolved (mkResponse sample_analysis))]
  = Some at_results.
Proof. vm_compute. reflexivity. Qed.

Lemma at_results_reachable : reachable at_results.
Proof.
  eapply steps_reachable; [apply at_confirmation_reachable |].
  apply to_results_runs.
Qed.

Lemma resetForm_restores_mount_witness :
  reachable at_results
  /\ enabled (cstate at_results) NewAnalysis = true
  /\ state (exec unreachable resetForm (cstate at_results) fresh_browser) = initial.
Proof.
  split; [apply at_results_reachable |]. split; [reflexivity |].
  exact (proj1 (proj2 (proj2 (proj2 (proj2 (proj2
           (resetForm_restores_mount unreachable at_results at_results_reachable))))))
         eq_refl).
Defined.

End Workflow.

(** ** The session manager *)

Section Session.
Import AuthContext.

Lemma or_else_truthy (a d : value) : truthy d = true -> truthy (or_else a d) = true.
Proof. unfold or_else. by destruct (truthy a) eqn:Ha. Qed.

(** C4. Run at startup, [checkAuthStatus] marks the session
    authenticated exactly when [localStorage] holds a non-empty
    [precedent_token] and the verify endpoint answers it with a truthy
    [success]. Then the user is the answer's [username] and the stored
    token is kept. In every other case the user stays [null], the
    session stays unauthenticated and no token is left in storage: with
    none stored, storage is untouched; with one stored, it is removed.
    The handler never throws. *)
Theorem checkAuthStatus_authenticates_iff net (b : Browser) :
  let r := exec net checkAuthStatus initial b in
  res r = Returned tt
  /\ (isAuthenticated (state r) = true <->
       exists t, localStorage b !! precedent_token = Some t /\ t <> []
                 /\ verified net t)
  /\ (isAuthenticated (state r) = true ->
       has_token (browser r) /\ localStorage (browser r) = localStorage b
       /\ exists t answer,
            localStorage b !! precedent_token = Some t
            /\ net (js "/auth/verify") (VObj [(js "token", VStr t)]) = Resolved answer
            /\ user (state r) = VObj [(js "username", get_opt (data answer) (js "username"))]
            /\ authorization (browser r) = Some (bearer t))
  /\ (isAuthenticated (state r) = false ->
       user (state r) = VNull
       /\ ~ has_token (browser r)
       /\ (has_token b ->
           localStorage (browser r) = delete precedent_token (localStorage b))
       /\ (~ has_token b -> browser r = b)).
Proof.
  cbn zeta. unfold checkAuthStatus, has_token, verified.
  cbn -[js precedent_token].
  destruct b as [ls hd]. cbn [localStorage].
  destruct (ls !! precedent_token) as [t|] eqn:Htok;
    [destruct (str_truthy t) eqn:Ht |].
  - cbn -[js precedent_token].
    destruct (net _ _) as [[d]|e] eqn:Hnet; cbn -[js precedent_token].
    + destruct d as [| |bo|q|str|items|props]; cbn -[js precedent_token].
      7: destruct (truthy (assoc (js "success") props)) eqn:Hs;
           cbn -[js precedent_token].
      all: rewrite ?lookup_delete_eq, ?Htok; cbn [token_truthy]; rewrite ?Ht.
      all: split; [done |].
      all: split; [split; [try done |] |].
      all: try (intros (t' & [= <-] & _ & answer & Hn & Htr);
                rewrite Hnet in Hn; injection Hn as <-; cbn in Htr; congruence).
      all: try (intros _; exists t; split; [done |];
                split; [by apply str_truthy_true |]; eexists; split; [exact Hnet |];
                exact Hs).
      all: split; [try done |].
      all: try (intros _; split; [done |]; split; [done |];
                exists t; eexists; split; [done |]; split; [exact Hnet |]; done).
      all: try done.
      all: intros _; split; [done |]; split; [done |]; split; [done |]; done.
    + rewrite lookup_delete_eq. cbn [token_truthy].
      split; [done |]. split; [split; [done |] |].
      * intros (t' & [= <-] & _ & answer & Hn & _). congruence.
      * split; [done |]. intros _. split; [done |]. split; [done |].
        split; [done |]. rewrite Ht. done.
  - cbn -[js precedent_token]. rewrite ?Htok. cbn [token_truthy]. rewrite Ht.
    split; [done |]. split; [split; [done |] |].
    + intros (t' & [= <-] & Hne & _). by apply str_truthy_false in Ht.
    + split; [done |]. intros _. split; [done |]. split; [done |]. done.
  - cbn -[js precedent_token]. rewrite ?Htok. cbn [token_truthy].
    split; [done |]. split; [split; [done |] |].
    + intros (t' & [=] & _).
    + split; [done |]. intros _. split; [done |]. split; [done |]. done.
Qed.

Example checkAuthStatus_accepts :
  exec accepting checkAuthStatus initial with_token
  = mkFinal (Returned tt)
      (mkState (VObj [(js "username", VStr (js "onebaldegg"))]) false true)
      with_token
      [LsGetItem precedent_token;
       HttpPost (js "/auth/verify") (VObj [(js "token", VStr (js "abc123"))])].
Proof. vm_compute. reflexivity. Qed.

Example checkAuthStatus_offline :
  exec (fun _ _ => Rejected (mkError None)) checkAuthStatus initial with_token
  = mkFinal (Returned tt) (mkState VNull false false)
      (mkBrowser ∅ (Some (bearer (js "abc123"))) unlimited)
      [LsGetItem precedent_token;
       HttpPost (js "/auth/verify") (VObj [(js "token", VStr (js "abc123"))]);
       ConsoleError (js "Auth check failed:") (mkError None);
       LsRemoveItem precedent_token].
Proof. vm_compute. reflexivity. Qed.

(** An entry whose value is the empty string is no token for
    [if (token)]: it is neither verified nor removed. *)
Example checkAuthStatus_empty_entry :
  exec accepting checkAuthStatus initial
    (mkBrowser {[ precedent_token := [] ]} None unlimited)
  = mkFinal (Returned tt) (mkState VNull false false)
      (mkBrowser {[ precedent_token := [] ]} None unlimited)
      [LsGetItem precedent_token].
Proof. vm_compute. reflexivity. Qed.

(** *** login *)

Section Login.
Variable Number_toString : Q -> jsstring.

(** C5, amended. [login] returns [success: true] exactly when the login
    endpoint answers with a truthy [success] and the answer's token can
    be kept: it converts to a string and the store takes that string.
    It then stores the token under [precedent_token], sets the user to
    the answer's [username], sets the authentication flag and the
    Authorization header. Otherwise it returns [success: false], leaves
    the store, the header, the user and the flag as they were, and shows
    an error toast with a non-empty message. The [message] it returns
    is then the endpoint's own [message] when the endpoint answered
    with a body that reports a failure (which is [undefined] if the
    body carries none), and a non-empty message in every other case.
    It never throws. *)
Theorem login_succeeds_iff net (username password : jsstring)
    (s : State) (b : Browser) :
  let o := net (js "/auth/login") (login_request username password) in
  let r := exec net (login Number_toString username password) s b in
  exists result,
    res r = Returned result
    /\ (success result = true <->
          exists answer text,
            logged_in net username password answer
            /\ storable Number_toString b answer text)
    /\ (success result = true ->
         exists answer text,
           logged_in net username password answer
           /\ storable Number_toString b answer text
           /\ localStorage (browser r) = <[precedent_token := text]> (localStorage b)
           /\ authorization (browser r) = Some (bearer text)
           /\ user (state r)
              = VObj [(js "username", get_opt (data answer) (js "username"))]
           /\ isAuthenticated (state r) = true)
    /\ (success result = false ->
         browser r = b
         /\ user (state r) = user s
         /\ isAuthenticated (state r) = isAuthenticated s
         /\ message result = login_message o
         /\ (refused o -> message result = get_opt (data_of o) (js "message"))
         /\ (~ refused o -> truthy (message result) = true)
         /\ exists shown, Toast ToastError shown ∈ log r /\ truthy shown = true).
Proof.
  cbn zeta. unfold logged_in, storable, login_message, refused, login,
    login_request, to_string.
  cbn -[js precedent_token].
  destruct (net _ _) as [[d]|e] eqn:Hnet; cbn -[js precedent_token].
  - destruct d as [| |bo|q|str|items|props]; cbn -[js precedent_token].
    7: destruct (truthy (assoc (js "success") props)) eqn:Hs;
         cbn -[js precedent_token].
    7: destruct (ToString Number_toString (assoc (js "token") props))
         as [text|] eqn:Htext; cbn -[js precedent_token].
    7: destruct (accepts b (localStorage b) precedent_token text) eqn:Hacc;
         cbn -[js precedent_token]; rewrite ?Htext; cbn -[js precedent_token].
    all: eexists; (split; [reflexivity |]); cbn [success message].
    all: split;
      [ split;
        [ first [ done
                | intros _; eexists _, _;
                  (split; [split; [reflexivity | exact Hs] |]);
                  split; [exact Htext | exact Hacc] ]
        | first [ done
                | intros (answer & text' & [[= <-] Htr] & Hts & Hac);
                  cbn -[js precedent_token] in Htr, Hts; congruence ] ] |].
    all: split;
      [ first [ done
              | intros _; eexists _, _;
                (split; [split; [reflexivity | exact Hs] |]);
                (split; [split; [exact Htext | exact Hacc] |]); done ] |].
    all: try done.
    all: intros _; do 4 (split; [done |]).
    all: split;
      [ intros (answer & reported & [= <-] & Hg & Hr);
        cbn -[js precedent_token] in Hg; first [done | congruence] |].
    all: split;
      [ intros Hn; first [ reflexivity
                         | exfalso; apply Hn; eexists _, _;
                           split; [reflexivity |]; split; [reflexivity |];
                           first [exact Hs | reflexivity] ] |].
    all: eexists;
      (split; [repeat first [apply list_elem_of_here | apply list_elem_of_further] |]);
      first [by apply or_else_truthy | reflexivity].
  - eexists. split; [reflexivity |]. cbn [success message].
    split; [split; [done | intros (answer & text & [[=] _] & _)] |].
    split; [done |]. intros _. do 4 (split; [done |]).
    split; [intros (answer & reported & [=] & _) |].
    split; [intros _; by apply or_else_truthy |].
    eexists; (split; [apply list_elem_of_further, list_elem_of_here |]);
      by apply or_else_truthy.
Qed.

End Login.

(** C5, as stated, fails twice. When the endpoint refuses without a
    [message], [login] returns [success: false] and no message. And when
    the endpoint reports success with the token [{"toString": 1}], which
    does not convert to a string, [login] returns [success: false],
    stores nothing and sets no user. *)
Lemma login_not_as_claimed :
  (exists result,
     res (exec refusing (login integer_toString (js "onebaldegg") (js "wrong"))
            initial fresh_browser)
     = Returned result
     /\ success result = false
     /\ message result = VUndefined)
  /\ (let r := exec accepting_oddly
                 (login integer_toString (js "onebaldegg") (js "4life"))
                 initial fresh_browser in
      (exists answer,
         logged_in accepting_oddly (js "onebaldegg") (js "4life") answer)
      /\ res r = Returned (mkLoginResult false login_fallback)
      /\ browser r = fresh_browser
      /\ state r = initial_loaded).
Proof.
  split.
  - eexists. split; [vm_compute; reflexivity |]. done.
  - cbn zeta. split; [eexists; split; reflexivity |].
    split; [vm_compute; reflexivity |]. split; vm_compute; reflexivity.
Qed.

(** The same on a full store: the endpoint reports success, the store
    refuses the token, and [login] fails with the text of its [catch]
    branch. *)
Example login_store_full :
  exec accepting (login integer_toString (js "onebaldegg") (js "4life"))
    initial full_browser
  = mkFinal (Returned (mkLoginResult false login_fallback)) initial_loaded
      full_browser
      [HttpPost (js "/auth/login") (login_request (js "onebaldegg") (js "4life"));
       LsSetItem precedent_token (js "abc123");
       Toast ToastError login_fallback].
Proof. vm_compute. reflexivity. Qed.

Example login_accepted :
  exec accepting (login integer_toString (js "onebaldegg") (js "4life"))
    initial fresh_browser
  = mkFinal (Returned (mkLoginResult true VUndefined)) signed_in with_token
      [HttpPost (js "/auth/login") (login_request (js "onebaldegg") (js "4life"));
       LsSetItem precedent_token (js "abc123");
       Toast ToastSuccess (VStr (js "Login successful! Welcome to PRECEDENT."))].
Proof. vm_compute. reflexivity. Qed.

(** The login page fills in its own text when [login] returns no
    message. *)
Example handleSubmit_refused :
  state (exec refusing (LoginPage.handleSubmit (login integer_toString))
           (initial,
            LoginPage.mkState
              (LoginPage.mkFormData (js "onebaldegg") (js "wrong")) false ∅)
           fresh_browser)
  = (mkState VNull false false,
     LoginPage.mkState
       (LoginPage.mkFormData (js "onebaldegg") (js "wrong")) false
       {[ js "general" := VStr (js "Login failed. Please check your credentials.") ]}).
Proof. vm_compute. reflexivity. Qed.

(** *** logout *)

(** C6, as stated, fails: logging out of a signed-in session sends no
    request. *)
Lemma logout_sends_no_request :
  ~ exists url body,
      HttpPost url body ∈ log (exec accepting logout signed_in with_token).
Proof.
  intros (url & body & H). vm_compute in H.
  apply list_elem_of_In in H. cbn in H. intuition discriminate.
Qed.

(** C6, amended. [logout] removes [precedent_token] from storage, deletes
    the Authorization header, sets the user to [null] and the
    authentication flag to [false], and shows an info toast. It sends no
    request and does not suspend. *)
Theorem logout_clears_session net (s : State) (b : Browser) :
  exec net logout s b
  = mkFinal (Returned tt) (mkState VNull (loading s) false)
      (mkBrowser (delete precedent_token (localStorage b)) None (accepts b))
      [LsRemoveItem precedent_token;
       Toast ToastInfo (VStr (js "You have been logged out."))]
  /\ filter is_request (log (exec net logout s b)) = []
  /\ act (run logout s b) = Finished (Returned tt).
Proof. split; [reflexivity |]. split; reflexivity. Qed.

End Session.

(** ** Client storage *)

Section Storage.

Lemma confined_bind {S A B} key (p : prog S A) (f : A -> prog S B) :
  confined key p -> (forall a, confined key (f a)) -> confined key (bind p f).
Proof. induction p; cbn; intros Hp Hf; intuition eauto. Qed.

Lemma confined_try_catch {S A} key (p : prog S A) h :
  confined key p -> (forall e, confined key (h e)) -> confined key (try_catch p h).
Proof. induction p; cbn; intros Hp Hf; intuition eauto. Qed.

Lemma confined_finally {S A} key (p : prog S A) f :
  confined key p -> confined key f -> confined key (finally p f).
Proof.
  induction p; cbn; intros Hp Hf; intuition eauto.
  all: by apply confined_bind.
Qed.

Lemma confined_zoom {S T A} key (get : T -> S) (set : S -> T -> T) (p : prog S A) :
  confined key p -> confined key (zoom get set p).
Proof. induction p; cbn; intros Hp; intuition eauto. Qed.

(** A program confined to [key] logs storage accesses at [key] only and
    leaves every other entry of [localStorage] as it was. *)
Lemma confined_exec {S A} key net (p : prog S A) :
  confined key p -> forall s b,
  let r := exec net p s b in
  (forall e k, e ∈ log r -> storage_key e = Some k -> k = key)
  /\ (forall k, k <> key -> localStorage (browser r) !! k = localStorage b !! k).
Proof.
  induction p as [a|e|k IH|g k IH|key' k IH|key' val k IH|key' k IH|h k IH
                 |url body k IH|e k IH]; cbn [confined exec]; intros Hp s b.
  1, 2: split; [intros e' k' Hin; by apply not_elem_of_nil in Hin | done].
  - apply IH, Hp.
  - apply IH, Hp.
  - destruct Hp as [-> Hp].
    destruct (IH (localStorage b !! key) (Hp _) s b) as [H1 H2].
    split; [| exact H2]. cbn. intros e' k' Hin Hk.
    apply elem_of_cons in Hin as [->|Hin]; [cbn in Hk; congruence | eauto].
  - destruct Hp as [-> Hp].
    destruct (accepts b (localStorage b) key val).
    + destruct (IH true (Hp _) s (with_storage (insert key val) b)) as [H1 H2].
      split.
      * cbn. intros e' k' Hin Hk.
        apply elem_of_cons in Hin as [->|Hin]; [cbn in Hk; congruence | eauto].
      * intros k' Hne. cbn. rewrite H2 by done. cbn. by rewrite lookup_insert_ne.
    + destruct (IH false (Hp _) s b) as [H1 H2].
      split; [| exact H2]. cbn. intros e' k' Hin Hk.
      apply elem_of_cons in Hin as [->|Hin]; [cbn in Hk; congruence | eauto].
  - destruct Hp as [-> Hp].
    destruct (IH Hp s (with_storage (delete key) b)) as [H1 H2].
    split.
    + cbn. intros e' k' Hin Hk.
      apply elem_of_cons in Hin as [->|Hin]; [cbn in Hk; congruence | eauto].
    + intros k' Hne. cbn. rewrite H2 by done. cbn. by rewrite lookup_delete_ne.
  - apply (IH Hp s (with_authorization h b)).
  - destruct (IH _ (Hp (net url body)) s b) as [H1 H2].
    split; [| exact H2]. cbn. intros e' k' Hin Hk.
    apply elem_of_cons in Hin as [->|Hin]; [cbn in Hk; congruence | eauto].
  - destruct Hp as [He Hp]. destruct (IH Hp s b) as [H1 H2].
    split; [| exact H2]. cbn. intros e' k' Hin Hk.
    apply elem_of_cons in Hin as [->|Hin]; [| eauto].
    destruct e; cbn in *; congruence.
Qed.

Ltac confined_tac :=
  repeat first
    [ exact I
    | reflexivity
    | progress intros
    | split
    | apply confined_finally
    | apply confined_try_catch
    | apply confined_bind
    | apply confined_zoom
    | progress unfold read
    | progress unfold AuthContext.to_string
    | progress (cbn -[js AuthContext.precedent_token Dashboard.Object_keys
                      map_to_list length trim insert empty])
    | match goal with
      | |- context [match ?x with _ => _ end] => destruct x
      end ].

Lemma perform_confined nts (op : App.operation) :
  confined AuthContext.precedent_token (App.perform nts op).
Proof.
  destruct op; unfold App.perform, App.discard, App.in_auth, App.in_login,
    App.in_login_ctx, App.in_dashboard.
  all: repeat first [ apply confined_bind; [| intros; exact I]
                    | apply confined_zoom ].
  - unfold AuthContext.checkAuthStatus. confined_tac.
  - unfold AuthContext.login. confined_tac.
  - unfold AuthContext.logout. confined_tac.
  - unfold LoginPage.handleChange. confined_tac.
  - unfold LoginPage.validateForm. confined_tac.
  - unfold LoginPage.handleSubmit, LoginPage.validateForm, AuthContext.login.
    confined_tac.
  - unfold LoginPage.togglePassword. confined_tac.
  - unfold Dashboard.handleInputChange. confined_tac.
  - unfold Dashboard.validateForm. confined_tac.
  - unfold Dashboard.handleSubmitForConfirmation, Dashboard.validateForm.
    confined_tac.
  - unfold Dashboard.handleConfirmAndAnalyze. confined_tac.
  - unfold Dashboard.resetForm. confined_tac.
  - unfold Dashboard.backToEdit. confined_tac.
Qed.

(** C7. Whatever operation of the client runs, every access to
    [localStorage] it makes is at the key [precedent_token], every other
    entry of the store is left as it was, and a store that held at most
    the token holds at most the token afterwards. *)
Theorem storage_only_precedent_token nts net (op : App.operation)
    (s : App.State) (b : Browser) :
  let r := exec net (App.perform nts op) s b in
  (forall e k, e ∈ log r -> storage_key e = Some k ->
     k = AuthContext.precedent_token)
  /\ (forall k, k <> AuthContext.precedent_token ->
        localStorage (browser r) !! k = localStorage b !! k)
  /\ (dom (localStorage b) ⊆ {[ AuthContext.precedent_token ]} ->
      dom (localStorage (browser r)) ⊆ {[ AuthContext.precedent_token ]}).
Proof.
  cbn zeta.
  destruct (confined_exec AuthContext.precedent_token net (App.perform nts op)
              (perform_confined nts op) s b) as [H1 H2].
  split; [exact H1 |]. split; [exact H2 |].
  intros Hdom k Hk. apply elem_of_singleton.
  destruct (decide (k = AuthContext.precedent_token)) as [|Hne]; [done |].
  apply elem_of_dom in Hk. rewrite (H2 k Hne) in Hk.
  apply elem_of_dom, Hdom, elem_of_singleton in Hk. done.
Qed.

Example login_stores_the_token :
  localStorage
    (browser (exec AuthContext.accepting
                (App.perform AuthContext.integer_toString
                   (App.Login (js "onebaldegg") (js "4life")))
                App.initial fresh_browser))
  = {[ AuthContext.precedent_token := js "abc123" ]}.
Proof. vm_compute. reflexivity. Qed.

End Storage.

(** ** The results view *)

Section ResultsView.
Import Dashboard.

Example renderPenalty_sample :
  renderPenalty ascii_toUpperCase
    (js "first_offense", VObj [(js "max_fine", VStr (js "$1,000"))])
  = Some (Element "div" "penalty-type"
            [ Element "strong" "" [Child (VStr (js "FIRST OFFENSE")); Text ":"];
              Element "ul" ""
                [ Element "li" ""
                    [ Element "strong" "" [Child (VStr (js "max fine")); Text ":"];
                      Text " "; Child (VStr (js "$1,000")) ] ] ]).
Proof. vm_compute. reflexivity. Qed.

Example children_of_sample :
  children_of <$> renderResults ascii_toUpperCase sample_analysis
  = Some [ VStr (js "Driving Under the Influence");
           VStr (js "Driving while impaired");
           VStr (js "You were driving"); VStr (js "You were impaired");
           VStr (js "FIRST OFFENSE"); VStr (js "max fine"); VStr (js "$1,000");
           VUndefined; VUndefined;
           VStr (js "Misdemeanor"); VStr (js "Consult an attorney") ].
Proof. vm_compute. reflexivity. Qed.

(** C8, as stated, fails in three ways. For the sample response the
    view displays "max fine" and "FIRST OFFENSE", strings that occur
    nowhere in the response, whose keys are [max_fine] and
    [first_offense]. For a response whose [summary.key_points] is a
    string the view throws and renders nothing. And for a response that
    holds only a [note], which the view does not read, it displays an
    [undefined] for each of its four sections and nothing of the
    response. *)
Lemma results_not_verbatim :
  (exists tree,
     renderResults ascii_toUpperCase sample_analysis = Some tree
     /\ ~ verbatim sample_analysis tree)
  /\ renderResults ascii_toUpperCase
       (VObj [(js "summary", VObj [(js "key_points", VStr (js "none"))])])
     = None
  /\ children_of <$>
       renderResults ascii_toUpperCase (VObj [(js "note", VStr (js "appeal"))])
     = Some [VUndefined; VUndefined; VUndefined; VUndefined].
Proof.
  split; [| split; reflexivity].
  eexists. split; [vm_compute; reflexivity |].
  intros H. specialize (H (js "max fine")).
  assert (Hin : js "max fine" ∈ strings_of sample_analysis).
  { apply H. apply list_elem_of_In. vm_compute.
    repeat first [left; reflexivity | right]. }
  apply list_elem_of_In in Hin. vm_compute in Hin. intuition discriminate.
Qed.

Ltac forall_children :=
  cbn [children_of flat_map app];
  repeat first [apply Forall_nil_2 | apply Forall_cons_2 | apply Forall_app_2].

Lemma subvalue_trans v w r : subvalue v w -> subvalue w r -> subvalue v r.
Proof.
  intros Hvw Hwr. induction Hwr as [|items x Hin _ IH|props k x Hin _ IH].
  - exact Hvw.
  - eapply subvalue_item; eauto.
  - eapply subvalue_prop; eauto.
Qed.

Lemma get_get_opt (v : value) k x : get v k = Some x -> get_opt v k = x.
Proof. destruct v; cbn; congruence. Qed.

Lemma assoc_cases k props :
  assoc k props = VUndefined \/ exists k', (k', assoc k props) ∈ props.
Proof.
  induction props as [|[k' x] props IH]; cbn; [by left |].
  destruct (decide (k = k')) as [->|Hne].
  - right. exists k'. by left.
  - destruct IH as [IH|(k2 & IH)]; [by left |]. right. exists k2. by right.
Qed.

(** *** What is displayed *)

Lemma texts_app nts (a b : list value) :
  texts nts (a ++ b)
  = match texts nts a, texts nts b with
    | Some x, Some y => Some (x ++ y)
    | _, _ => None
    end.
Proof.
  induction a as [|v a IH]; cbn [app texts].
  - by destruct (texts nts b).
  - rewrite IH. destruct (child_text nts v), (texts nts a), (texts nts b);
      try done. by rewrite app_assoc.
Qed.

Lemma child_text_array nts (items : list value) :
  child_text nts (VArr items) = texts nts items.
Proof.
  induction items as [|x items IH]; [done |].
  cbn [texts]. rewrite <- IH. reflexivity.
Qed.

(** React displays a tree as it displays the tree's [{...}] children in
    turn. *)
Lemma displayed_children_of nts (n : node) :
  displayed nts n = texts nts (children_of n).
Proof.
  revert n. fix IH 1. intros [tag cls children|str|v].
  - cbn [displayed children_of].
    induction children as [|c children IHc]; [done |].
    cbn [flat_map]. rewrite texts_app, <- (IH c), <- IHc. reflexivity.
  - done.
  - cbn [displayed children_of texts]. destruct (child_text nts v); [| done].
    by rewrite app_nil_r.
Qed.

Lemma child_text_is_Some nts (v : value) :
  is_Some (child_text nts v) <-> renderable v = true.
Proof.
  revert v. fix IH 1. intros [| |bo|q|str|items|props]; cbn [renderable].
  1-5: split; [done | intros _; by eexists].
  - rewrite child_text_array.
    induction items as [|x items IHi]; [split; [done | by eexists] |].
    cbn [texts forallb]. rewrite andb_true_iff, <- (IH x), <- IHi.
    destruct (child_text nts x), (texts nts items); split;
      try (intros [H1 H2]); try (by destruct H1); try (by destruct H2);
      try (by intros []); intros _; by eexists.
  - split; [by intros [] | done].
Qed.

Lemma texts_is_Some nts (vs : list value) :
  is_Some (texts nts vs) <-> forallb renderable vs = true.
Proof.
  induction vs as [|v vs IH]; [split; [done | by eexists] |].
  cbn [texts forallb]. rewrite andb_true_iff, <- (child_text_is_Some nts v), <- IH.
  destruct (child_text nts v), (texts nts vs); split;
    try (intros [H1 H2]); try (by destruct H1); try (by destruct H2);
    try (by intros []); intros _; by eexists.
Qed.

Lemma mapM_children {A} (f : A -> option node) (g : A -> list value) items nodes :
  (forall x n, f x = Some n -> children_of n = g x) ->
  mapM f items = Some nodes ->
  flat_map children_of nodes = flat_map g items.
Proof.
  intros Hf. revert nodes.
  induction items as [|x items IH]; intros nodes Hm; cbn in Hm.
  - by injection Hm as <-.
  - destruct (f x) as [n|] eqn:Hx; [| discriminate Hm].
    cbn [mbind option_bind] in Hm.
    destruct (mapM f items) as [ns|]; [| discriminate Hm].
    cbn in Hm. injection Hm as <-. cbn [flat_map].
    by rewrite (Hf x n Hx), (IH ns).
Qed.

Lemma optional_map_children (v : value) f g nodes :
  (forall x n, f x = Some n -> children_of n = g x) ->
  optional_map v f = Some nodes ->
  flat_map children_of nodes = listed v g.
Proof.
  intros Hf Hm. destruct v as [| |bo|q|str|items|props]; cbn in Hm;
    try discriminate Hm; try (by injection Hm as <-).
  by eapply mapM_children.
Qed.

Lemma list_item_children x n : list_item x = Some n -> children_of n = itself x.
Proof. by intros [= <-]. Qed.

Lemma renderDefense_children x n :
  renderDefense x = Some n -> children_of n = defense_values x.
Proof.
  unfold renderDefense. destruct (nullish x) eqn:Hx; [by destruct x |].
  assert (Hg : forall k, get x k = Some (get_opt x k)) by (by destruct x).
  rewrite !Hg. by intros [= <-].
Qed.

Lemma renderCase_children x n :
  renderCase x = Some n -> children_of n = case_values x.
Proof.
  unfold renderCase. destruct (nullish x) eqn:Hx; [by destruct x |].
  assert (Hg : forall k, get x k = Some (get_opt x k)) by (by destruct x).
  rewrite !Hg. by intros [= <-].
Qed.

Lemma renderPenalty_children up entry n :
  renderPenalty up entry = Some n -> children_of n = penalty_values up entry.
Proof.
  destruct entry as [type penalty]. unfold renderPenalty, penalty_values.
  cbn [fst snd]. destruct (typeof_object penalty).
  - destruct (Object_entries penalty) as [entries|]; [| discriminate].
    cbn. intros [= <-]. cbn. f_equal. rewrite app_nil_r.
    induction entries as [|[k x] entries IH]; [done |].
    cbn. by rewrite IH.
  - cbn. by intros [= <-].
Qed.

Lemma get_of_truthy (v : value) k : truthy v = true -> get v k = Some (get_opt v k).
Proof. by destruct v. Qed.

Lemma renderLegalExplanation_children up analysis nodes :
  truthy analysis = true ->
  renderLegalExplanation up analysis = Some nodes ->
  flat_map children_of nodes = legal_values up analysis.
Proof.
  intros Ht. unfold renderLegalExplanation, legal_values. cbn zeta.
  rewrite (get_of_truthy analysis) by done. cbn [mbind option_bind].
  destruct (truthy (get_opt analysis (js "legal_explanation"))) eqn:Hle;
    [| by intros [= <-]].
  rewrite !(get_of_truthy (get_opt analysis (js "legal_explanation"))) by done.
  cbn [mbind option_bind].
  destruct (optional_map _ list_item) as [proofs|] eqn:H1; [| discriminate].
  cbn [mbind option_bind].
  destruct (Object_entries _) as [entries|]; [| discriminate].
  cbn [mbind option_bind default].
  destruct (mapM (renderPenalty up) entries) as [types|] eqn:H2; [| discriminate].
  cbn [mbind option_bind]. intros [= <-].
  cbn [flat_map children_of app]. rewrite !app_nil_r.
  rewrite (optional_map_children _ _ _ _ list_item_children H1).
  by rewrite (mapM_children _ _ _ _ (renderPenalty_children up) H2).
Qed.

Lemma renderAnalytics_children analysis nodes :
  truthy analysis = true ->
  renderAnalytics analysis = Some nodes ->
  flat_map children_of nodes = analytics_values analysis.
Proof.
  intros Ht. unfold renderAnalytics, analytics_values. cbn zeta.
  rewrite (get_of_truthy analysis) by done. cbn [mbind option_bind].
  destruct (truthy (get_opt analysis (js "analytics"))) eqn:Han;
    [| by intros [= <-]].
  rewrite !(get_of_truthy (get_opt analysis (js "analytics"))) by done.
  cbn [mbind option_bind].
  destruct (optional_map _ renderDefense) as [defenses|] eqn:H1; [| discriminate].
  cbn [mbind option_bind]. intros [= <-].
  cbn [flat_map children_of app]. rewrite !app_nil_r.
  by rewrite (optional_map_children _ _ _ _ renderDefense_children H1).
Qed.

Lemma renderPrecedents_children analysis nodes :
  truthy analysis = true ->
  renderPrecedents analysis = Some nodes ->
  flat_map children_of nodes = precedents_values analysis.
Proof.
  intros Ht. unfold renderPrecedents, precedents_values. cbn zeta.
  rewrite (get_of_truthy analysis) by done. cbn [mbind option_bind].
  destruct (truthy (get_opt analysis (js "precedents"))) eqn:Hpr;
    [| by intros [= <-]].
  rewrite !(get_of_truthy (get_opt analysis (js "precedents"))) by done.
  cbn [mbind option_bind].
  destruct (optional_map _ renderCase) as [cases|] eqn:H1; [| discriminate].
  cbn [mbind option_bind]. intros [= <-].
  cbn [flat_map children_of app]. rewrite !app_nil_r.
  by rewrite (optional_map_children _ _ _ _ renderCase_children H1).
Qed.

Lemma renderSummary_children analysis n :
  truthy analysis = true ->
  renderSummary analysis = Some n ->
  children_of n = summary_values analysis.
Proof.
  intros Ht. unfold renderSummary, summary_values. cbn zeta.
  rewrite (get_of_truthy analysis) by done. cbn [mbind option_bind].
  destruct (truthy (get_opt analysis (js "summary"))) eqn:Hsu;
    [| by intros [= <-]].
  rewrite !(get_of_truthy (get_opt analysis (js "summary"))) by done.
  cbn [mbind option_bind].
  destruct (optional_map (get_opt _ (js "key_points")) list_item)
    as [points|] eqn:H1; [| discriminate].
  cbn [mbind option_bind].
  destruct (optional_map (get_opt _ (js "recommended_actions")) list_item)
    as [actions|] eqn:H2; [| discriminate].
  cbn [mbind option_bind]. intros [= <-].
  cbn [flat_map children_of app icon]. rewrite !app_nil_r.
  rewrite (optional_map_children _ _ _ _ list_item_children H1).
  by rewrite (optional_map_children _ _ _ _ list_item_children H2).
Qed.

(** The values the results view hands to React are the content of the
    response, section by section. *)
Lemma renderResults_children up analysis tree :
  renderResults up analysis = Some tree ->
  children_of tree = results_values up analysis.
Proof.
  unfold renderResults, results_values.
  destruct (truthy analysis) eqn:Ht; [| by intros [= <-]].
  destruct (renderLegalExplanation up analysis) as [legal|] eqn:H1; [| discriminate].
  destruct (renderAnalytics analysis) as [analytics|] eqn:H2; [| discriminate].
  destruct (renderPrecedents analysis) as [precedents|] eqn:H3; [| discriminate].
  destruct (renderSummary analysis) as [summary|] eqn:H4; [| discriminate].
  cbn [mbind option_bind]. intros [= <-].
  unfold result_card, icon. cbn [flat_map children_of app]. rewrite !app_nil_r.
  rewrite (renderLegalExplanation_children up analysis legal Ht H1).
  rewrite (renderAnalytics_children analysis analytics Ht H2).
  rewrite (renderPrecedents_children analysis precedents Ht H3).
  by rewrite (renderSummary_children analysis summary Ht H4).
Qed.

Section Provenance.
Variable toUpperCase : jsstring -> jsstring.
Variable response : value.

Local Abbreviation known := (known_in response).
Local Abbreviation shown := (shown_from toUpperCase response).

Lemma known_shown v : known v -> shown v.
Proof. intros [->|H]; [apply shown_absent | by apply shown_value]. Qed.

Lemma known_truthy v : known v -> truthy v = true -> subvalue v response.
Proof. intros [->|H] Ht; [discriminate Ht | exact H]. Qed.

Lemma get_opt_known w k : known w -> known (get_opt w k).
Proof.
  intros Hw. destruct w; try (by left). cbn.
  destruct Hw as [Hw|Hw]; [discriminate Hw |].
  destruct (assoc_cases k props) as [->|(k' & Hin)]; [by left |].
  right. eapply subvalue_trans; [| exact Hw].
  eapply subvalue_prop; [exact Hin | apply subvalue_refl].
Qed.

Lemma get_known w k x : known w -> get w k = Some x -> known x.
Proof.
  intros Hw Hg. pose proof (get_opt_known w k Hw) as H.
  destruct w; cbn in *; try discriminate Hg; injection Hg as <-; done.
Qed.

Lemma entry_object w k x :
  subvalue w response -> entry_of w k x -> typeof_object x = true ->
  subvalue x response.
Proof.
  intros Hw (entries & He & Hin) Ht.
  destruct w; cbn in He; try discriminate He; injection He as <-.
  - by apply not_elem_of_nil in Hin.
  - by apply not_elem_of_nil in Hin.
  - apply elem_of_lookup_imap in Hin as (i & c & [= _ ->] & _). discriminate Ht.
  - apply elem_of_lookup_imap in Hin as (i & y & [= _ ->] & Hl).
    eapply subvalue_trans; [| exact Hw].
    eapply subvalue_item; [| apply subvalue_refl].
    by eapply list_elem_of_lookup_2.
  - eapply subvalue_trans; [| exact Hw].
    eapply subvalue_prop; [exact Hin | apply subvalue_refl].
Qed.

Lemma optional_map_shown v f nodes :
  known v ->
  (forall item n, subvalue item response -> f item = Some n ->
     Forall shown (children_of n)) ->
  optional_map v f = Some nodes ->
  Forall shown (flat_map children_of nodes).
Proof.
  intros Hv Hf Hm.
  destruct v; cbn in Hm; try discriminate Hm.
  1, 2: injection Hm as <-; cbn; constructor; [apply shown_absent | constructor].
  destruct Hv as [Hv|Hv]; [discriminate Hv |].
  apply mapM_Some in Hm.
  assert (Hitems : forall item, item ∈ items -> subvalue item response).
  { intros item Hin. eapply subvalue_trans; [| exact Hv].
    eapply subvalue_item; [exact Hin | apply subvalue_refl]. }
  clear Hv. induction Hm as [|item n items nodes Hn _ IH]; cbn; [constructor |].
  apply Forall_app. split.
  - eapply Hf; [| exact Hn]. apply Hitems. by left.
  - apply IH. intros item' Hin. apply Hitems. by right.
Qed.

Lemma list_item_shown item n :
  subvalue item response -> list_item item = Some n ->
  Forall shown (children_of n).
Proof.
  intros Hi [= <-]. forall_children. by apply shown_value.
Qed.

Lemma renderDefense_shown defense n :
  subvalue defense response -> renderDefense defense = Some n ->
  Forall shown (children_of n).
Proof.
  intros Hd Hr. unfold renderDefense in Hr.
  destruct (get defense (js "strategy")) as [strategy|] eqn:H1; [| discriminate Hr].
  destruct (get defense (js "success_rate")) as [rate|] eqn:H2; [| discriminate Hr].
  destruct (get defense (js "frequency")) as [frequency|] eqn:H3; [| discriminate Hr].
  cbn in Hr. injection Hr as <-. forall_children.
  all: apply known_shown; eapply get_known; [right; exact Hd | eassumption].
Qed.

Lemma renderCase_shown case_item n :
  subvalue case_item response -> renderCase case_item = Some n ->
  Forall shown (children_of n).
Proof.
  intros Hd Hr. unfold renderCase in Hr.
  destruct (get case_item (js "case_name")) as [x1|] eqn:H1; [| discriminate Hr].
  destruct (get case_item (js "relevance_score")) as [x2|] eqn:H2; [| discriminate Hr].
  destruct (get case_item (js "key_issue")) as [x3|] eqn:H3; [| discriminate Hr].
  destruct (get case_item (js "outcome")) as [x4|] eqn:H4; [| discriminate Hr].
  destruct (get case_item (js "summary")) as [x5|] eqn:H5; [| discriminate Hr].
  destruct (get case_item (js "legal_principle")) as [x6|] eqn:H6; [| discriminate Hr].
  destruct (get case_item (js "citation")) as [x7|] eqn:H7; [| discriminate Hr].
  cbn in Hr. injection Hr as <-. forall_children.
  all: apply known_shown; eapply get_known; [right; exact Hd | eassumption].
Qed.

Lemma entry_subvalue w k x :
  subvalue w response -> entry_of w k x -> typeof_object w = true ->
  subvalue x response.
Proof.
  intros Hw (entries & He & Hin) Ht.
  destruct w; cbn in He, Ht; try discriminate He; try discriminate Ht;
    injection He as <-.
  - apply elem_of_lookup_imap in Hin as (i & y & [= _ ->] & Hl).
    eapply subvalue_trans; [| exact Hw].
    eapply subvalue_item; [| apply subvalue_refl].
    by eapply list_elem_of_lookup_2.
  - eapply subvalue_trans; [| exact Hw].
    eapply subvalue_prop; [exact Hin | apply subvalue_refl].
Qed.

Lemma renderPenalty_shown type penalty n :
  subvalue (penalties_of response) response ->
  entry_of (penalties_of response) type penalty ->
  renderPenalty toUpperCase (type, penalty) = Some n ->
  Forall shown (children_of n).
Proof.
  intros Hw He Hr. unfold renderPenalty in Hr.
  destruct (typeof_object penalty) eqn:Ht.
  - destruct (Object_entries penalty) as [entries|] eqn:Hes; [| discriminate Hr].
    cbn in Hr. injection Hr as <-. forall_children.
    + by eapply shown_category.
    + pose proof (entry_object _ type penalty Hw He Ht) as Hp.
      assert (Hall : forall kx, kx ∈ entries -> entry_of penalty kx.1 kx.2).
      { intros [k x] Hin. exists entries. done. }
      clear Hes. induction entries as [|[k x] entries IH]; [constructor |].
      cbn [List.map flat_map]. apply Forall_app_2.
      * pose proof (Hall (k, x) ltac:(by left)) as Hkx. cbn in Hkx.
        unfold renderPenaltyDetail. forall_children.
        -- by eapply shown_detail.
        -- apply shown_value. by eapply entry_subvalue.
      * apply IH. intros kx Hin. apply Hall. by right.
  - cbn in Hr. injection Hr as <-. forall_children.
    + by eapply shown_category.
    + by eapply shown_penalty.
Qed.

Lemma renderPenalties_shown entries nodes :
  subvalue (penalties_of response) response ->
  Object_entries (penalties_of response) = Some entries ->
  mapM (renderPenalty toUpperCase) entries = Some nodes ->
  Forall shown (flat_map children_of nodes).
Proof.
  intros Hw He Hm. apply mapM_Some in Hm.
  assert (Hall : forall kx, kx ∈ entries ->
            entry_of (penalties_of response) kx.1 kx.2).
  { intros [k x] Hin. exists entries. done. }
  clear He. induction Hm as [|[k x] n entries nodes Hn _ IH]; [constructor |].
  cbn [flat_map]. apply Forall_app_2.
  - eapply renderPenalty_shown; [exact Hw | | exact Hn]. apply (Hall (k, x)). by left.
  - apply IH. intros kx Hin. apply Hall. by right.
Qed.

Lemma renderLegalExplanation_shown nodes :
  renderLegalExplanation toUpperCase response = Some nodes ->
  Forall shown (flat_map children_of nodes).
Proof.
  intros Hr. unfold renderLegalExplanation in Hr.
  destruct (get response (js "legal_explanation")) as [le|] eqn:Hle;
    [| discriminate Hr].
  cbn [mbind option_bind] in Hr.
  assert (Hk : known le) by (eapply get_known; [right; apply subvalue_refl | done]).
  destruct (truthy le) eqn:Ht.
  2: { injection Hr as <-. forall_children. by apply known_shown. }
  destruct (get le (js "crime_name")) as [crime_name|] eqn:H1; [| discriminate Hr].
  destruct (get le (js "simple_explanation")) as [simple|] eqn:H2; [| discriminate Hr].
  destruct (get le (js "what_prosecution_must_prove")) as [must|] eqn:H3;
    [| discriminate Hr].
  cbn [mbind option_bind] in Hr.
  destruct (optional_map must list_item) as [proofs|] eqn:H4; [| discriminate Hr].
  destruct (get le (js "penalties")) as [penalties|] eqn:H5; [| discriminate Hr].
  cbn [mbind option_bind] in Hr.
  destruct (Object_entries (or_else penalties (VObj []))) as [entries|] eqn:H6;
    [| discriminate Hr].
  cbn [mbind option_bind] in Hr.
  destruct (mapM (renderPenalty toUpperCase) entries) as [types|] eqn:H7;
    [| discriminate Hr].
  cbn [mbind option_bind] in Hr. injection Hr as <-. forall_children.
  - apply known_shown. by eapply get_known.
  - apply known_shown. by eapply get_known.
  - eapply optional_map_shown; [| apply list_item_shown | exact H4].
    by eapply get_known.
  - unfold or_else in H6. destruct (truthy penalties) eqn:Htp.
    + assert (Hpen : penalties_of response = penalties).
      { unfold penalties_of.
        by rewrite (get_get_opt _ _ _ Hle), (get_get_opt _ _ _ H5). }
      rewrite <- Hpen in H6.
      eapply renderPenalties_shown; [| exact H6 | exact H7].
      rewrite Hpen. apply known_truthy; [| done]. by eapply get_known.
    + cbn in H6. injection H6 as <-. cbn in H7. injection H7 as <-. constructor.
Qed.

Lemma renderAnalytics_shown nodes :
  renderAnalytics response = Some nodes ->
  Forall shown (flat_map children_of nodes).
Proof.
  intros Hr. unfold renderAnalytics in Hr.
  destruct (get response (js "analytics")) as [an|] eqn:Han; [| discriminate Hr].
  cbn [mbind option_bind] in Hr.
  assert (Hk : known an) by (eapply get_known; [right; apply subvalue_refl | done]).
  destruct (truthy an) eqn:Ht.
  2: { injection Hr as <-. forall_children. by apply known_shown. }
  destruct (get an (js "jurisdiction_stats")) as [stats|] eqn:H1; [| discriminate Hr].
  destruct (get an (js "success_rates")) as [rates|] eqn:H2; [| discriminate Hr].
  destruct (get an (js "common_defenses")) as [defenses|] eqn:H3; [| discriminate Hr].
  cbn [mbind option_bind] in Hr.
  destruct (optional_map defenses renderDefense) as [ds|] eqn:H4; [| discriminate Hr].
  cbn [mbind option_bind] in Hr. injection Hr as <-. forall_children.
  1-3: apply known_shown, get_opt_known; by eapply get_known.
  eapply optional_map_shown; [| apply renderDefense_shown | exact H4].
  by eapply get_known.
Qed.

Lemma renderPrecedents_shown nodes :
  renderPrecedents response = Some nodes ->
  Forall shown (flat_map children_of nodes).
Proof.
  intros Hr. unfold renderPrecedents in Hr.
  destruct (get response (js "precedents")) as [pr|] eqn:Hpr; [| discriminate Hr].
  cbn [mbind option_bind] in Hr.
  assert (Hk : known pr) by (eapply get_known; [right; apply subvalue_refl | done]).
  destruct (truthy pr) eqn:Ht.
  2: { injection Hr as <-. forall_children. by apply known_shown. }
  destruct (get pr (js "total_cases_found")) as [total|] eqn:H1; [| discriminate Hr].
  destruct (get pr (js "cases")) as [cases|] eqn:H2; [| discriminate Hr].
  cbn [mbind option_bind] in Hr.
  destruct (optional_map cases renderCase) as [cs|] eqn:H4; [| discriminate Hr].
  cbn [mbind option_bind] in Hr. injection Hr as <-. forall_children.
  - apply known_shown. by eapply get_known.
  - eapply optional_map_shown; [| apply renderCase_shown | exact H4].
    by eapply get_known.
Qed.

Lemma renderSummary_shown n :
  renderSummary response = Some n -> Forall shown (children_of n).
Proof.
  intros Hr. unfold renderSummary in Hr.
  destruct (get response (js "summary")) as [su|] eqn:Hsu; [| discriminate Hr].
  cbn [mbind option_bind] in Hr.
  assert (Hk : known su) by (eapply get_known; [right; apply subvalue_refl | done]).
  destruct (truthy su) eqn:Ht.
  2: { injection Hr as <-. forall_children. by apply known_shown. }
  destruct (get su (js "key_points")) as [kp|] eqn:H1; [| discriminate Hr].
  cbn [mbind option_bind] in Hr.
  destruct (optional_map kp list_item) as [points|] eqn:H2; [| discriminate Hr].
  destruct (get su (js "recommended_actions")) as [ra|] eqn:H3; [| discriminate Hr].
  cbn [mbind option_bind] in Hr.
  destruct (optional_map ra list_item) as [actions|] eqn:H4; [| discriminate Hr].
  cbn [mbind option_bind] in Hr. injection Hr as <-. forall_children.
  - eapply optional_map_shown; [| apply list_item_shown | exact H2].
    by eapply get_known.
  - eapply optional_map_shown; [| apply list_item_shown | exact H4].
    by eapply get_known.
Qed.

(** C8, amended. Whenever the results view renders, it displays
    exactly the content [results_values] of the response, in document
    order: the crime name, the simple explanation, each element of
    [what_prosecution_must_prove], the penalties, the three statistics,
    each common defense (strategy, success rate, frequency), the number
    of cases found, each case (name, relevance, key issue, outcome,
    summary, legal principle, citation), each key point and each
    recommended action; a missing section, list or field is displayed
    as [undefined], and nothing else of the response is displayed. All
    these values are values of the response, unchanged, with one
    exception, the penalties. There the view lists the entries of
    [legal_explanation.penalties]: each key with its first underscore
    replaced by a space and upper-cased, followed by the value as it is
    or, if the value is an object, by its own entries, each key with its
    first underscore replaced by a space, followed by its value as it
    is. The text React displays is the text of these values. *)
Theorem renderResults_shows nts tree :
  renderResults toUpperCase response = Some tree ->
  children_of tree = results_values toUpperCase response
  /\ displayed nts tree = texts nts (results_values toUpperCase response)
  /\ forall v, v ∈ children_of tree -> shown v.
Proof.
  intros Hr.
  split; [by apply renderResults_children |].
  split; [by rewrite displayed_children_of, (renderResults_children _ _ _ Hr) |].
  apply Forall_forall. unfold renderResults in Hr.
  destruct (truthy response) eqn:Ht.
  2: { injection Hr as <-. forall_children. apply shown_value, subvalue_refl. }
  destruct (renderLegalExplanation toUpperCase response) as [legal|] eqn:H1;
    [| discriminate Hr].
  destruct (renderAnalytics response) as [analytics|] eqn:H2; [| discriminate Hr].
  destruct (renderPrecedents response) as [precedents|] eqn:H3; [| discriminate Hr].
  destruct (renderSummary response) as [summary|] eqn:H4; [| discriminate Hr].
  cbn [mbind option_bind] in Hr. injection Hr as <-.
  unfold result_card, icon. forall_children.
  - by apply renderLegalExplanation_shown.
  - by apply renderAnalytics_shown.
  - by apply renderPrecedents_shown.
  - by apply renderSummary_shown.
Qed.

End Provenance.

Lemma renderResults_shows_witness :
  exists tree,
    renderResults ascii_toUpperCase sample_analysis = Some tree
    /\ children_of tree = results_values ascii_toUpperCase sample_analysis
    /\ displayed AuthContext.integer_toString tree
       = texts AuthContext.integer_toString
           (results_values ascii_toUpperCase sample_analysis)
    /\ forall v, v ∈ children_of tree ->
         shown_from ascii_toUpperCase sample_analysis v.
Proof.
  eexists. split; [vm_compute; reflexivity |].
  apply (renderResults_shows ascii_toUpperCase sample_analysis).
  vm_compute; reflexivity.
Defined.

(** The content of the sample response, and the text React displays
    for it. *)
Example results_values_sample :
  results_values ascii_toUpperCase sample_analysis
  = [ VStr (js "Driving Under the Influence");
      VStr (js "Driving while impaired");
      VStr (js "You were driving"); VStr (js "You were impaired");
      VStr (js "FIRST OFFENSE"); VStr (js "max fine"); VStr (js "$1,000");
      VUndefined; VUndefined;
      VStr (js "Misdemeanor"); VStr (js "Consult an attorney") ].
Proof. vm_compute. reflexivity. Qed.

Example rendered_sample :
  rendered AuthContext.integer_toString
    (renderResults ascii_toUpperCase sample_analysis)
  = Some [ js "Driving Under the Influence"; js "Driving while impaired";
           js "You were driving"; js "You were impaired";
           js "FIRST OFFENSE"; js "max fine"; js "$1,000";
           js "Misdemeanor"; js "Consult an attorney" ].
Proof. vm_compute. reflexivity. Qed.

(** A response of the wrong shape makes the view throw. *)
Example renderResults_throws :
  renderResults ascii_toUpperCase
    (VObj [(js "summary", VObj [(js "key_points", VStr (js "none"))])])
  = None.
Proof. reflexivity. Qed.

End ResultsView.

(** * Further properties *)

(** ** Editing a field *)

Section Editing.

(** X1. Typing into a field of the case-intake form sets that field to
    the typed text and leaves the other two fields alone. Afterwards the
    field shows no error, the errors of the other fields are as before,
    and nothing else changes: no request, no storage access, same tab. *)
Theorem handleInputChange_edits_one_field net name v
    (s : Dashboard.State) (b : Browser) :
  let r := exec net (Dashboard.handleInputChange name v) s b in
  res r = Returned tt /\ log r = [] /\ browser r = b
  /\ Dashboard.get_field name (Dashboard.formData (state r)) = v
  /\ (forall other, other <> name ->
        Dashboard.get_field other (Dashboard.formData (state r))
        = Dashboard.get_field other (Dashboard.formData s))
  /\ Dashboard.has_error (Dashboard.errors (state r)) (Dashboard.field_name name)
     = false
  /\ (forall k, k <> Dashboard.field_name name ->
        Dashboard.errors (state r) !! k = Dashboard.errors s !! k)
  /\ Dashboard.activeTab (state r) = Dashboard.activeTab s
  /\ Dashboard.loading (state r) = Dashboard.loading s
  /\ Dashboard.confirmation (state r) = Dashboard.confirmation s
  /\ Dashboard.analysis (state r) = Dashboard.analysis s.
Proof.
  cbn zeta. unfold Dashboard.handleInputChange.
  cbn [mbind prog_bind bind get_state exec Dashboard.setFormData set_state].
  destruct (Dashboard.has_error (Dashboard.errors s) (Dashboard.field_name name))
    eqn:He; cbn -[js].
  - repeat (split; [done |]).
    split; [by destruct name |].
    split; [intros other Hne; by destruct name, other |].
    split; [unfold Dashboard.has_error; by rewrite lookup_insert_eq |].
    split; [intros k Hne; by rewrite lookup_insert_ne |]. done.
  - repeat (split; [done |]).
    split; [by destruct name |].
    split; [intros other Hne; by destruct name, other |]. done.
Qed.

(** X2. The same on the login page: typing sets the one field, hides
    that field's error and keeps every other error, the general login
    error included. *)
Theorem handleChange_edits_one_field net name v
    (s : LoginPage.State) (b : Browser) :
  let r := exec net (LoginPage.handleChange name v) s b in
  res r = Returned tt /\ log r = [] /\ browser r = b
  /\ LoginPage.get_field name (LoginPage.formData (state r)) = v
  /\ (forall other, other <> name ->
        LoginPage.get_field other (LoginPage.formData (state r))
        = LoginPage.get_field other (LoginPage.formData s))
  /\ LoginPage.has_error (LoginPage.errors (state r)) (LoginPage.field_name name)
     = false
  /\ (forall k, k <> LoginPage.field_name name ->
        LoginPage.errors (state r) !! k = LoginPage.errors s !! k)
  /\ LoginPage.errors (state r) !! js "general"
     = LoginPage.errors s !! js "general"
  /\ LoginPage.showPassword (state r) = LoginPage.showPassword s.
Proof.
  cbn zeta. unfold LoginPage.handleChange.
  cbn [mbind prog_bind bind get_state exec LoginPage.setFormData set_state].
  destruct (LoginPage.has_error (LoginPage.errors s) (LoginPage.field_name name))
    eqn:He; cbn -[js].
  - repeat (split; [done |]).
    split; [by destruct name |].
    split; [intros other Hne; by destruct name, other |].
    split; [unfold LoginPage.has_error; by rewrite lookup_insert_eq |].
    split; [intros k Hne; by rewrite lookup_insert_ne |].
    split; [| done]. rewrite lookup_insert_ne; [done |]. destruct name; js_ne.
  - repeat (split; [done |]).
    split; [by destruct name |].
    split; [intros other Hne; by destruct name, other |]. done.
Qed.

End Editing.

(** ** Signing in from the login page *)

Section SigningIn.
Import AuthContext.

(** Running a component's handler inside a larger state touches only
    the component's part of it. *)
Lemma exec_zoom {S T A} net (get : T -> S) (set : S -> T -> T) (p : prog S A) :
  (forall s t, get (set s t) = s) ->
  (forall s s' t, set s (set s' t) = set s t) ->
  (forall t, set (get t) t = t) ->
  forall t b,
    exec net (zoom get set p) t b
    = let r := exec net p (get t) b in
      mkFinal (res r) (set (state r) t) (browser r) (log r).
Proof.
  intros Hgs Hss Hsg.
  induction p as [a|e|k IH|g k IH|key k IH|key val k IH|key k IH|h k IH
                 |url body k IH|e k IH];
    intros t b; cbn [zoom exec]; rewrite ?IH; cbn zeta;
    try destruct (accepts b _ _ _);
    unfold after_effects; cbn [res state browser log];
    rewrite ?Hgs, ?Hss, ?Hsg; reflexivity.
Qed.

Lemma in_page_exec {A} net (p : prog LoginPage.State A) (c : LoginPage.Ctx) b :
  exec net (LoginPage.in_page p) c b
  = let r := exec net p c.2 b in
    mkFinal (res r) (c.1, state r) (browser r) (log r).
Proof.
  unfold LoginPage.in_page. rewrite exec_zoom; [done | done | done |].
  by intros [].
Qed.

Lemma in_auth_exec {A} net (p : prog State A) (c : LoginPage.Ctx) b :
  exec net (LoginPage.in_auth p) c b
  = let r := exec net p c.1 b in
    mkFinal (res r) (state r, c.2) (browser r) (log r).
Proof.
  unfold LoginPage.in_auth. rewrite exec_zoom; [done | done | done |].
  by intros [].
Qed.

(** What the login page's [validateForm] returns and which [errors] it
    sets. *)
Lemma login_validateForm_runs net (s : LoginPage.State) (b : Browser) :
  exists (accepted : bool) (errs : gmap jsstring value),
    exec net LoginPage.validateForm s b
      = mkFinal (Returned accepted)
          (LoginPage.mkState (LoginPage.formData s) (LoginPage.showPassword s) errs)
          b []
    /\ (accepted = true <->
          trim (LoginPage.username (LoginPage.formData s)) <> []
          /\ trim (LoginPage.password (LoginPage.formData s)) <> [])
    /\ (errs !! js "username" = Some (VStr (js "Username is required"))
          <-> trim (LoginPage.username (LoginPage.formData s)) = [])
    /\ (errs !! js "password" = Some (VStr (js "Password is required"))
          <-> trim (LoginPage.password (LoginPage.formData s)) = [])
    /\ (forall k, is_Some (errs !! k) -> k = js "username" \/ k = js "password")
    /\ (accepted = true -> errs = ∅).
Proof.
  destruct s as [[u pw] sp errs0].
  eexists _, _. split; [reflexivity |].
  cbv beta zeta. cbn [LoginPage.formData LoginPage.username LoginPage.password].
  rewrite length_fmap, Nat.eqb_eq, length_zero_iff_nil, map_to_list_empty_iff.
  pose proof (str_truthy_false (trim u)) as Hu.
  pose proof (str_truthy_false (trim pw)) as Hp.
  destruct (str_truthy (trim u)) eqn:Eu; destruct (str_truthy (trim pw)) eqn:Ep;
    cbn [negb].
  all: split; [ split; [ intros E; try (by apply insert_non_empty in E);
                         intuition congruence
                       | intros (? & ?); intuition congruence ] |].
  all: lookup_inserts.
  all: (split; [| split; [| split ]]); try (intuition congruence).
  all: try (intros E; by apply insert_non_empty in E).
  all: intros k [m Hm].
  all: repeat match goal with
         | H : <[_:=_]> _ !! _ = Some _ |- _ =>
             apply lookup_insert_Some in H; destruct H as [[<- _]|[_ H]]
         end.
  all: try (rewrite lookup_empty in Hm; discriminate Hm).
  all: tauto.
Qed.

(** X3. The login page accepts its form exactly when the username and
    the password are both non-empty after trimming whitespace. It
    replaces [errors] by the messages of the fields that are missing,
    which drops an earlier general login error, and sends nothing. *)
Theorem login_validateForm_accepts_iff net (s : LoginPage.State) (b : Browser) :
  exists (accepted : bool) (errs : gmap jsstring value),
    exec net LoginPage.validateForm s b
      = mkFinal (Returned accepted)
          (LoginPage.mkState (LoginPage.formData s) (LoginPage.showPassword s) errs)
          b []
    /\ (accepted = true <->
          trim (LoginPage.username (LoginPage.formData s)) <> []
          /\ trim (LoginPage.password (LoginPage.formData s)) <> [])
    /\ (errs !! js "username" = Some (VStr (js "Username is required"))
          <-> trim (LoginPage.username (LoginPage.formData s)) = [])
    /\ (errs !! js "password" = Some (VStr (js "Password is required"))
          <-> trim (LoginPage.password (LoginPage.formData s)) = [])
    /\ (forall k, is_Some (errs !! k) -> k = js "username" \/ k = js "password").
Proof.
  destruct (login_validateForm_runs net s b)
    as (accepted & errs & He & H1 & H2 & H3 & H4 & _).
  by exists accepted, errs.
Qed.

(** The two ways [login] ends. *)
Lemma login_cases nts net (username password : jsstring) (s : State) (b : Browser) :
  let request := HttpPost (js "/auth/login") (login_request username password) in
  let r := exec net (login nts username password) s b in
  (exists answer text,
     logged_in net username password answer
     /\ storable nts b answer text
     /\ res r = Returned (mkLoginResult true VUndefined)
     /\ state r
        = mkState (VObj [(js "username", get_opt (data answer) (js "username"))])
            false true
     /\ browser r
        = mkBrowser (<[precedent_token := text]> (localStorage b))
            (Some (bearer text)) (accepts b)
     /\ log r
        = [request; LsSetItem precedent_token text;
           Toast ToastSuccess (VStr (js "Login successful! Welcome to PRECEDENT."))])
  \/ ((forall answer text,
         logged_in net username password answer -> ~ storable nts b answer text)
      /\ exists m shown attempt,
           res r = Returned (mkLoginResult false m)
           /\ state r = mkState (user s) false (isAuthenticated s)
           /\ browser r = b
           /\ log r = request :: attempt ++ [Toast ToastError shown]
           /\ (attempt = [] \/ exists text, attempt = [LsSetItem precedent_token text])
           /\ truthy shown = true).
Proof.
  cbn zeta. unfold logged_in, storable, login, login_request, to_string.
  cbn -[js precedent_token].
  destruct (net _ _) as [[d]|e] eqn:Hnet; cbn -[js precedent_token].
  - destruct d as [| |bo|q|str|items|props]; cbn -[js precedent_token].
    7: destruct (truthy (assoc (js "success") props)) eqn:Hs;
         cbn -[js precedent_token].
    7: destruct (ToString nts (assoc (js "token") props))
         as [text|] eqn:Htext; cbn -[js precedent_token].
    7: destruct (accepts b (localStorage b) precedent_token text) eqn:Hacc;
         cbn -[js precedent_token]; rewrite ?Htext; cbn -[js precedent_token].
    7: { left. eexists _, _. split; [split; [reflexivity | exact Hs] |].
         split; [split; [exact Htext | exact Hacc] |]. cbn. done. }
    all: right;
      (split; [intros answer text' [[= <-] Htr] [Hts Hac];
               cbn -[js precedent_token] in Htr, Hts; congruence |]).
    7: { eexists _, _, [_]. do 4 (split; [reflexivity |]).
         split; [right; by eexists | reflexivity]. }
    all: eexists _, _, []; do 4 (split; [reflexivity |]).
    all: (split; [by left |]).
    all: first [by apply or_else_truthy | reflexivity].
  - right. split; [intros answer text [[=] _] |].
    eexists _, _, []; do 4 (split; [reflexivity |]).
    split; [by left | by apply or_else_truthy].
Qed.

(** X4. Submitting the login form with a missing username or password
    calls nothing: no request is sent, the session and the browser are
    as before, and only the page's [errors] change. *)
Theorem handleSubmit_invalid_sends_nothing nts net
    (a : State) (page : LoginPage.State) (b : Browser) :
  res (exec net LoginPage.validateForm page b) = Returned false ->
  let r := exec net (LoginPage.handleSubmit (login nts)) (a, page) b in
  res r = Returned tt /\ log r = [] /\ browser r = b
  /\ (state r).1 = a
  /\ (state r).2 = state (exec net LoginPage.validateForm page b).
Proof.
  intros Hv. cbn zeta. unfold LoginPage.handleSubmit.
  cbn [mbind prog_bind bind get_state exec].
  change (LoginPage.in_page LoginPage.validateForm ≫= ?f)
    with (bind (LoginPage.in_page LoginPage.validateForm) f).
  rewrite exec_bind, in_page_exec. cbn [snd fst].
  destruct (login_validateForm_runs net page b) as (accepted & errs & He & _).
  rewrite He in Hv |- *. cbn in Hv. injection Hv as ->. cbn. done.
Qed.

Lemma handleSubmit_invalid_sends_nothing_witness :
  res (exec accepting LoginPage.validateForm LoginPage.initial fresh_browser)
    = Returned false
  /\ let r := exec accepting (LoginPage.handleSubmit (login integer_toString))
                (initial, LoginPage.initial) fresh_browser in
     res r = Returned tt /\ log r = [] /\ browser r = fresh_browser
     /\ (state r).1 = initial
     /\ (state r).2
        = state (exec accepting LoginPage.validateForm LoginPage.initial fresh_browser).
Proof.
  split; [vm_compute; reflexivity |].
  apply (handleSubmit_invalid_sends_nothing integer_toString accepting
           initial LoginPage.initial fresh_browser).
  vm_compute; reflexivity.
Defined.

(** X5. Submitting a complete login form runs [login] with the username
    and password as typed: session, browser and log are those of that
    call. If [login] succeeds the page shows no error; if it fails the
    page shows exactly one, the general error, with a non-empty
    message. The handler never throws. *)
Theorem handleSubmit_valid_runs_login nts net
    (a : State) (page : LoginPage.State) (b : Browser) :
  res (exec net LoginPage.validateForm page b) = Returned true ->
  let fd := LoginPage.formData page in
  let call := exec net (login nts (LoginPage.username fd) (LoginPage.password fd)) a b in
  let r := exec net (LoginPage.handleSubmit (login nts)) (a, page) b in
  res r = Returned tt
  /\ (state r).1 = state call /\ browser r = browser call /\ log r = log call
  /\ LoginPage.formData (state r).2 = fd
  /\ exists result,
       res call = Returned result
       /\ if success result
          then LoginPage.errors (state r).2 = ∅
          else exists m, LoginPage.errors (state r).2 = {[ js "general" := m ]}
                         /\ truthy m = true.
Proof.
  intros Hv. cbn zeta. unfold LoginPage.handleSubmit.
  cbn [mbind prog_bind bind get_state exec].
  change (LoginPage.in_page LoginPage.validateForm ≫= ?f)
    with (bind (LoginPage.in_page LoginPage.validateForm) f).
  rewrite exec_bind, in_page_exec. cbn [snd fst].
  destruct (login_validateForm_runs net page b)
    as (accepted & errs & He & _ & _ & _ & _ & Hempty).
  rewrite He in Hv |- *. cbn in Hv. injection Hv as ->.
  rewrite (Hempty eq_refl). cbn [res state browser log negb].
  cbv zeta. cbn [res state browser log negb fst snd].
  change (LoginPage.in_auth ?p ≫= ?f) with (bind (LoginPage.in_auth p) f).
  rewrite exec_bind, in_auth_exec. cbn [snd fst LoginPage.formData].
  pose proof (login_cases nts net (LoginPage.username (LoginPage.formData page))
                (LoginPage.password (LoginPage.formData page)) a b) as Hcases.
  cbn zeta in Hcases.
  destruct Hcases as [(answer & text & _ & _ & Hres & Hst & Hb & Hlog)
                     |(_ & m & shown & attempt & Hres & Hst & Hb & Hlog & _)].
  - rewrite Hres, Hst, Hb, Hlog. cbn -[js precedent_token].
    repeat (split; [reflexivity |]). eexists. split; [reflexivity |]. done.
  - rewrite Hres, Hst, Hb, Hlog. cbn -[js precedent_token].
    rewrite app_nil_r.
    repeat (split; [reflexivity |]). eexists. split; [reflexivity |]. cbn.
    eexists. split; [reflexivity |]. by apply or_else_truthy.
Qed.

Lemma handleSubmit_valid_runs_login_witness :
  res (exec refusing LoginPage.validateForm LoginPage.sample_page fresh_browser)
    = Returned true
  /\ let fd := LoginPage.formData LoginPage.sample_page in
     let call := exec refusing
                   (login integer_toString (LoginPage.username fd) (LoginPage.password fd))
                   initial fresh_browser in
     let r := exec refusing (LoginPage.handleSubmit (login integer_toString))
                (initial, LoginPage.sample_page) fresh_browser in
     res r = Returned tt
     /\ (state r).1 = state call /\ browser r = browser call /\ log r = log call
     /\ LoginPage.formData (state r).2 = fd
     /\ exists result,
          res call = Returned result
          /\ if success result
             then LoginPage.errors (state r).2 = ∅
             else exists m, LoginPage.errors (state r).2 = {[ js "general" := m ]}
                            /\ truthy m = true.
Proof.
  split; [vm_compute; reflexivity |].
  apply (handleSubmit_valid_runs_login integer_toString refusing
           initial LoginPage.sample_page fresh_browser).
  vm_compute; reflexivity.
Defined.

End SigningIn.

(** ** The session over time *)

Section SessionOverTime.
Import AuthContext.

(** The two ways [checkAuthStatus] ends, from any state. *)
Lemma checkAuthStatus_cases net (s : State) (b : Browser) :
  let r := exec net checkAuthStatus s b in
  res r = Returned tt
  /\ ((exists t answer,
         localStorage b !! precedent_token = Some t /\ t <> []
         /\ net (js "/auth/verify") (VObj [(js "token", VStr t)]) = Resolved answer
         /\ truthy (get_opt (data answer) (js "success")) = true
         /\ state r
            = mkState (VObj [(js "username", get_opt (data answer) (js "username"))])
                false true
         /\ browser r = mkBrowser (localStorage b) (Some (bearer t)) (accepts b)
         /\ log r
            = [LsGetItem precedent_token;
               HttpPost (js "/auth/verify") (VObj [(js "token", VStr t)])])
      \/ (state r = mkState (user s) false (isAuthenticated s)
          /\ authorization (browser r) = authorization b
          /\ (token_truthy (localStorage b !! precedent_token) = false
              /\ browser r = b /\ log r = [LsGetItem precedent_token]
              \/ exists t,
                   localStorage b !! precedent_token = Some t /\ t <> []
                   /\ ~ verified net t
                   /\ localStorage (browser r)
                      = delete precedent_token (localStorage b)
                   /\ filter is_request (log r)
                      = [HttpPost (js "/auth/verify") (VObj [(js "token", VStr t)])]))).
Proof.
  cbn zeta. unfold checkAuthStatus, verified.
  cbn -[js precedent_token].
  destruct b as [ls hd]. cbn [localStorage].
  destruct (ls !! precedent_token) as [t|] eqn:Htok;
    [destruct (str_truthy t) eqn:Ht |].
  - pose proof (proj1 (str_truthy_true t) Ht) as Hne.
    cbn -[js precedent_token].
    destruct (net _ _) as [[d]|e] eqn:Hnet; cbn -[js precedent_token].
    + destruct d as [| |bo|q|str|items|props]; cbn -[js precedent_token].
      7: destruct (truthy (assoc (js "success") props)) eqn:Hs;
           cbn -[js precedent_token].
      7: { split; [done |]. left. exists t. eexists.
           repeat (split; [done |]). done. }
      all: split; [done |]; right; split; [done |]; split; [done |].
      all: right; exists t; repeat (split; [done |]).
      all: split; [| done].
      all: intros (answer & Hn & Htr); rewrite Hnet in Hn; injection Hn as <-;
        cbn in Htr; congruence.
    + split; [done |]. right. split; [done |]. split; [done |].
      right. exists t. repeat (split; [done |]). split; [| done].
      intros (answer & Hn & _). congruence.
  - cbn -[js precedent_token]. split; [done |]. right.
    split; [done |]. split; [done |]. left. cbn [token_truthy]. done.
  - cbn -[js precedent_token]. split; [done |]. right.
    split; [done |]. split; [done |]. left. done.
Qed.

(** X6. [checkAuthStatus] never signs a session out. Called on a
    signed-in session whose token is missing or is not verified, it
    removes the stored token but leaves the user, the authentication
    flag and the Authorization header as they were. *)
Theorem checkAuthStatus_keeps_session net (s : State) (b : Browser) :
  (forall t, localStorage b !! precedent_token = Some t -> t <> [] ->
     ~ verified net t) ->
  let r := exec net checkAuthStatus s b in
  res r = Returned tt
  /\ user (state r) = user s
  /\ isAuthenticated (state r) = isAuthenticated s
  /\ authorization (browser r) = authorization b
  /\ ~ has_token (browser r).
Proof.
  intros Hnot. cbn zeta.
  destruct (checkAuthStatus_cases net s b) as [Hres Hcases]. cbn zeta in Hcases.
  split; [exact Hres |].
  destruct Hcases as [(t & answer & Hl & Hne & Hn & Htr & _)
                     |(Hst & Hhd & [(Htok & Hb & _)|(t & Hl & Hne & _ & Hls & _)])].
  - exfalso. apply (Hnot t Hl Hne). by exists answer.
  - rewrite Hst, Hhd, Hb. unfold has_token. rewrite Htok. done.
  - rewrite Hst, Hhd. unfold has_token. rewrite Hls, lookup_delete_eq. done.
Qed.

Lemma checkAuthStatus_keeps_session_witness :
  (forall t, localStorage with_token !! precedent_token = Some t -> t <> [] ->
     ~ verified (fun _ _ => Rejected (mkError None)) t)
  /\ let r := exec (fun _ _ => Rejected (mkError None)) checkAuthStatus
                signed_in with_token in
     res r = Returned tt
     /\ user (state r) = user signed_in
     /\ isAuthenticated (state r) = isAuthenticated signed_in
     /\ authorization (browser r) = authorization with_token
     /\ ~ has_token (browser r).
Proof.
  assert (H : forall t, localStorage with_token !! precedent_token = Some t ->
                t <> [] -> ~ verified (fun _ _ => Rejected (mkError None)) t).
  { intros t _ _ (answer & Hn & _). discriminate Hn. }
  split; [exact H |].
  exact (checkAuthStatus_keeps_session _ signed_in with_token H).
Defined.

Lemma invoke_login_exec nts net u p (s : State) (b : Browser) :
  exec net (invoke nts (CallLogin u p)) s b
  = let r := exec net (login nts u p) s b in
    match res r with
    | Returned _ => mkFinal (Returned tt) (state r) (browser r) (log r)
    | Thrown e => mkFinal (Thrown e) (state r) (browser r) (log r)
    end.
Proof.
  cbn [invoke]. rewrite exec_bind. cbn zeta.
  destruct (res _); [| done]. unfold after_effects. cbn. by rewrite app_nil_r.
Qed.

(** X7. After a page load and any calls of [checkAuthStatus], [login] and
    [logout], against any backend, the authentication flag, the user and
    the Authorization header agree: either the flag is set, the user is
    an object with a username and the header carries a bearer token, or
    the flag is clear, the user is [null] and there is no header. *)
Theorem session_coherent nts (s : State) (b : Browser) :
  session nts s b -> coherent s b.
Proof.
  induction 1 as [ls quota|s b net c _ IH]; [done |].
  unfold coherent in *. destruct c as [|u p|].
  - cbn [invoke].
    destruct (checkAuthStatus_cases net s b) as [_ Hcases]. cbn zeta in Hcases.
    destruct Hcases as [(t & answer & _ & _ & _ & _ & Hst & Hb & _)
                       |(Hst & Hhd & _)].
    + rewrite Hst, Hb. cbn. eauto.
    + rewrite Hst, Hhd. cbn. exact IH.
  - rewrite invoke_login_exec. cbn zeta.
    destruct (login_cases nts net u p s b)
      as [(answer & text & _ & _ & Hres & Hst & Hb & _)
         |(_ & m & shown & attempt & Hres & Hst & Hb & _)];
      cbn zeta in *; rewrite Hres; cbn [state browser]; rewrite Hst, Hb.
    + cbn. eauto.
    + cbn. exact IH.
  - cbn. done.
Qed.

Lemma session_coherent_witness :
  session integer_toString signed_in with_token /\ coherent signed_in with_token.
Proof.
  assert (H : session integer_toString signed_in with_token).
  { exact (session_call integer_toString initial fresh_browser accepting
             (CallLogin (js "onebaldegg") (js "4life"))
             (session_load integer_toString ∅ unlimited)). }
  split; [exact H | exact (session_coherent integer_toString _ _ H)].
Defined.

(** X8. Round trip of the token through client storage. When the login
    endpoint reports success and the answer's token can be kept (it
    converts to a string and the store takes it), the entry stored under
    [precedent_token] after [login] is that string, and a page reload
    verifies exactly it; if the string is empty, the reload sends
    nothing and the session is not restored. *)
Theorem login_then_reload nts net net' (username password : jsstring)
    (s : State) (b : Browser) (answer : response) (text : jsstring) :
  logged_in net username password answer ->
  storable nts b answer text ->
  let after := browser (exec net (login nts username password) s b) in
  let reload :=
    exec net' checkAuthStatus initial
      (mkBrowser (localStorage after) None (accepts after)) in
  localStorage after !! precedent_token = Some text
  /\ filter is_request (log reload)
     = (if str_truthy text
        then [HttpPost (js "/auth/verify") (VObj [(js "token", VStr text)])]
        else [])
  /\ (str_truthy text = false -> isAuthenticated (state reload) = false).
Proof.
  intros Hin Hstore. cbn zeta.
  destruct (login_cases nts net username password s b)
    as [(answer' & text' & Hin' & Hstore' & _ & _ & Hb & _)|(Hno & _)];
    cbn zeta in *; [| by destruct (Hno answer text)].
  assert (answer' = answer) as ->.
  { destruct Hin as [Hn _], Hin' as [Hn' _]. congruence. }
  assert (text' = text) as ->.
  { destruct Hstore as [Ht _], Hstore' as [Ht' _]. congruence. }
  rewrite Hb. cbn [localStorage accepts]. split; [by rewrite lookup_insert_eq |].
  set (ls := <[precedent_token := text]> (localStorage b)).
  assert (Hl : ls !! precedent_token = Some text) by apply lookup_insert_eq.
  destruct (checkAuthStatus_cases net' initial (mkBrowser ls None (accepts b)))
    as [_ Hcases].
  cbn zeta in Hcases. cbn [localStorage] in Hcases. rewrite Hl in Hcases.
  destruct Hcases as [(t & ans & Ht & Hne & _ & _ & _ & _ & Hlog)
                     |(Hst & _ & [(Htok & _ & Hlog)|(t & Ht & Hne & _ & _ & Hlog)])].
  - assert (t = text) as ->
      by (apply (inj Some); exact (eq_trans (eq_sym Ht) Hl)).
    apply str_truthy_true in Hne. rewrite Hne, Hlog. split; [done | congruence].
  - cbn [token_truthy] in Htok. rewrite Htok, Hlog, Hst. done.
  - assert (t = text) as ->
      by (apply (inj Some); exact (eq_trans (eq_sym Ht) Hl)).
    apply str_truthy_true in Hne. rewrite Hne, Hlog. split; [done | congruence].
Qed.

Lemma login_then_reload_witness :
  logged_in accepting (js "onebaldegg") (js "4life")
    (mkResponse
       (VObj [ (js "success", VBool true);
               (js "token", VStr (js "abc123"));
               (js "username", VStr (js "onebaldegg")) ]))
  /\ localStorage
       (browser (exec accepting
                   (login integer_toString (js "onebaldegg") (js "4life"))
                   initial fresh_browser))
     !! precedent_token = Some (js "abc123")
  /\ filter is_request
       (log (exec accepting checkAuthStatus initial
               (mkBrowser
                  (localStorage
                     (browser (exec accepting
                                 (login integer_toString (js "onebaldegg") (js "4life"))
                                 initial fresh_browser)))
                  None
                  (accepts
                     (browser (exec accepting
                                 (login integer_toString (js "onebaldegg") (js "4life"))
                                 initial fresh_browser))))))
     = [HttpPost (js "/auth/verify") (VObj [(js "token", VStr (js "abc123"))])].
Proof.
  assert (H : logged_in accepting (js "onebaldegg") (js "4life")
                (mkResponse
                   (VObj [ (js "success", VBool true);
                           (js "token", VStr (js "abc123"));
                           (js "username", VStr (js "onebaldegg")) ])))
    by (split; reflexivity).
  assert (H' : storable integer_toString fresh_browser
                 (mkResponse
                    (VObj [ (js "success", VBool true);
                            (js "token", VStr (js "abc123"));
                            (js "username", VStr (js "onebaldegg")) ]))
                 (js "abc123"))
    by (split; reflexivity).
  split; [exact H |].
  pose proof (login_then_reload integer_toString accepting accepting
                (js "onebaldegg") (js "4life") initial fresh_browser _ _ H H')
    as (H1 & H2 & _).
  split; [exact H1 | exact H2].
Defined.

(** X9. After [logout], a page reload finds no token: it sends no
    request and the session stays signed out, whatever was stored or
    signed in before. *)
Theorem logout_then_reload net net' (s : State) (b : Browser) :
  let after := browser (exec net logout s b) in
  authorization after = None
  /\ localStorage after !! precedent_token = None
  /\ exec net' checkAuthStatus initial after
     = mkFinal (Returned tt) (mkState VNull false false) after
         [LsGetItem precedent_token].
Proof.
  cbn zeta. cbn -[js precedent_token checkAuthStatus].
  split; [done |]. split; [apply lookup_delete_eq |].
  unfold checkAuthStatus. cbn -[js precedent_token].
  rewrite lookup_delete_eq. reflexivity.
Qed.

(** X18. The Authorization header never disagrees with client storage:
    after a page load and any calls of [checkAuthStatus], [login] and
    [logout], if a header is set and a token is stored, the header is
    the bearer header of exactly that token. *)
Theorem header_matches_stored_token nts (s : State) (b : Browser) :
  session nts s b ->
  forall h t, authorization b = Some h ->
    localStorage b !! precedent_token = Some t -> h = bearer t.
Proof.
  induction 1 as [ls quota|s b net c _ IH]; [discriminate |].
  intros h t. destruct c as [|u p|].
  - cbn [invoke].
    destruct (checkAuthStatus_cases net s b) as [_ Hcases]. cbn zeta in Hcases.
    destruct Hcases as [(t' & answer & Hl & _ & _ & _ & _ & Hb & _)
                       |(_ & Hhd & [(_ & Hb & _)|(t' & _ & _ & _ & Hls & _)])].
    + rewrite Hb. cbn. intros [= <-] Ht. f_equal.
      apply (inj Some). exact (eq_trans (eq_sym Hl) Ht).
    + rewrite Hb. apply IH.
    + intros _. rewrite Hls, lookup_delete_eq. discriminate.
  - rewrite invoke_login_exec. cbn zeta.
    destruct (login_cases nts net u p s b)
      as [(answer & text & _ & _ & Hres & _ & Hb & _)
         |(_ & m & shown & attempt & Hres & _ & Hb & _)];
      cbn zeta in *; rewrite Hres; cbn [browser]; rewrite Hb.
    + cbn. rewrite lookup_insert_eq. intros [= <-] [= <-]. reflexivity.
    + apply IH.
  - cbn. discriminate.
Qed.

Lemma header_matches_stored_token_witness :
  session integer_toString signed_in with_token
  /\ authorization with_token = Some (bearer (js "abc123"))
  /\ localStorage with_token !! precedent_token = Some (js "abc123")
  /\ bearer (js "abc123") = bearer (js "abc123").
Proof.
  assert (H : session integer_toString signed_in with_token).
  { exact (session_call integer_toString initial fresh_browser accepting
             (CallLogin (js "onebaldegg") (js "4life"))
             (session_load integer_toString ∅ unlimited)). }
  split; [exact H |]. split; [reflexivity |]. split; [reflexivity |].
  exact (header_matches_stored_token integer_toString _ _ H _ _ eq_refl eq_refl).
Defined.

(** X19. Whatever the backend does (answers, refuses, sends malformed
    data or is unreachable), each of the four asynchronous handlers ends
    without throwing and leaves [loading] off; for
    [handleSubmitForConfirmation] this holds whenever it sent a
    request, since it does not touch [loading] otherwise. *)
Theorem async_handlers_settle nts net :
  (forall s b,
     let r := exec net Dashboard.handleSubmitForConfirmation s b in
     res r = Returned tt
     /\ (log r <> [] -> Dashboard.loading (state r) = false))
  /\ (forall s b,
        let r := exec net Dashboard.handleConfirmAndAnalyze s b in
        res r = Returned tt /\ Dashboard.loading (state r) = false)
  /\ (forall username password s b,
        let r := exec net (login nts username password) s b in
        (exists result, res r = Returned result) /\ loading (state r) = false)
  /\ (forall s b,
        let r := exec net checkAuthStatus s b in
        res r = Returned tt /\ loading (state r) = false).
Proof.
  split; [| split; [| split]].
  - intros s b. cbn zeta.
    destruct (submit_execs net s b) as (accepted & errs & _ & Hx). rewrite Hx.
    destruct accepted; [| done]. cbn zeta. by destruct (net _ _).
  - intros s b. cbn zeta. rewrite analyze_execs. cbn zeta. by destruct (net _ _).
  - intros u p s b. cbn zeta.
    destruct (login_cases nts net u p s b)
      as [(answer & text & _ & _ & Hres & Hst & _)
         |(_ & m & shown & attempt & Hres & Hst & _)];
      cbn zeta in *; rewrite Hres, Hst; eauto.
  - intros s b.
    destruct (checkAuthStatus_cases net s b) as [Hres Hcases]. cbn zeta in *.
    split; [exact Hres |].
    destruct Hcases as [(t & answer & _ & _ & _ & _ & Hst & _)|(Hst & _)];
      by rewrite Hst.
Qed.

End SessionOverTime.

(** ** The dashboard over time *)

Section DashboardOverTime.
Import Dashboard.

(** Every step of the event loop from a state that satisfies the
    invariant is one of the listed transitions. *)
Lemma step_transition c e c' l :
  inv c -> step c e = Some (c', l) -> transition (cstate c) e l (cstate c').
Proof.
  intros Hinv Hstep.
  destruct e as [name v| | | | |i o]; unfold step in Hstep.
  6: {
    destruct c as [s b pend].
    destruct Hinv as [(Hp & _)|[(k & Hp & Hk & Hl & Ht)|(k & Hp & Hk & Hl & Ht)]];
      cbn [cstate pending] in *; subst pend.
    - discriminate Hstep.
    - destruct i as [|i]; [| discriminate Hstep]. cbn in Hstep.
      injection Hstep as <- <-. unfold dispatch. cbn [cstate cbrowser].
      rewrite (submit_settles k o s b Hk). cbn [cstate]. by constructor.
    - destruct i as [|i]; [| discriminate Hstep]. cbn in Hstep.
      injection Hstep as <- <-. unfold dispatch. cbn [cstate cbrowser].
      rewrite (analyze_settles k o s b Hk). cbn [cstate]. by constructor. }
  all: destruct (enabled (cstate c) _) eqn:Hen; [| discriminate Hstep].
  all: apply idle_enabled in Hen as Hidle; [| done | done].
  all: destruct c as [s b pend]; destruct Hidle as (Hp & Hl & Ht).
  all: cbn [cstate cbrowser pending] in *; subst pend.
  all: unfold dispatch, handler in Hstep; cbn [cstate cbrowser] in Hstep.
  - apply andb_true_iff in Hen as [Hen _]; apply tab_is_true in Hen.
    destruct (inputChange_runs name v s b) as (s' & Hr & H1 & H2 & H3 & H4 & H5).
    rewrite Hr in Hstep. cbn [act pstate pbrowser plog] in Hstep.
    injection Hstep as <- <-. cbn [cstate]. by constructor.
  - apply andb_true_iff in Hen as [Hen _]; apply tab_is_true in Hen.
    destruct (submit_runs s b) as (accepted & errs & Hv & Hr).
    destruct accepted.
    + destruct Hr as (k & Hr & _).
      rewrite Hr in Hstep. cbn [act pstate pbrowser plog] in Hstep.
      injection Hstep as <- <-. cbn [cstate]. by constructor.
    + rewrite Hr in Hstep. cbn [act pstate pbrowser plog] in Hstep.
      injection Hstep as <- <-. cbn [cstate]. by constructor.
  - apply andb_true_iff in Hen as [Hen _]. apply andb_true_iff in Hen as [Hen _].
    apply tab_is_true in Hen.
    rewrite backToEdit_runs in Hstep. cbn [act pstate pbrowser plog] in Hstep.
    injection Hstep as <- <-. cbn [cstate]. by constructor.
  - apply andb_true_iff in Hen as [Hen _]. apply andb_true_iff in Hen as [Hen _].
    apply tab_is_true in Hen.
    destruct (analyze_runs s b) as (k & Hr & _).
    rewrite Hr in Hstep. cbn [act pstate pbrowser plog] in Hstep.
    injection Hstep as <- <-. cbn [cstate]. by constructor.
  - apply andb_true_iff in Hen as [Hen _]. apply tab_is_true in Hen.
    rewrite reset_runs in Hstep. cbn [act pstate pbrowser plog] in Hstep.
    injection Hstep as <- <-. cbn [cstate]. rewrite Hl. by constructor.
Qed.


(** X11. While a request is in flight the dashboard offers no control:
    no input, submit, back, proceed or new-analysis event runs a
    handler, so a request cannot be sent twice. *)
Theorem no_event_while_loading (c : config) (e : event) :
  reachable c -> loading (cstate c) = true ->
  (forall i o, e <> Settle i o) ->
  step c e = None.
Proof.
  intros Hc Hl Hne. apply reachable_inv in Hc.
  destruct (enabled (cstate c) e) eqn:Hen.
  - destruct (idle_enabled c e Hc Hne Hen) as (_ & Hl' & _). congruence.
  - destruct e; cbn in *; try (by rewrite Hen); by edestruct Hne.
Qed.


Lemma submitted_reachable : reachable submitted.
Proof.
  unfold submitted.
  destruct (steps _ _) as [c|] eqn:E; [| apply reachable_mount].
  eapply steps_reachable; [apply (reachable_mount fresh_browser) | exact E].
Qed.

Lemma no_event_while_loading_witness :
  reachable submitted /\ loading (cstate submitted) = true
  /\ step submitted Submit = None.
Proof.
  split; [apply submitted_reachable |]. split; [reflexivity |].
  apply (no_event_while_loading submitted Submit submitted_reachable).
  - reflexivity.
  - intros i o. discriminate.
Defined.

(** What holds of the form data and the stored analysis in every
    reachable state. *)
Lemma reachable_data (c : config) :
  reachable c ->
  (loading (cstate c) = true \/ activeTab (cstate c) <> js "form" ->
   valid_form (formData (cstate c)))
  /\ (activeTab (cstate c) <> js "results" -> analysis (cstate c) = VNull).
Proof.
  induction 1 as [b|c e c' l Hc IH Hstep].
  - split; [| done]. intros [H|H]; [discriminate H | by destruct H].
  - destruct IH as [Hvalid Hnull].
    pose proof (step_transition c e c' l (reachable_inv c Hc) Hstep) as Ht.
    inversion Ht as [name v s' Htab Hl Hfd Htab' Hl' Hc' Han
                    |errs Htab Hl Hv|errs Htab Hl Hv|Htab Hl|Htab Hl|Htab Hl
                    |i o b Htab Hl|i o b Htab Hl]; subst; cbn.
    + rewrite Htab', Hl', Han, Htab, Hl.
      split; [intros [H|H]; [discriminate H | by destruct H] |].
      intros _. apply Hnull. rewrite Htab. js_ne.
    + split; [| exact Hnull].
      rewrite Hl, Htab. intros [H|H]; [discriminate H | by destruct H].
    + split; [| exact Hnull]. intros _. destruct Hv as [Hv _]. by apply Hv.
    + split; [rewrite Hl; intros [H|H]; [discriminate H | by destruct H] |].
      intros _. apply Hnull. rewrite Htab. js_ne.
    + split; [intros _; apply Hvalid; right; rewrite Htab; js_ne |].
      intros _. apply Hnull. rewrite Htab. js_ne.
    + split; [intros [H|H]; [discriminate H | by destruct H] | done].
    + destruct o as [r|err]; cbn.
      * split; [intros _; apply Hvalid; by left |].
        intros _. apply Hnull. rewrite Htab. js_ne.
      * split; [intros _; apply Hvalid; by left | exact Hnull].
    + destruct o as [r|err]; cbn.
      * split; [intros _; apply Hvalid; by left | by intros []].
      * split; [intros _; apply Hvalid; by left |].
        intros _. apply Hnull. rewrite Htab. js_ne.
Qed.

(** X12. Every request the dashboard sends, to /legal/confirm or to
    /legal/analyze, carries the current form data, and that form data
    passes [validateForm]'s rules: the user cannot reach the analysis
    with a form that was edited after it was validated. *)
Theorem requests_carry_valid_form (c c' : config) (e : event) (l : list effect) :
  reachable c -> step c e = Some (c', l) ->
  forall url body, HttpPost url body ∈ l ->
    (url = js "/legal/confirm" \/ url = js "/legal/analyze")
    /\ body = formData_value (formData (cstate c))
    /\ valid_form (formData (cstate c)).
Proof.
  intros Hc Hstep url body Hin.
  destruct (reachable_data c Hc) as [Hvalid _].
  pose proof (step_transition c e c' l (reachable_inv c Hc) Hstep) as Ht.
  inversion Ht as [name v s' Htab Hl Hfd Htab' Hl' Hc' Han
                  |errs Htab Hl Hv|errs Htab Hl Hv|Htab Hl|Htab Hl|Htab Hl
                  |i o b Htab Hl|i o b Htab Hl]; subst.
  1, 2, 4, 6: by apply not_elem_of_nil in Hin.
  - apply list_elem_of_singleton in Hin. injection Hin as -> ->.
    split; [by left |]. split; [done |]. by apply Hv.
  - apply list_elem_of_singleton in Hin. injection Hin as -> ->.
    split; [by right |]. split; [done |]. apply Hvalid. right. rewrite Htab. js_ne.
  - destruct o; cbn in Hin; apply list_elem_of_In in Hin; cbn in Hin;
      intuition discriminate.
  - destruct o; cbn in Hin; apply list_elem_of_In in Hin; cbn in Hin;
      intuition discriminate.
Qed.

Example proceed_step :
  step at_confirmation ProceedWithAnalysis
  = Some (analyzing,
          [HttpPost (js "/legal/analyze") (formData_value sample_form)]).
Proof. reflexivity. Qed.

Lemma requests_carry_valid_form_witness :
  reachable at_confirmation
  /\ step at_confirmation ProceedWithAnalysis
     = Some (analyzing,
             [HttpPost (js "/legal/analyze") (formData_value sample_form)])
  /\ (js "/legal/analyze" = js "/legal/confirm"
      \/ js "/legal/analyze" = js "/legal/analyze")
  /\ formData_value sample_form = formData_value (formData (cstate at_confirmation))
  /\ valid_form (formData (cstate at_confirmation)).
Proof.
  split; [apply at_confirmation_reachable |]. split; [apply proceed_step |].
  apply (requests_carry_valid_form at_confirmation analyzing ProceedWithAnalysis _
           at_confirmation_reachable proceed_step).
  apply list_elem_of_here.
Defined.

(** X13. The dashboard holds an analysis only while it shows the results
    tab: on every other tab the stored analysis is [null], so the
    results tab never shows the analysis of an earlier run. *)
Theorem analysis_only_on_results (c : config) :
  reachable c -> activeTab (cstate c) <> js "results" ->
  analysis (cstate c) = VNull.
Proof. intros Hc. by destruct (reachable_data c Hc). Qed.

Lemma analysis_only_on_results_witness :
  reachable at_confirmation
  /\ activeTab (cstate at_confirmation) <> js "results"
  /\ analysis (cstate at_confirmation) = VNull.
Proof.
  assert (H : activeTab (cstate at_confirmation) <> js "results") by js_ne.
  split; [apply at_confirmation_reachable |]. split; [exact H |].
  exact (analysis_only_on_results at_confirmation at_confirmation_reachable H).
Defined.

(** X14. If the backend answers the confirmation request with a falsy
    value such as [null], the dashboard moves to the confirmation tab
    and is stranded there: no request is in flight and none of its
    controls exists, so no event changes its state any more. The same
    holds on the results tab for a falsy analysis. *)
Theorem falsy_answer_strands (c : config) :
  reachable c ->
  activeTab (cstate c) = js "confirmation" /\ truthy (confirmation (cstate c)) = false
  \/ activeTab (cstate c) = js "results" /\ truthy (analysis (cstate c)) = false ->
  stranded c.
Proof.
  intros Hc Hfalsy e. apply reachable_inv in Hc.
  assert (Hp : pending c = []).
  { destruct Hc as [(Hp & _)|[(k & _ & _ & _ & Ht)|(k & _ & _ & _ & Ht)]];
      [done | |]; rewrite Ht in Hfalsy;
      destruct Hfalsy as [[H _]|[H _]]; vm_compute in H; discriminate H. }
  unfold step. rewrite Hp.
  assert (Hen : forall e', (forall i o, e' <> Settle i o) ->
                  enabled (cstate c) e' = false).
  { intros e' Hne. unfold enabled, tab_is.
    destruct Hfalsy as [[Ht Hf]|[Ht Hf]]; rewrite Ht, Hf;
      destruct e'; try (by edestruct Hne);
      rewrite ?andb_false_r; try reflexivity;
      (rewrite bool_decide_eq_false_2; [done | js_ne]). }
  destruct e; try (rewrite Hen; [done | done]). done.
Qed.

Example to_empty_confirmation_runs :
  steps (mount fresh_browser) to_empty_confirmation = Some at_empty_confirmation.
Proof. vm_compute. reflexivity. Qed.

Lemma falsy_answer_strands_witness :
  reachable at_empty_confirmation
  /\ activeTab (cstate at_empty_confirmation) = js "confirmation"
  /\ truthy (confirmation (cstate at_empty_confirmation)) = false
  /\ stranded at_empty_confirmation.
Proof.
  assert (H : reachable at_empty_confirmation).
  { eapply steps_reachable; [apply (reachable_mount fresh_browser) |].
    apply to_empty_confirmation_runs. }
  split; [exact H |]. split; [reflexivity |]. split; [reflexivity |].
  apply (falsy_answer_strands at_empty_confirmation H).
  left. split; reflexivity.
Defined.

End DashboardOverTime.

(** ** The views and malformed answers *)

Section Views.
Import Dashboard.

Ltac forall_children :=
  cbn [children_of flat_map app];
  repeat first [apply Forall_nil_2 | apply Forall_cons_2 | apply Forall_app_2].

Lemma get_truthy (v : value) k : truthy v = true -> get v k = Some (get_opt v k).
Proof. by destruct v. Qed.

Lemma get_nullish (v : value) k : is_Some (get v k) <-> nullish v = false.
Proof.
  destruct v; cbn; split; intros H; try done; try (by eexists);
    by destruct H.
Qed.

(** When the call of [renderConfirmation] itself throws. *)
Lemma renderConfirmation_None_iff (loading : bool) (confirmation : value) :
  renderConfirmation loading confirmation = None
  <-> truthy confirmation = true
      /\ (is_array (get_opt confirmation (js "key_details")) = false
          \/ is_array (get_opt confirmation (js "questions")) = false).
Proof.
  unfold renderConfirmation. destruct (truthy confirmation) eqn:Ht.
  2: { split; [discriminate | intros [H _]; discriminate H]. }
  rewrite !(get_truthy confirmation) by done. cbn [mbind option_bind].
  destruct (get_opt confirmation (js "key_details")) eqn:Hk;
    destruct (get_opt confirmation (js "questions")) eqn:Hq; cbn;
    split; try done; try (intros _; split; [done |]; tauto);
    intros [_ [H|H]]; discriminate H.
Qed.

(** The values the confirmation view hands to React. *)
Lemma renderConfirmation_children (loading : bool) (confirmation : value) tree :
  renderConfirmation loading confirmation = Some tree ->
  children_of tree = confirmation_values confirmation.
Proof.
  unfold renderConfirmation, confirmation_values.
  destruct (truthy confirmation) eqn:Ht; [| by intros [= <-]].
  rewrite !(get_truthy confirmation) by done. cbn [mbind option_bind].
  destruct (get_opt confirmation (js "key_details")) as [| | | | |details|];
    try discriminate.
  destruct (get_opt confirmation (js "questions")) as [| | | | |questions|];
    try discriminate.
  cbn [mapped mbind option_bind items_of]. intros [= <-].
  assert (Hd : flat_map children_of (List.map renderDetail details) = details).
  { induction details as [|x l IH]; [done |]. cbn. by rewrite IH. }
  assert (Hq : flat_map children_of (List.map renderQuestion questions) = questions).
  { induction questions as [|x l IH]; [done |]. cbn. by rewrite IH. }
  destruct loading; cbn [flat_map children_of app icon];
    rewrite !app_nil_r, Hd, Hq; reflexivity.
Qed.

Lemma falsy_renderable (v : value) : truthy v = false -> renderable v = true.
Proof. by destruct v. Qed.

Lemma not_Some_None {A} (o : option A) : o = None <-> ~ is_Some o.
Proof.
  destruct o as [x|]; split.
  - discriminate.
  - intros H. destruct H. by exists x.
  - by intros _ [].
  - done.
Qed.

(** X15. The confirmation view fails to render exactly when the
    confirmation is truthy and its [key_details] or its [questions] is
    not an array, on which [renderConfirmation] throws, having no guard
    for a missing list, or one of the values it displays (the summary,
    a key detail, a question, the next steps) is or holds an object, on
    which React throws. *)
Theorem renderConfirmation_throws_iff nts (loading : bool) (confirmation : value) :
  rendered nts (renderConfirmation loading confirmation) = None
  <-> truthy confirmation = true
      /\ (is_array (get_opt confirmation (js "key_details")) = false
          \/ is_array (get_opt confirmation (js "questions")) = false
          \/ forallb renderable (confirmation_values confirmation) = false).
Proof.
  unfold rendered.
  destruct (renderConfirmation loading confirmation) as [tree|] eqn:Hr;
    cbn [mbind option_bind].
  - rewrite displayed_children_of, (renderConfirmation_children _ _ _ Hr).
    rewrite not_Some_None, texts_is_Some, not_true_iff_false.
    pose proof (renderConfirmation_None_iff loading confirmation) as Hn.
    rewrite Hr in Hn. split.
    + intros Hf. split; [| tauto].
      destruct (truthy confirmation) eqn:Ht; [done |].
      unfold confirmation_values in Hf. rewrite Ht in Hf. cbn in Hf.
      by rewrite (falsy_renderable _ Ht) in Hf.
    + intros [Ht [H|[H|H]]]; [| | exact H];
        exfalso; (assert (Some tree = None) as Hx by (apply Hn; tauto));
        discriminate Hx.
  - pose proof (proj1 (renderConfirmation_None_iff loading confirmation) Hr)
      as [Ht Hl].
    split; [intros _; split; [done | tauto] | done].
Qed.

(** X16. When the confirmation view renders, it displays exactly the
    summary, each key detail, each question and the next steps of the
    confirmation answer, in this order and unchanged ([undefined] for a
    summary or next steps the answer lacks), and nothing else of the
    answer; the text React displays is the text of these values. *)
Theorem renderConfirmation_verbatim nts (loading : bool) (confirmation : value) tree :
  renderConfirmation loading confirmation = Some tree ->
  children_of tree = confirmation_values confirmation
  /\ displayed nts tree = texts nts (confirmation_values confirmation)
  /\ forall v, v ∈ children_of tree -> known_in confirmation v.
Proof.
  intros Hr.
  split; [by apply (renderConfirmation_children loading) |].
  split; [by rewrite displayed_children_of, (renderConfirmation_children _ _ _ Hr) |].
  apply Forall_forall. unfold renderConfirmation in Hr.
  assert (Hself : known_in confirmation confirmation) by (right; constructor).
  destruct (truthy confirmation) eqn:Ht.
  2: { injection Hr as <-. forall_children. exact Hself. }
  rewrite !(get_truthy confirmation) in Hr by done. cbn [mbind option_bind] in Hr.
  assert (Hitems : forall k items, get_opt confirmation k = VArr items ->
            forall x, x ∈ items -> known_in confirmation x).
  { intros k items Hk x Hx. right.
    pose proof (get_opt_known confirmation confirmation k Hself) as [H|H];
      rewrite Hk in H; [discriminate H |].
    eapply subvalue_trans; [| exact H].
    eapply subvalue_item; [exact Hx | constructor]. }
  destruct (get_opt confirmation (js "key_details")) as [| | | | |details|] eqn:Hk;
    try discriminate Hr.
  destruct (get_opt confirmation (js "questions")) as [| | | | |questions|] eqn:Hq;
    try discriminate Hr.
  cbn in Hr. injection Hr as <-.
  destruct loading; forall_children.
  all: try (by apply get_opt_known).
  all: try (apply Forall_flat_map, Forall_forall; intros n Hn;
            apply list_elem_of_In, in_map_iff in Hn as (x & <- & Hx);
            apply list_elem_of_In in Hx; forall_children; eauto).
Qed.

Lemma renderConfirmation_verbatim_witness :
  exists tree,
    renderConfirmation false sample_confirmation = Some tree
    /\ children_of tree
       = [ VStr (js "DUI charge in California"); VStr (js "Vehicle Code 23152");
           VStr (js "Is this a first offense?");
           VStr (js "Proceed with the analysis") ]
    /\ displayed AuthContext.integer_toString tree
       = Some [ js "DUI charge in California"; js "Vehicle Code 23152";
                js "Is this a first offense?"; js "Proceed with the analysis" ]
    /\ forall v, v ∈ children_of tree -> known_in sample_confirmation v.
Proof.
  eexists. split; [vm_compute; reflexivity |].
  apply (renderConfirmation_verbatim AuthContext.integer_toString false
           sample_confirmation).
  vm_compute; reflexivity.
Defined.

(** A summary that is an object: [renderConfirmation] returns a tree,
    and React throws on it. *)
Example renderConfirmation_object_summary :
  let answer :=
    VObj [ (js "summary", VObj [(js "text", VStr (js "DUI charge"))]);
           (js "key_details", VArr []); (js "questions", VArr []) ] in
  is_Some (renderConfirmation false answer)
  /\ rendered AuthContext.integer_toString (renderConfirmation false answer) = None.
Proof. split; [by eexists | reflexivity]. Qed.

Example renderConfirmation_missing_list :
  renderConfirmation false (VObj [(js "summary", VStr (js "DUI charge"))]) = None.
Proof. reflexivity. Qed.

Lemma mapM_is_Some_forallb {A B} (f : A -> option B) (each : A -> bool) l :
  (forall x, is_Some (f x) <-> each x = true) ->
  is_Some (mapM f l) <-> forallb each l = true.
Proof.
  intros Hf. rewrite mapM_is_Some.
  induction l as [|x l IH]; cbn; [split; [done | constructor] |].
  rewrite andb_true_iff, Forall_cons, IH. cbn. by rewrite Hf.
Qed.

Lemma optional_map_is_Some (v : value) f each :
  (forall x, is_Some (f x) <-> each x = true) ->
  is_Some (optional_map v f) <-> listable each v = true.
Proof.
  intros Hf. destruct v as [| |bo|q|str|items|props]; cbn.
  1, 2: split; [done | intros _; by exists [Child VUndefined]].
  4: by apply mapM_is_Some_forallb.
  all: split; [intros [y Hy]; discriminate Hy | discriminate].
Qed.

Lemma list_item_is_Some x : is_Some (list_item x) <-> any_item x = true.
Proof. split; [done | by eexists]. Qed.

Lemma renderDefense_is_Some x : is_Some (renderDefense x) <-> object_item x = true.
Proof.
  unfold renderDefense, object_item.
  destruct x; cbn; split; try done; try (by eexists); by intros [].
Qed.

Lemma renderCase_is_Some x : is_Some (renderCase x) <-> object_item x = true.
Proof.
  unfold renderCase, object_item.
  destruct x; cbn; split; try done; try (by eexists); by intros [].
Qed.

Lemma renderPenalty_is_Some up (kx : jsstring * value) :
  is_Some (renderPenalty up kx) <-> negb (is_null kx.2) = true.
Proof.
  destruct kx as [k x]. unfold renderPenalty.
  destruct x; cbn; split; try done; try (by eexists); by intros [].
Qed.

(** Transfers a characterisation of when an option is defined to the
    two sides of a case distinction. *)
Ltac decide_option H :=
  match type of H with
  | is_Some ?o <-> ?t = true =>
      let E := fresh "E" in
      destruct o eqn:E;
      [ rewrite (proj1 H ltac:(by eexists)) in *
      | assert (t = false) as ->
          by (destruct t eqn:?; [destruct (proj2 H eq_refl); discriminate | done]) ];
      clear H
  end.

Lemma renderLegalExplanation_is_Some up analysis :
  truthy analysis = true ->
  is_Some (renderLegalExplanation up analysis)
  <-> (let le := get_opt analysis (js "legal_explanation") in
       if truthy le
       then listable any_item (get_opt le (js "what_prosecution_must_prove"))
            && penalties_shape (get_opt le (js "penalties"))
       else true) = true.
Proof.
  intros Ht. unfold renderLegalExplanation. cbn zeta.
  rewrite (get_truthy analysis) by done. cbn [mbind option_bind].
  destruct (truthy (get_opt analysis (js "legal_explanation"))) eqn:Hle;
    [| split; [done | by eexists]].
  rewrite !(get_truthy (get_opt analysis (js "legal_explanation"))) by done.
  cbn [mbind option_bind].
  pose proof (optional_map_is_Some
                (get_opt (get_opt analysis (js "legal_explanation"))
                   (js "what_prosecution_must_prove"))
                list_item any_item list_item_is_Some) as H1.
  decide_option H1; cbn [mbind option_bind andb]; [| split; [by intros [] | done]].
  unfold penalties_shape.
  destruct (Object_entries _) as [entries|]; cbn [mbind option_bind];
    [| split; [by intros [] | done]].
  pose proof (mapM_is_Some_forallb (renderPenalty up)
                (fun kx => negb (is_null kx.2)) entries
                (renderPenalty_is_Some up)) as H2.
  decide_option H2; cbn [mbind option_bind]; [split; [done | by eexists] |].
  split; [by intros [] | done].
Qed.

Lemma renderAnalytics_is_Some analysis :
  truthy analysis = true ->
  is_Some (renderAnalytics analysis)
  <-> (let an := get_opt analysis (js "analytics") in
       if truthy an
       then listable object_item (get_opt an (js "common_defenses"))
       else true) = true.
Proof.
  intros Ht. unfold renderAnalytics. cbn zeta.
  rewrite (get_truthy analysis) by done. cbn [mbind option_bind].
  destruct (truthy (get_opt analysis (js "analytics"))) eqn:Han;
    [| split; [done | by eexists]].
  rewrite !(get_truthy (get_opt analysis (js "analytics"))) by done.
  cbn [mbind option_bind].
  pose proof (optional_map_is_Some
                (get_opt (get_opt analysis (js "analytics")) (js "common_defenses"))
                renderDefense object_item renderDefense_is_Some) as H1.
  decide_option H1; cbn [mbind option_bind]; [split; [done | by eexists] |].
  split; [by intros [] | done].
Qed.

Lemma renderPrecedents_is_Some analysis :
  truthy analysis = true ->
  is_Some (renderPrecedents analysis)
  <-> (let pr := get_opt analysis (js "precedents") in
       if truthy pr then listable object_item (get_opt pr (js "cases")) else true)
      = true.
Proof.
  intros Ht. unfold renderPrecedents. cbn zeta.
  rewrite (get_truthy analysis) by done. cbn [mbind option_bind].
  destruct (truthy (get_opt analysis (js "precedents"))) eqn:Hpr;
    [| split; [done | by eexists]].
  rewrite !(get_truthy (get_opt analysis (js "precedents"))) by done.
  cbn [mbind option_bind].
  pose proof (optional_map_is_Some
                (get_opt (get_opt analysis (js "precedents")) (js "cases"))
                renderCase object_item renderCase_is_Some) as H1.
  decide_option H1; cbn [mbind option_bind]; [split; [done | by eexists] |].
  split; [by intros [] | done].
Qed.

Lemma renderSummary_is_Some analysis :
  truthy analysis = true ->
  is_Some (renderSummary analysis)
  <-> (let su := get_opt analysis (js "summary") in
       if truthy su
       then listable any_item (get_opt su (js "key_points"))
            && listable any_item (get_opt su (js "recommended_actions"))
       else true) = true.
Proof.
  intros Ht. unfold renderSummary. cbn zeta.
  rewrite (get_truthy analysis) by done. cbn [mbind option_bind].
  destruct (truthy (get_opt analysis (js "summary"))) eqn:Hsu;
    [| split; [done | by eexists]].
  rewrite !(get_truthy (get_opt analysis (js "summary"))) by done.
  cbn [mbind option_bind].
  pose proof (optional_map_is_Some
                (get_opt (get_opt analysis (js "summary")) (js "key_points"))
                list_item any_item list_item_is_Some) as H1.
  decide_option H1; cbn [mbind option_bind andb]; [| split; [by intros [] | done]].
  pose proof (optional_map_is_Some
                (get_opt (get_opt analysis (js "summary")) (js "recommended_actions"))
                list_item any_item list_item_is_Some) as H2.
  decide_option H2; cbn [mbind option_bind]; [split; [done | by eexists] |].
  split; [by intros [] | done].
Qed.

(** When the call of [renderResults] itself returns a tree. *)
Lemma renderResults_is_Some up (analysis : value) :
  is_Some (renderResults up analysis) <-> results_shape analysis = true.
Proof.
  unfold renderResults, results_shape.
  destruct (truthy analysis) eqn:Ht; [| split; [done | by eexists]].
  pose proof (renderLegalExplanation_is_Some up analysis Ht) as H1.
  pose proof (renderAnalytics_is_Some analysis Ht) as H2.
  pose proof (renderPrecedents_is_Some analysis Ht) as H3.
  pose proof (renderSummary_is_Some analysis Ht) as H4.
  cbn zeta in *.
  decide_option H1; cbn [mbind option_bind andb]; [| split; [by intros [] | done]].
  decide_option H2; cbn [mbind option_bind andb]; [| split; [by intros [] | done]].
  decide_option H3; cbn [mbind option_bind andb]; [| split; [by intros [] | done]].
  decide_option H4; cbn [mbind option_bind andb]; [split; [done | by eexists] |].
  split; [by intros [] | done].
Qed.

(** X17. The results view renders exactly for the responses of the
    shape [results_shape] none of whose displayed values is or holds an
    object. The shape is: a falsy response, or one in which, under each
    section that is present, every list is absent or an array, no
    defense and no case is null, and no penalty is null; outside it
    [renderResults] throws. A missing section or list never makes the
    view throw; a list that is a string or an object does, and so does
    an object where the view displays a value, on which React throws. *)
Theorem renderResults_renders_iff up nts (analysis : value) :
  is_Some (rendered nts (renderResults up analysis))
  <-> results_shape analysis = true
      /\ forallb renderable (results_values up analysis) = true.
Proof.
  unfold rendered. rewrite <- renderResults_is_Some.
  destruct (renderResults up analysis) as [tree|] eqn:Hr; cbn [mbind option_bind].
  - rewrite displayed_children_of, (renderResults_children _ _ _ Hr), texts_is_Some.
    split; [intros H; split; [by eexists | exact H] | by intros [_ H]].
  - split; [by intros [] | intros [[x Hx] _]; congruence].
Qed.

(** A crime name that is an object: [renderResults] returns a tree, and
    React throws on it. *)
Example renderResults_object_value :
  let response :=
    VObj [(js "legal_explanation",
           VObj [(js "crime_name", VObj [(js "en", VStr (js "DUI"))])])] in
  results_shape response = true
  /\ is_Some (renderResults ascii_toUpperCase response)
  /\ rendered AuthContext.integer_toString
       (renderResults ascii_toUpperCase response) = None.
Proof. split; [reflexivity |]. split; [by eexists | reflexivity]. Qed.

Example results_shape_sample : results_shape sample_analysis = true.
Proof. reflexivity. Qed.

Example results_shape_null_penalty :
  renderResults ascii_toUpperCase
    (VObj [(js "legal_explanation",
            VObj [(js "penalties", VObj [(js "first_offense", VNull)])])])
  = None.
Proof. reflexivity. Qed.

End Views.
